(** * JoinUs-Chat: meeting registry, validation and the join-meeting handler

    A shallow embedding of the TypeScript sources
      - src/utils/validation.ts        (module [Validation])
      - src/models/meeting.ts          (module [Model])
      - src/services/meetingService.ts (module [MeetingService])
      - src/server.ts                  (modules [Server], [Handlers])
    with the cache, the document store and the environment of the
    service in module [Store] and sequences of calls in module [Run],
    followed by the properties of the specification that concern them.

    Conventions.
      - A JavaScript string is its sequence of UTF-16 code units
        ([jsstring] = [list N]); [length] is the [.length] of the source.
      - The in-memory cache [activeMeetings] and the Firestore collection
        are finite maps keyed by meeting identifier.
      - [await]ed calls run to completion: one service call is one
        transition of the world. Exceptions are explicit ([Throw]). *)

From Stdlib Require Import ZArith NArith List Ascii String Lia.
From stdpp Require Import base option list gmap fin_maps pretty.

Open Scope N_scope.

(** ** JavaScript strings *)

Abbreviation jsstring := (list N).

Module JsString.

(** An ASCII literal of the source as code units. *)
Definition lit (s : string) : jsstring :=
  map N_of_ascii (list_ascii_of_string s).

(** [WhiteSpace] and [LineTerminator] of ECMAScript, the code units
    removed by [String.prototype.trim]. *)
Definition isWhiteSpace (c : N) : bool :=
  (c =? 0x09) || (c =? 0x0A) || (c =? 0x0B) || (c =? 0x0C) || (c =? 0x0D)
  || (c =? 0x20) || (c =? 0xA0) || (c =? 0x1680)
  || ((0x2000 <=? c) && (c <=? 0x200A))
  || (c =? 0x2028) || (c =? 0x2029) || (c =? 0x202F) || (c =? 0x205F)
  || (c =? 0x3000) || (c =? 0xFEFF).

Fixpoint trimStart (s : jsstring) : jsstring :=
  match s with
  | [] => []
  | c :: r => if isWhiteSpace c then trimStart r else s
  end.

Definition trimEnd (s : jsstring) : jsstring := rev (trimStart (rev s)).

(** [s.trim()] *)
Definition trim (s : jsstring) : jsstring := trimEnd (trimStart s).

(** [\d] of a regular expression without the [u] flag: '0'..'9'. *)
Definition isDigit (c : N) : bool := (0x30 <=? c) && (c <=? 0x39).

(** [\d{n}] at the head of [s]: the rest of the input after [n]
    digits, or no match. *)
Fixpoint matchDigits (n : nat) (s : jsstring) : option jsstring :=
  match n with
  | O => Some s
  | S n' =>
      match s with
      | c :: r => if isDigit c then matchDigits n' r else None
      | [] => None
      end
  end.

(** [n.toString()] of a non-negative integer. *)
Definition ofN (n : N) : jsstring := lit (pretty n).

(** [n.toString()] of an integer. *)
Definition ofZ (n : Z) : jsstring := lit (pretty n).

End JsString.

(** ** src/utils/validation.ts *)

Module Validation.
Import JsString.

(** [/^\d{6}$/.test(meetingId)]: anchored at the start, six digits,
    then the end of the input (no [m] flag, so [$] is the end only). *)
Definition isValidMeetingId (meetingId : jsstring) : bool :=
  match matchDigits 6 meetingId with
  | Some [] => true
  | _ => false
  end.

(** A value that arrives in an event: a string, or any other value
    (a number, a boolean, [null], [undefined], an array, an object),
    of which the handlers only ever use the string it converts to. *)
Inductive JsValue :=
| VString (s : jsstring)
| VOther (converted : jsstring).

(** [undefined], the value of a field that an object does not have *)
Definition jsUndefined : JsValue := VOther (lit "undefined").


(** The [typeof _ === "string"] tests hold by the parameter types;
    the handlers of [Server] and [Handlers] answer for the values
    that are no strings. *)
Definition isValidUserData (uid name : jsstring) : bool :=
  (0 <? length (trim uid))%nat && (0 <? length (trim name))%nat.

Definition isValidMessage (text : jsstring) : bool :=
  (0 <? length (trim text))%nat && (length text <=? 1000)%nat.

(** [Math.floor(100000 + Math.random() * 900000).toString()]. The
    product and the sum are computed in doubles and the sum is floored,
    so the number floored is not determined by
    [Math.floor(Math.random() * 900000)]; [r] stands for what the
    floored sum exceeds 100000 by. [Math.random()] lies in [0, 1): in
    doubles the product is at most 900000 - 2^-33 and the sum at most
    1000000 - 2^-33, so the floored sum lies in 100000..999999; the
    reduction of [r] below 900000 says so for any [r]. *)
Definition generateMeetingId (r : N) : jsstring :=
  ofN (100000 + r mod 900000).

End Validation.


(** ** src/models/meeting.ts *)

Module Model.

(** [Date] values are milliseconds since the epoch. *)
Record Participant := mkParticipant {
  uid : jsstring;
  name : jsstring;
  socketId : jsstring;
  joinedAt : Z
}.

(** [userId] and [userName] are declared as strings. The
    [send-message] handler takes them from [socket.data], where they
    are [undefined] ([None]) until the connection has joined a
    meeting. *)
Record ChatMessage := mkChatMessage {
  id : jsstring;
  userId : option jsstring;
  userName : option jsstring;
  text : jsstring;
  timestamp : Z
}.

Record Meeting := mkMeeting {
  meetingId : jsstring;
  createdBy : jsstring;
  createdAt : Z;
  participants : list Participant;
  messages : list ChatMessage;
  summary : option jsstring;
  isActive : bool;
  maxParticipants : Z
}.

Record MeetingCreateData := mkMeetingCreateData {
  mc_createdBy : jsstring;
  mc_creatorName : jsstring
}.

Record JoinMeetingData := mkJoinMeetingData {
  jm_meetingId : jsstring;
  jm_uid : jsstring;
  jm_name : jsstring;
  jm_socketId : jsstring
}.

(** Assignments to one field of an object. *)
Definition setSocketId (s : jsstring) (p : Participant) : Participant :=
  mkParticipant (uid p) (name p) s (joinedAt p).

Definition setCreatedAt (t : Z) (m : Meeting) : Meeting :=
  mkMeeting (meetingId m) (createdBy m) t (participants m) (messages m)
            (summary m) (isActive m) (maxParticipants m).

Definition setParticipants (ps : list Participant) (m : Meeting) : Meeting :=
  mkMeeting (meetingId m) (createdBy m) (createdAt m) ps (messages m)
            (summary m) (isActive m) (maxParticipants m).

Definition setMessages (ms : list ChatMessage) (m : Meeting) : Meeting :=
  mkMeeting (meetingId m) (createdBy m) (createdAt m) (participants m) ms
            (summary m) (isActive m) (maxParticipants m).

Definition setIsActive (b : bool) (m : Meeting) : Meeting :=
  mkMeeting (meetingId m) (createdBy m) (createdAt m) (participants m)
            (messages m) (summary m) b (maxParticipants m).

Definition setSummary (s : option jsstring) (m : Meeting) : Meeting :=
  mkMeeting (meetingId m) (createdBy m) (createdAt m) (participants m)
            (messages m) s (isActive m) (maxParticipants m).

End Model.

(** ** The world of the service: cache, document store, environment *)

Module Store.
Import Model.

(** What a [catch] clause receives. *)
Inductive Exn :=
| FirestoreError
| JsError (message : jsstring).

Inductive Outcome (A : Type) :=
| Ok (a : A)
| Throw (e : Exn).
Arguments Ok {A} a.
Arguments Throw {A} e.

(** The argument of [doc(id).update({...})]: the fields it names. *)
Record Patch := mkPatch {
  p_participants : option (list Participant);
  p_messages : option (list ChatMessage);
  p_isActive : option bool;
  p_summary : option jsstring
}.

Definition applyPatch (p : Patch) (d : Meeting) : Meeting :=
  mkMeeting (meetingId d) (createdBy d) (createdAt d)
            (default (participants d) (p_participants p))
            (default (messages d) (p_messages p))
            (match p_summary p with Some s => Some s | None => summary d end)
            (default (isActive d) (p_isActive p))
            (maxParticipants d).

(** Calls made to the document store, in the order they were made. *)
Inductive DbCall :=
| DbGet (docId : jsstring)
| DbSet (docId : jsstring) (doc : Meeting)
| DbUpdate (docId : jsstring) (p : Patch).

Record World := mkWorld {
  (** [const activeMeetings = new Map<string, Meeting>()] *)
  activeMeetings : gmap jsstring Meeting;
  (** the collection "meetings", one document per meeting identifier *)
  firestore : gmap jsstring Meeting;
  (** whether each coming store call throws; none does once exhausted *)
  faults : list bool;
  (** the store calls made so far, latest first *)
  dbLog : list DbCall;
  (** coming values of
      [Math.floor(100000 + Math.random() * 900000) - 100000];
      0 once exhausted *)
  draws : list N;
  (** [Date.now()] *)
  clock : Z;
  (** summaries being generated: meeting and transcript source *)
  summaryJobs : list (jsstring * list ChatMessage);
  (** coming values of the clock of the store, one for each write that
      asks for [FieldValue.serverTimestamp()]; the local clock once
      exhausted *)
  serverTimes : list Z
}.

Definition withCache (c : gmap jsstring Meeting) (w : World) : World :=
  mkWorld c (firestore w) (faults w) (dbLog w) (draws w) (clock w) (summaryJobs w)
          (serverTimes w).
Definition withFirestore (d : gmap jsstring Meeting) (w : World) : World :=
  mkWorld (activeMeetings w) d (faults w) (dbLog w) (draws w) (clock w) (summaryJobs w)
          (serverTimes w).
Definition withFaults (f : list bool) (w : World) : World :=
  mkWorld (activeMeetings w) (firestore w) f (dbLog w) (draws w) (clock w) (summaryJobs w)
          (serverTimes w).
Definition withDbLog (l : list DbCall) (w : World) : World :=
  mkWorld (activeMeetings w) (firestore w) (faults w) l (draws w) (clock w) (summaryJobs w)
          (serverTimes w).
Definition withDraws (r : list N) (w : World) : World :=
  mkWorld (activeMeetings w) (firestore w) (faults w) (dbLog w) r (clock w) (summaryJobs w)
          (serverTimes w).
Definition withClock (t : Z) (w : World) : World :=
  mkWorld (activeMeetings w) (firestore w) (faults w) (dbLog w) (draws w) t (summaryJobs w)
          (serverTimes w).
Definition withSummaryJobs (j : list (jsstring * list ChatMessage)) (w : World) : World :=
  mkWorld (activeMeetings w) (firestore w) (faults w) (dbLog w) (draws w) (clock w) j
          (serverTimes w).
Definition withServerTimes (ts : list Z) (w : World) : World :=
  mkWorld (activeMeetings w) (firestore w) (faults w) (dbLog w) (draws w) (clock w)
          (summaryJobs w) ts.

(** Computations of the service: state passing with exceptions; the
    state reached when an exception is thrown is kept. *)
Definition M (A : Type) : Type := World -> Outcome A * World.

Definition ret {A} (a : A) : M A := fun w => (Ok a, w).

Definition bind {A B} (m : M A) (k : A -> M B) : M B :=
  fun w =>
    match m w with
    | (Ok a, w') => k a w'
    | (Throw e, w') => (Throw e, w')
    end.

Definition throw {A} (e : Exn) : M A := fun w => (Throw e, w).

(** [try { body } catch (error) { handler }] *)
Definition tryCatch {A} (body : M A) (handler : Exn -> M A) : M A :=
  fun w =>
    match body w with
    | (Ok a, w') => (Ok a, w')
    | (Throw e, w') => handler e w'
    end.

Definition getWorld : M World := fun w => (Ok w, w).
Definition modifyWorld (f : World -> World) : M unit := fun w => (Ok tt, f w).

(** One call to the store: logged, and failing if the environment
    says so. *)
Definition afterCall (c : DbCall) (w : World) : World :=
  withFaults (tail (faults w)) (withDbLog (c :: dbLog w) w).

Definition storeCall (c : DbCall) : M unit :=
  fun w =>
    if hd false (faults w) then (Throw FirestoreError, afterCall c w)
    else (Ok tt, afterCall c w).

(** [await db.collection("meetings").doc(id).get()]; [None] for
    [!doc.exists]. *)
Definition dbGet (docId : jsstring) : M (option Meeting) :=
  bind (storeCall (DbGet docId)) (fun _ =>
  bind getWorld (fun w => ret (firestore w !! docId))).

(** [await db.collection("meetings").doc(id).set(doc)] *)
Definition dbSet (docId : jsstring) (doc : Meeting) : M unit :=
  bind (storeCall (DbSet docId doc)) (fun _ =>
  modifyWorld (fun w => withFirestore (<[docId := doc]> (firestore w)) w)).

(** The time that the store writes for [FieldValue.serverTimestamp()]. *)
Definition serverTime (w : World) : Z := hd (clock w) (serverTimes w).

(** [await db.collection("meetings").doc(id).set({ ...doc, createdAt:
    admin.firestore.FieldValue.serverTimestamp() })]: the document
    gets the time of the store in [createdAt], not that of [doc]. *)
Definition dbSetStamped (docId : jsstring) (doc : Meeting) : M unit :=
  fun w =>
    dbSet docId (setCreatedAt (serverTime w) doc)
          (withServerTimes (tail (serverTimes w)) w).

(** [await db.collection("meetings").doc(id).update(patch)]; Firestore
    rejects the update of a document that does not exist. *)
Definition dbUpdate (docId : jsstring) (p : Patch) : M unit :=
  bind (storeCall (DbUpdate docId p)) (fun _ =>
  bind getWorld (fun w =>
    match firestore w !! docId with
    | Some d => modifyWorld (withFirestore (<[docId := applyPatch p d]> (firestore w)))
    | None => throw FirestoreError
    end)).

(** A message that Firestore accepts as a value: none of its fields is
    [undefined]. *)
Definition definedMessage (m : ChatMessage) : bool :=
  match userId m, userName m with
  | Some _, Some _ => true
  | _, _ => false
  end.

(** [await db.collection("meetings").doc(id).update({ messages })]. The
    Firestore client checks the value before it sends anything, and
    [ignoreUndefinedProperties] is not set (src/utils/firebase.ts): a
    message with a field that is [undefined] makes the call throw, and
    no call reaches the store. *)
Definition dbUpdateMessages (docId : jsstring) (ms : list ChatMessage) : M unit :=
  if forallb definedMessage ms
  then dbUpdate docId (mkPatch None (Some ms) None None)
  else throw FirestoreError.

Definition cacheSet (k : jsstring) (m : Meeting) : M unit :=
  modifyWorld (fun w => withCache (<[k := m]> (activeMeetings w)) w).

Definition cacheDelete (k : jsstring) : M unit :=
  modifyWorld (fun w => withCache (delete k (activeMeetings w)) w).

(** An assignment to a field of the object that [getMeetingById] has
    returned for [k]. That object is the one the cache holds under [k],
    so the assignment shows through the cache at once. *)
Definition mutateMeeting (k : jsstring) (m' : Meeting) : M unit :=
  cacheSet k m'.

(** [new Date()] *)
Definition now : M Z := fun w => (Ok (clock w), w).

(** [Math.floor(100000 + Math.random() * 900000) - 100000], the
    argument of [Validation.generateMeetingId] *)
Definition random : M N :=
  fun w =>
    match draws w with
    | r :: rs => (Ok r, withDraws rs w)
    | [] => (Ok 0, w)
    end.

(** [generateMeetingSummary(messages).then(...)] without [await]: the
    request goes out with the messages as they are now, the result
    comes back later ([MeetingService.summaryReady]). *)
Definition spawnSummary (k : jsstring) (ms : list ChatMessage) : M unit :=
  modifyWorld (fun w => withSummaryJobs (summaryJobs w ++ [(k, ms)]) w).

End Store.

Declare Scope svc_scope.
Delimit Scope svc_scope with svc.
Notation "x <- m ;; k" := (Store.bind m (fun x => k))
  (at level 100, m at next level, right associativity) : svc_scope.
Notation "m ;;; k" := (Store.bind m (fun _ => k))
  (at level 100, right associativity) : svc_scope.

(** ** src/services/meetingService.ts *)

Module MeetingService.
Import JsString Validation Model Store.
Local Open Scope svc_scope.

Definition MAX_PARTICIPANTS : Z := 10.

(** [{ success, error? }] *)
Record EndResult := mkEndResult {
  er_success : bool;
  er_error : option jsstring
}.

(** [{ success, meeting?, error? }] *)
Record JoinResult := mkJoinResult {
  success : bool;
  meeting : option Meeting;
  error : option jsstring
}.

Definition joinFailure (msg : jsstring) : JoinResult :=
  mkJoinResult false None (Some msg).

Definition getMeetingById (meetingId : jsstring) : M (option Meeting) :=
  if negb (isValidMeetingId meetingId) then ret None
  else
    w <- getWorld ;;
    match activeMeetings w !! meetingId with
    | Some cached => ret (Some cached)
    | None =>
        tryCatch
          (doc <- dbGet meetingId ;;
           match doc with
           | None => ret None
           | Some data =>
               (* the conversions of the stored timestamps to [Date]
                  are the identity on milliseconds *)
               let meeting := data in
               cacheSet meetingId meeting ;;;
               ret (Some meeting)
           end)
          (fun _ => ret None)
    end.

(** The [while (exists)] loop of [createMeeting], entered with the
    first candidate already looked up; [None] when [fuel] iterations
    did not find a free identifier. *)
Fixpoint retryMeetingId (fuel : nat) (meetingId : jsstring) (exists_ : option Meeting)
  : M (option jsstring) :=
  match exists_ with
  | None => ret (Some meetingId)
  | Some _ =>
      match fuel with
      | O => ret None
      | S fuel' =>
          r <- random ;;
          let meetingId := generateMeetingId r in
          exists_ <- getMeetingById meetingId ;;
          retryMeetingId fuel' meetingId exists_
      end
  end.

(** [None]: the loop has not finished within [fuel] iterations. *)
Definition createMeeting (fuel : nat) (data : MeetingCreateData) : M (option Meeting) :=
  tryCatch
    (r <- random ;;
     let meetingId := generateMeetingId r in
     exists_ <- getMeetingById meetingId ;;
     picked <- retryMeetingId fuel meetingId exists_ ;;
     match picked with
     | None => ret None
     | Some meetingId =>
         t <- now ;;
         let meeting :=
           mkMeeting meetingId (mc_createdBy data) t [] [] None true MAX_PARTICIPANTS in
         (* [createdAt] is the server's timestamp in the stored copy *)
         dbSetStamped meetingId meeting ;;;
         cacheSet meetingId meeting ;;;
         ret (Some meeting)
     end)
    (fun _ => throw (JsError (lit "Failed to create meeting"))).

Definition endMeeting (meetingId uid : jsstring) : M EndResult :=
  tryCatch
    (found <- getMeetingById meetingId ;;
     match found with
     | None => ret (mkEndResult false (Some (lit "Meeting not found")))
     | Some meeting =>
         if negb (bool_decide (createdBy meeting = uid)) then
           ret (mkEndResult false (Some (lit "Only the host can end the meeting")))
         else
           let meeting := setIsActive false meeting in
           mutateMeeting meetingId meeting ;;;
           cacheDelete meetingId ;;;
           (if (0 <? length (messages meeting))%nat
            then spawnSummary meetingId (messages meeting)
            else ret tt) ;;;
           dbUpdate meetingId (mkPatch None None (Some false) None) ;;;
           ret (mkEndResult true None)
     end)
    (fun _ => ret (mkEndResult false (Some (lit "Failed to end meeting")))).

(** [existingParticipant.socketId = data.socketId], where
    [existingParticipant] is the first participant that [find] meets
    with the given [uid]. *)
Fixpoint reconnect (u s : jsstring) (ps : list Participant) : list Participant :=
  match ps with
  | [] => []
  | p :: rest =>
      if bool_decide (uid p = u) then setSocketId s p :: rest
      else p :: reconnect u s rest
  end.

Definition joinMeeting (data : JoinMeetingData) : M JoinResult :=
  tryCatch
    (found <- getMeetingById (jm_meetingId data) ;;
     match found with
     | None => ret (joinFailure (lit "Meeting not found"))
     | Some meeting =>
         if negb (isActive meeting) then
           ret (joinFailure (lit "Meeting is no longer active"))
         else
           let persist (meeting : Meeting) : M JoinResult :=
             dbUpdate (jm_meetingId data)
                      (mkPatch (Some (participants meeting)) None None None) ;;;
             cacheSet (jm_meetingId data) meeting ;;;
             ret (mkJoinResult true (Some meeting) None) in
           match List.find (fun p => bool_decide (uid p = jm_uid data))
                           (participants meeting) with
           | Some _ =>
               let meeting :=
                 setParticipants
                   (reconnect (jm_uid data) (jm_socketId data) (participants meeting))
                   meeting in
               mutateMeeting (jm_meetingId data) meeting ;;;
               persist meeting
           | None =>
               if (maxParticipants meeting <=? Z.of_nat (length (participants meeting)))%Z
               then
                 ret (joinFailure
                        (lit "Meeting is full (max " ++ ofZ (maxParticipants meeting)
                         ++ lit " participants)"))
               else
                 t <- now ;;
                 let participant :=
                   mkParticipant (jm_uid data) (jm_name data) (jm_socketId data) t in
                 let meeting :=
                   setParticipants (participants meeting ++ [participant]) meeting in
                 mutateMeeting (jm_meetingId data) meeting ;;;
                 persist meeting
           end
     end)
    (fun _ => ret (joinFailure (lit "Failed to join meeting"))).

Definition leaveMeeting (meetingId socketId_ : jsstring) : M unit :=
  tryCatch
    (found <- getMeetingById meetingId ;;
     match found with
     | None => ret tt
     | Some meeting =>
         let meeting :=
           setParticipants
             (List.filter (fun p => negb (bool_decide (socketId p = socketId_)))
                          (participants meeting))
             meeting in
         mutateMeeting meetingId meeting ;;;
         meeting <-
           (if (length (participants meeting) =? 0)%nat then
              let meeting := setIsActive false meeting in
              mutateMeeting meetingId meeting ;;;
              cacheDelete meetingId ;;;
              (if (0 <? length (messages meeting))%nat
               then spawnSummary meetingId (messages meeting)
               else ret tt) ;;;
              ret meeting
            else ret meeting) ;;
         dbUpdate meetingId
                  (mkPatch (Some (participants meeting)) None (Some (isActive meeting)) None)
     end)
    (fun _ => ret tt).

Definition addMessage (meetingId : jsstring) (message : ChatMessage) : M unit :=
  tryCatch
    (found <- getMeetingById meetingId ;;
     match found with
     | None => throw (JsError (lit "Meeting not found"))
     | Some meeting =>
         let meeting := setMessages (messages meeting ++ [message]) meeting in
         mutateMeeting meetingId meeting ;;;
         dbUpdateMessages meetingId (messages meeting) ;;;
         cacheSet meetingId meeting
     end)
    (fun e => throw e).

Definition getParticipants (meetingId : jsstring) : M (list Participant) :=
  found <- getMeetingById meetingId ;;
  ret (match found with
       | Some meeting => participants meeting
       | None => []
       end).

(** The [.then] of the summary request sent first: the text [summary_]
    that the summarizer has answered is written to the document; a
    failure is logged by the [.catch]. *)
Definition summaryReady (summary_ : jsstring) : M unit :=
  w <- getWorld ;;
  match summaryJobs w with
  | [] => ret tt
  | (meetingId, _) :: rest =>
      modifyWorld (withSummaryJobs rest) ;;;
      tryCatch
        (dbUpdate meetingId (mkPatch None None None (Some summary_)))
        (fun _ => ret tt)
  end.

End MeetingService.

(** ** src/server.ts: the [join-meeting] handler *)

Module Server.
Import JsString Validation Model Store MeetingService.

(** The payloads of the events this handler emits. *)
Inductive Payload :=
| PMessage (message : option jsstring)
| PJoinedMeeting (meetingId : jsstring) (participants : list Participant)
                 (messages : list ChatMessage) (createdBy : jsstring)
| PUserJoined (uid name : jsstring) (participantCount : nat).

Inductive Emit :=
(** [socket.emit(event, payload)]: to this connection *)
| ToSocket (socketId : jsstring) (event : jsstring) (payload : Payload)
(** [socket.to(room).emit(event, payload)]: to the room but this
    connection *)
| ToOthers (room : jsstring) (socketId : jsstring) (event : jsstring) (payload : Payload).

Record Socket := mkSocket {
  socket_id : jsstring;
  rooms : list jsstring;
  data_meetingId : option jsstring;
  data_uid : option jsstring;
  data_name : option jsstring
}.

(** The inbound [{ meetingId, uid, name }], as declared. *)
Record JoinMeetingEvent := mkJoinMeetingEvent {
  ev_meetingId : jsstring;
  ev_uid : jsstring;
  ev_name : jsstring
}.

(** What the destructuring [const { meetingId, uid, name } = data]
    reads from the value that a client sends with [join-meeting]: a
    field that the value does not have is [undefined]. *)
Record JoinMeetingPayload := mkJoinMeetingPayload {
  raw_meetingId : JsValue;
  raw_uid : JsValue;
  raw_name : JsValue
}.

(** The [try] block of the handler once [data] has been destructured
    into three strings, with its [catch]. *)
Definition onJoinMeeting (socket : Socket) (data : JoinMeetingEvent) (w : World)
  : list Emit * Socket * World :=
  let meetingId := ev_meetingId data in
  let uid := ev_uid data in
  let name := ev_name data in
  let failed (socket : Socket) (w : World) :=
    ([ToSocket (socket_id socket) (lit "error")
               (PMessage (Some (lit "Failed to join meeting")))], socket, w) in
  if negb (isValidMeetingId meetingId) || negb (isValidUserData uid name) then
    ([ToSocket (socket_id socket) (lit "error")
               (PMessage (Some (lit "Invalid meeting data")))], socket, w)
  else
    match joinMeeting (mkJoinMeetingData meetingId uid name (socket_id socket)) w with
    | (Throw _, w') => failed socket w'
    | (Ok result, w') =>
        if negb (success result) then
          ([ToSocket (socket_id socket) (lit "join-error") (PMessage (error result))],
           socket, w')
        else
          (* [socket.join(meetingId)], then the three [socket.data] fields *)
          let socket :=
            mkSocket (socket_id socket) (meetingId :: rooms socket)
                     (Some meetingId) (Some uid) (Some name) in
          match meeting result with
          | None => failed socket w'   (* [result.meeting!] is undefined *)
          | Some m =>
              ([ToSocket (socket_id socket) (lit "joined-meeting")
                         (PJoinedMeeting meetingId (participants m) (messages m)
                                         (createdBy m));
                ToOthers meetingId (socket_id socket) (lit "user-joined")
                         (PUserJoined uid name (length (participants m)))],
               socket, w')
          end
    end.

(** The [join-meeting] handler. [None]: the event comes with
    [undefined] or [null], so [const { meetingId, uid, name } = data]
    throws and the [catch] answers. [isValidUserData] is false of a
    [uid] or a [name] that is no string. [/^\d{6}$/.test(meetingId)]
    converts a [meetingId] that is no string; when the test holds
    (the number 123456, say), [joinMeeting] looks the value up: the
    keys of [activeMeetings] are strings, so the cache does not have
    it, [doc(meetingId)] throws on what is no string before any call
    of the store, [getMeetingById] catches and returns [null], and
    [joinMeeting] answers "Meeting not found". *)
Definition onJoinMeetingEvent (socket : Socket) (payload : option JoinMeetingPayload)
           (w : World) : list Emit * Socket * World :=
  let invalid :=
    ([ToSocket (socket_id socket) (lit "error")
               (PMessage (Some (lit "Invalid meeting data")))], socket, w) in
  match payload with
  | None =>
      ([ToSocket (socket_id socket) (lit "error")
                 (PMessage (Some (lit "Failed to join meeting")))], socket, w)
  | Some data =>
      match raw_meetingId data, raw_uid data, raw_name data with
      | VString meetingId, VString uid, VString name =>
          onJoinMeeting socket (mkJoinMeetingEvent meetingId uid name) w
      | VOther converted, VString uid, VString name =>
          if negb (isValidMeetingId converted) || negb (isValidUserData uid name)
          then invalid
          else
            ([ToSocket (socket_id socket) (lit "join-error")
                       (PMessage (Some (lit "Meeting not found")))], socket, w)
      | _, _, _ => invalid
      end
  end.

End Server.

(** ** Sequences of service calls *)

Module Run.
Import Model Store MeetingService.

(** One call of the service, or one event of its environment. *)
Inductive Op :=
| OpCreate (fuel : nat) (data : MeetingCreateData)
| OpGet (meetingId : jsstring)
| OpEnd (meetingId uid : jsstring)
| OpJoin (data : JoinMeetingData)
| OpLeave (meetingId socketId : jsstring)
| OpAddMessage (meetingId : jsstring) (message : ChatMessage)
| OpGetParticipants (meetingId : jsstring)
| OpSummaryReady (summary : jsstring)
| OpTick (t : Z).

Definition step (o : Op) (w : World) : World :=
  match o with
  | OpCreate fuel data => snd (createMeeting fuel data w)
  | OpGet k => snd (getMeetingById k w)
  | OpEnd k u => snd (endMeeting k u w)
  | OpJoin data => snd (joinMeeting data w)
  | OpLeave k s => snd (leaveMeeting k s w)
  | OpAddMessage k msg => snd (addMessage k msg w)
  | OpGetParticipants k => snd (getParticipants k w)
  | OpSummaryReady s => snd (summaryReady s w)
  | OpTick t => withClock t w
  end.

Definition run (ops : list Op) (w : World) : World :=
  fold_left (fun w o => step o w) ops w.

(** A store that will not fail: no failure is coming, and every
    cached meeting has its document. *)
Definition storeHealthy (w : World) : Prop :=
  faults w = []
  /\ forall k, is_Some (activeMeetings w !! k) -> is_Some (firestore w !! k).

(** The copies of meeting [k]: the cached object and the document. *)
Definition version (w : World) (k : jsstring) (m : Meeting) : Prop :=
  activeMeetings w !! k = Some m \/ firestore w !! k = Some m.

(** Meeting [k] exists and no copy of it is active. *)
Definition ended (w : World) (k : jsstring) : Prop :=
  Validation.isValidMeetingId k = true
  /\ is_Some (firestore w !! k)
  /\ forall m, version w k m -> isActive m = false.

(** Every copy of meeting [k] in [w'] has its participants among those
    of a copy in [w], in the same order. *)
Definition dwindled (k : jsstring) (w w' : World) : Prop :=
  forall m', version w' k m' ->
    exists m, version w k m /\ sublist (participants m') (participants m).

(** Every copy of meeting [k] in [w'] has the messages of a copy in [w]. *)
Definition keptMessages (k : jsstring) (w w' : World) : Prop :=
  forall m', version w' k m' ->
    exists m, version w k m /\ messages m' = messages m.

(** The server at start-up: nothing cached, nothing stored; the clock
    of the store agrees with the local one. *)
Definition initial (faults_ : list bool) (draws_ : list N) (t : Z) : World :=
  mkWorld ∅ ∅ faults_ [] draws_ t [] [].

End Run.

(** ** How a call may change a participant list *)

Module Evolution.
Import Model Store MeetingService.

(** The ways in which [joinMeeting] and [leaveMeeting] rewrite the
    participants [ps] of a meeting whose maximum is [mx]. *)
Inductive participantsStep (mx : Z) (ps : list Participant) : list Participant -> Prop :=
| ps_same : participantsStep mx ps ps
| ps_reconnect (u s : jsstring) : participantsStep mx ps (reconnect u s ps)
| ps_append (p : Participant) :
    (forall q, In q ps -> uid q <> uid p) ->
    (Z.of_nat (length ps) < mx)%Z ->
    participantsStep mx ps (ps ++ [p])
| ps_filter (f : Participant -> bool) : participantsStep mx ps (List.filter f ps).

(** The meeting that [createMeeting] builds. *)
Definition freshMeeting (k creator : jsstring) (t : Z) : Meeting :=
  mkMeeting k creator t [] [] None true MAX_PARTICIPANTS.

End Evolution.

(** ** src/server.ts: the other handlers and the HTTP endpoints *)

Module Handlers.
Import JsString Validation Model Store MeetingService Server.

(** The payloads of the events these handlers emit. *)
Inductive Notice :=
| NMessage (message : jsstring)
| NNewMessage (message : ChatMessage)
| NUserLeft (name : option jsstring) (participantCount : nat)
| NNone.

Inductive Emission :=
(** [socket.emit(event, payload)] *)
| SocketEmit (socketId event : jsstring) (payload : Notice)
(** [socket.to(room).emit(event, payload)] *)
| OthersEmit (room socketId event : jsstring) (payload : Notice)
(** [io.to(room).emit(event, payload)] *)
| RoomEmit (room event : jsstring) (payload : Notice).

(** The inbound [{ meetingId, text }], as declared. *)
Record SendMessageEvent := mkSendMessageEvent {
  sm_meetingId : jsstring;
  sm_text : jsstring
}.

(** What the destructuring [const { meetingId, text } = data] reads
    from the value that a client sends with [send-message]. *)
Record SendMessagePayload := mkSendMessagePayload {
  raw_sm_meetingId : JsValue;
  raw_sm_text : JsValue
}.

(** [`${uid}`] *)
Definition shown (v : option jsstring) : jsstring :=
  match v with
  | Some s => s
  | None => lit "undefined"
  end.

(** The message that the handler builds from [socket.data] and the
    text. *)
Definition outgoing (socket : Socket) (text : jsstring) (w : World) : ChatMessage :=
  mkChatMessage (ofZ (clock w) ++ lit "-" ++ shown (data_uid socket))
                (data_uid socket) (data_name socket) (trim text) (clock w).

(** The [try] block of the [send-message] handler once [data] has been
    destructured into two strings, with its [catch]. [socket.data] is
    an object from the start, so its destructuring does not throw. *)
Definition onSendMessage (socket : Socket) (data : SendMessageEvent) (w : World)
  : list Emission * World :=
  let meetingId := sm_meetingId data in
  let text := sm_text data in
  if negb (isValidMessage text) then
    ([SocketEmit (socket_id socket) (lit "error") (NMessage (lit "Invalid message"))], w)
  else
    let message := outgoing socket text w in
    match addMessage meetingId message w with
    | (Ok _, w') => ([RoomEmit meetingId (lit "new-message") (NNewMessage message)], w')
    | (Throw _, w') =>
        ([SocketEmit (socket_id socket) (lit "error")
                     (NMessage (lit "Failed to send message"))], w')
    end.

(** The [send-message] handler. [None]: the event comes with
    [undefined] or [null], the destructuring throws and the [catch]
    answers. A [text] that is no string fails
    [typeof text === "string"]. With a [meetingId] that is no string,
    [getMeetingById] returns [null], at its first test or, when the
    value converts to six digits, because the cache has string keys
    only and [doc(meetingId)] throws before any call of the store; so
    [addMessage] throws "Meeting not found" and nothing has changed. *)
Definition onSendMessageEvent (socket : Socket) (payload : option SendMessagePayload)
           (w : World) : list Emission * World :=
  let failed :=
    ([SocketEmit (socket_id socket) (lit "error")
                 (NMessage (lit "Failed to send message"))], w) in
  match payload with
  | None => failed
  | Some data =>
      match raw_sm_text data with
      | VOther _ =>
          ([SocketEmit (socket_id socket) (lit "error")
                       (NMessage (lit "Invalid message"))], w)
      | VString text =>
          match raw_sm_meetingId data with
          | VString meetingId =>
              onSendMessage socket (mkSendMessageEvent meetingId text) w
          | VOther _ =>
              if negb (isValidMessage text) then
                ([SocketEmit (socket_id socket) (lit "error")
                             (NMessage (lit "Invalid message"))], w)
              else failed
          end
      end
  end.

(** [send-message] events, each with the connection it comes on,
    handled one after the other: what each is answered with, and the
    world at the end. *)
Fixpoint onSendMessages (events : list (Socket * option SendMessagePayload)) (w : World)
  : list (list Emission) * World :=
  match events with
  | [] => ([], w)
  | (socket, payload) :: rest =>
      let r := onSendMessageEvent socket payload w in
      let rs := onSendMessages rest (snd r) in
      (fst r :: fst rs, snd rs)
  end.

(** The [disconnect] handler; [if (meetingId)] holds of a string that
    is not empty. *)
Definition onDisconnect (socket : Socket) (w : World) : list Emission * World :=
  match data_meetingId socket with
  | Some (c :: r) =>
      let meetingId := c :: r in
      match leaveMeeting meetingId (socket_id socket) w with
      | (Throw _, w1) => ([], w1)
      | (Ok _, w1) =>
          match getParticipants meetingId w1 with
          | (Throw _, w2) => ([], w2)
          | (Ok participants, w2) =>
              ([OthersEmit meetingId (socket_id socket) (lit "user-left")
                           (NUserLeft (data_name socket) (length participants))], w2)
          end
      end
  | _ => ([], w)
  end.

(** The JSON bodies of the responses. *)
Inductive Body :=
| BError (error : option jsstring)
| BCreated (meetingId : jsstring) (meeting : Meeting)
| BSuccess
| BMeetingInfo (participantCount : nat) (participants : list Participant).

Record Response := mkResponse {
  status : nat;
  body : Body
}.

(** [POST /api/meetings/create]; a field of the body is absent or a
    string, and [!field] holds of an absent or empty one. [None]: the
    creation has not finished within [fuel] retries. *)
Definition postCreate (fuel : nat) (createdBy creatorName : option jsstring) (w : World)
  : option (Response * World) :=
  match createdBy, creatorName with
  | Some (c :: r), Some (c' :: r') =>
      match createMeeting fuel (mkMeetingCreateData (c :: r) (c' :: r')) w with
      | (Ok (Some meeting), w') =>
          Some (mkResponse 201 (BCreated (Model.meetingId meeting) meeting), w')
      | (Ok None, w') => None
      | (Throw _, w') =>
          Some (mkResponse 500 (BError (Some (lit "Failed to create meeting"))), w')
      end
  | _, _ => Some (mkResponse 400 (BError (Some (lit "Missing required fields"))), w)
  end.

(** [POST /api/meetings/end] *)
Definition postEnd (meetingId uid : option jsstring) (w : World)
  : Response * list Emission * World :=
  match meetingId, uid with
  | Some (c :: r), Some (c' :: r') =>
      match endMeeting (c :: r) (c' :: r') w with
      | (Throw _, w') =>
          (mkResponse 500 (BError (Some (lit "Failed to end meeting"))), [], w')
      | (Ok result, w') =>
          if negb (er_success result) then
            (mkResponse 400 (BError (er_error result)), [], w')
          else
            (mkResponse 200 BSuccess, [RoomEmit (c :: r) (lit "meeting-ended") NNone], w')
      end
  | _, _ => (mkResponse 400 (BError (Some (lit "Missing required fields"))), [], w)
  end.

(** [GET /api/meetings/:meetingId] *)
Definition getMeetingInfo (meetingId : jsstring) (w : World) : Response * World :=
  if negb (isValidMeetingId meetingId) then
    (mkResponse 400 (BError (Some (lit "Invalid meeting ID"))), w)
  else
    match getParticipants meetingId w with
    | (Ok participants, w') =>
        (mkResponse 200 (BMeetingInfo (length participants) participants), w')
    | (Throw _, w') =>
        (mkResponse 500 (BError (Some (lit "Failed to get meeting"))), w')
    end.

End Handlers.

(** ** A session of the service, for the examples *)

Module Scenario.
Import JsString Model Store MeetingService Server Run.

(** The identifier that the first draw yields. *)
Definition room : jsstring := lit "123456".

Definition alice : jsstring := lit "alice".

Definition start : World := initial [] [23456] 1000.

Definition aliceCreates : Op := OpCreate 0 (mkMeetingCreateData alice (lit "Alice")).

(** Alice has created the meeting. *)
Definition created : World := run [aliceCreates] start.

Definition bobJoins : JoinMeetingData :=
  mkJoinMeetingData room (lit "bob") (lit "Bob") (lit "s1").

Definition carolJoins : JoinMeetingData :=
  mkJoinMeetingData room (lit "carol") (lit "Carol") (lit "s2").

(** Bob is the only participant. *)
Definition bobAlone : World := run [aliceCreates; OpJoin bobJoins] start.

(** Bob has left, the meeting is inactive and out of the cache. *)
Definition deserted : World :=
  run [aliceCreates; OpJoin bobJoins; OpLeave room (lit "s1")] start.

(** Bob and Carol are in, then Alice has ended the meeting. *)
Definition endedByHost : World :=
  run [aliceCreates; OpJoin bobJoins; OpJoin carolJoins; OpEnd room alice] start.

Definition hello : ChatMessage :=
  mkChatMessage (lit "2000-bob") (Some (lit "bob")) (Some (lit "Bob")) (lit "hello") 2000.

Definition guestJoins (i : N) : JoinMeetingData :=
  mkJoinMeetingData room (lit "guest" ++ ofN i) (lit "Guest") (lit "g" ++ ofN i).

(** Ten guests are in. *)
Definition full : World :=
  run (aliceCreates :: map (fun i => OpJoin (guestJoins i)) [0; 1; 2; 3; 4; 5; 6; 7; 8; 9])
      start.

Definition socket1 : Socket := mkSocket (lit "s1") [] None None None.

Definition bob : Participant := mkParticipant (lit "bob") (lit "Bob") (lit "s1") 1000.

Definition carol : Participant :=
  mkParticipant (lit "carol") (lit "Carol") (lit "s2") 1000.

Definition guest (i : N) : Participant :=
  mkParticipant (lit "guest" ++ ofN i) (lit "Guest") (lit "g" ++ ofN i) 1000.

Definition guests : list Participant := map guest [0; 1; 2; 3; 4; 5; 6; 7; 8; 9].

(** Guest 3 comes back on another connection. *)
Definition guestReturns : JoinMeetingData :=
  mkJoinMeetingData room (lit "guest3") (lit "Guest") (lit "g3b").

(** The meeting as [created] has it, with the given participants. *)
Definition meetingOf (ps : list Participant) : Meeting :=
  mkMeeting room alice 1000 ps [] None true 10.

End Scenario.

(** ** Further sessions, with store failures and with chat *)

Module Episodes.
Import JsString Validation Model Store MeetingService Server Run Handlers Scenario.

(** Alice has created the meeting; the store call that comes next fails. *)
Definition flaky : World :=
  run [aliceCreates] (initial [false; false; true] [23456] 1000).

(** Nothing has happened yet; the first store write fails. *)
Definition writeFails : World := initial [false; true] [23456] 1000.

(** Bob has left and the meeting is out of the cache; the identifier of
    the meeting is drawn once more and the store read that comes next
    fails. *)
Definition staleRead : World :=
  run [aliceCreates; OpJoin bobJoins; OpLeave room (lit "s1")]
      (initial [false; false; false; false; true] [23456; 23456] 1000).

(** Bob and Carol are in. *)
Definition bobAndCarol : World :=
  run [aliceCreates; OpJoin bobJoins; OpJoin carolJoins] start.

(** Bob is in and has said hello. *)
Definition chatting : World :=
  run [aliceCreates; OpJoin bobJoins; OpAddMessage room hello] start.

(** Alice has ended the meeting after that; the summary is awaited. *)
Definition summarising : World :=
  run [aliceCreates; OpJoin bobJoins; OpAddMessage room hello; OpEnd room alice] start.

Definition bye : ChatMessage :=
  mkChatMessage (lit "2001-bob") (Some (lit "bob")) (Some (lit "Bob")) (lit "bye") 2001.

(** The connection of Bob, once he has joined. *)
Definition bobSocket : Socket :=
  mkSocket (lit "s1") [room] (Some room) (Some (lit "bob")) (Some (lit "Bob")).

Definition sendHelloEvent : SendMessagePayload :=
  mkSendMessagePayload (VString room) (VString (lit "  hello ")).

(** The message that the server makes of [sendHelloEvent] at time
    1000. *)
Definition sentHello : ChatMessage :=
  mkChatMessage (lit "1000-bob") (Some (lit "bob")) (Some (lit "Bob")) (lit "hello") 1000.

Definition aliceData : MeetingCreateData := mkMeetingCreateData alice (lit "Alice").

(** Nothing has happened yet; the clock of the store is 7 ms ahead. *)
Definition skewed : World := withServerTimes [1007%Z] start.

(** A connection that has not joined anything. *)
Definition stranger : Socket := mkSocket (lit "s9") [] None None None.

(** The message that the server makes of [sendHelloEvent] on
    [stranger] at time 1000. *)
Definition strangerHello : ChatMessage :=
  mkChatMessage (lit "1000-undefined") None None (lit "hello") 1000.

Definition bobJoinsEvent : JoinMeetingPayload :=
  mkJoinMeetingPayload (VString room) (VString (lit "bob")) (VString (lit "Bob")).

(** A [join-meeting] that comes with the object [{}]. *)
Definition emptyJoinEvent : JoinMeetingPayload :=
  mkJoinMeetingPayload jsUndefined jsUndefined jsUndefined.

(** A [send-message] whose [meetingId] is the number that reads as the
    identifier of the room. *)
Definition sendToNumberEvent : SendMessagePayload :=
  mkSendMessagePayload (VOther room) (VString (lit "hello")).

End Episodes.

(** * Properties *)

Import JsString Validation Model Store MeetingService Server Run.

#[local] Arguments lit : simpl never.
#[local] Arguments ofZ : simpl never.
#[local] Arguments Nat.ltb : simpl never.
#[local] Arguments Nat.eqb : simpl never.
#[local] Arguments Z.leb : simpl never.

(** Two cache writes in a row: the first one is overwritten. *)
Ltac world_norm :=
  repeat change (withCache ?c (withCache _ ?w)) with (withCache c w).

(** Unfolds the plumbing of the service monad. *)
Ltac svc_unfold :=
  unfold tryCatch, bind, ret, throw, getWorld, modifyWorld, mutateMeeting,
    cacheSet, cacheDelete, now, spawnSummary.

(** Splits on the outcome of the store write met first. *)
Ltac split_update :=
  match goal with
  | |- context [dbUpdate ?a ?b ?c] => destruct (dbUpdate a b c) as [[[]|] ?]
  end.

(** ** Validation *)

Section ValidationFacts.
Lemma isDigit_range (c : N) : isDigit c = true <-> 48 <= c <= 57.
Proof. unfold isDigit. rewrite andb_true_iff, !N.leb_le. reflexivity. Qed.

Lemma matchDigits_spec (n : nat) (s rest : jsstring) :
  matchDigits n s = Some rest <->
  exists ds, s = ds ++ rest /\ length ds = n /\ Forall (fun c => isDigit c = true) ds.
Proof.
  revert s. induction n as [|n IH]; intros s; simpl.
  - split.
    + intros [= ->]. exists []. repeat split; constructor.
    + intros (ds & -> & Hl & _). destruct ds; [reflexivity|discriminate].
  - destruct s as [|c r].
    + split; [discriminate|]. intros (ds & Hs & Hl & _).
      destruct ds; simpl in *; discriminate.
    + destruct (isDigit c) eqn:Hc.
      * rewrite IH. split.
        -- intros (ds & -> & Hl & Hd). exists (c :: ds).
           repeat split; simpl; auto.
        -- intros (ds & Hs & Hl & Hd). destruct ds as [|d ds]; [discriminate|].
           simpl in Hs. injection Hs as -> ->. inversion Hd; subst.
           exists ds. repeat split; auto.
      * split; [discriminate|]. intros (ds & Hs & Hl & Hd).
        destruct ds as [|d ds]; [discriminate|]. simpl in Hs.
        injection Hs as -> ->. inversion Hd; subst. congruence.
Qed.

Lemma isValidMeetingId_iff (s : jsstring) :
  isValidMeetingId s = true <->
  length s = 6%nat /\ Forall (fun c => 48 <= c <= 57) s.
Proof.
  unfold isValidMeetingId. split.
  - destruct (matchDigits 6 s) as [rest|] eqn:Hm; [|discriminate].
    destruct rest; [|discriminate]. intros _.
    apply matchDigits_spec in Hm as (ds & -> & Hl & Hd).
    rewrite app_nil_r. split; [assumption|].
    eapply Forall_impl; [eassumption|]. intros c. apply isDigit_range.
  - intros [Hl Hd].
    assert (matchDigits 6 s = Some []) as ->; [|reflexivity].
    apply matchDigits_spec. exists s. rewrite app_nil_r.
    repeat split; [assumption|].
    eapply Forall_impl; [eassumption|]. intros c. apply isDigit_range.
Qed.

Lemma isValidMeetingId_false_iff (s : jsstring) :
  isValidMeetingId s = false <->
  ~ (length s = 6%nat /\ Forall (fun c => 48 <= c <= 57) s).
Proof.
  rewrite <- isValidMeetingId_iff. destruct (isValidMeetingId s); split; congruence.
Qed.

(** [trim] leaves nothing exactly of the strings made of white space. *)
Lemma trimStart_nil (s : jsstring) :
  trimStart s = [] <-> Forall (fun c => isWhiteSpace c = true) s.
Proof.
  induction s as [|c r IH]; simpl.
  - split; [constructor|reflexivity].
  - destruct (isWhiteSpace c) eqn:Hc.
    + rewrite IH. split; [constructor; assumption|].
      intros H. inversion H; assumption.
    + split; [discriminate|]. intros H. inversion H; congruence.
Qed.

Lemma trimStart_suffix (s : jsstring) :
  exists pre, s = pre ++ trimStart s /\ Forall (fun c => isWhiteSpace c = true) pre.
Proof.
  induction s as [|c r (pre & Hs & Hp)]; simpl.
  - exists []. split; [reflexivity|constructor].
  - destruct (isWhiteSpace c) eqn:Hc.
    + exists (c :: pre). split; [simpl; congruence|constructor; assumption].
    + exists []. split; [reflexivity|constructor].
Qed.

Lemma trim_nil (s : jsstring) :
  trim s = [] <-> Forall (fun c => isWhiteSpace c = true) s.
Proof.
  unfold trim, trimEnd.
  destruct (trimStart_suffix s) as (pre & Hs & Hpre).
  split.
  - intros H. apply (f_equal (@rev N)) in H. rewrite rev_involutive in H.
    simpl in H. apply trimStart_nil in H.
    rewrite Hs. apply Forall_app. split; [assumption|].
    apply Forall_rev in H. rewrite rev_involutive in H. exact H.
  - intros H. apply trimStart_nil in H. rewrite H. reflexivity.
Qed.

Lemma blank_or_not (s : jsstring) :
  Forall (fun c => isWhiteSpace c = true) s
  \/ exists c, In c s /\ isWhiteSpace c = false.
Proof.
  induction s as [|c r [IH|(d & Hin & Hd)]].
  - left. constructor.
  - destruct (isWhiteSpace c) eqn:Hc.
    + left. constructor; assumption.
    + right. exists c. split; [left; reflexivity|assumption].
  - right. exists d. split; [right; assumption|assumption].
Qed.

Lemma isValidMessage_iff (s : jsstring) :
  isValidMessage s = true <->
  (exists c, In c s /\ isWhiteSpace c = false) /\ (length s <= 1000)%nat.
Proof.
  unfold isValidMessage. rewrite andb_true_iff, Nat.ltb_lt, Nat.leb_le.
  assert ((0 < length (trim s))%nat <-> exists c, In c s /\ isWhiteSpace c = false) as ->;
    [|reflexivity].
  split.
  - intros Hlen.
    destruct (blank_or_not s) as [Hall|He]; [|exact He].
    apply trim_nil in Hall. rewrite Hall in Hlen. simpl in Hlen. lia.
  - intros (c & Hin & Hc).
    destruct (trim s) eqn:Ht; [|simpl; lia].
    apply trim_nil in Ht. rewrite List.Forall_forall in Ht.
    specialize (Ht c Hin). congruence.
Qed.

End ValidationFacts.

(** C7. [isValidMeetingId] accepts exactly the strings of six ASCII
    digits (code units 0x30 to 0x39): a string is accepted if and only if
    its length is 6 and each of its code units is a digit; hence every
    string of another length, every string with a code unit that is not a
    digit, and the empty string are rejected. *)
Theorem isValidMeetingId_exactly_six_digits (s : jsstring) :
  (isValidMeetingId s = true <->
     length s = 6%nat /\ Forall (fun c => 48 <= c <= 57) s)
  /\ (length s <> 6%nat -> isValidMeetingId s = false)
  /\ ((exists c, In c s /\ ~ (48 <= c <= 57)) -> isValidMeetingId s = false)
  /\ isValidMeetingId [] = false.
Proof.
  split; [apply isValidMeetingId_iff|]. split; [|split; [|reflexivity]].
  - intros Hl. apply isValidMeetingId_false_iff. intros [Hl' _]. contradiction.
  - intros (c & Hin & Hc). apply isValidMeetingId_false_iff. intros [_ Hd].
    rewrite List.Forall_forall in Hd. apply Hc, Hd, Hin.
Qed.

Lemma isValidMeetingId_exactly_six_digits_witness :
  isValidMeetingId (lit "123456") = true
  /\ isValidMeetingId (lit "12345") = false
  /\ isValidMeetingId (lit "12345a") = false.
Proof.
  split; [|split].
  - apply (proj1 (isValidMeetingId_exactly_six_digits (lit "123456"))).
    split; [reflexivity|]. repeat constructor; vm_compute; congruence.
  - apply (proj1 (proj2 (isValidMeetingId_exactly_six_digits (lit "12345")))).
    vm_compute. congruence.
  - apply (proj1 (proj2 (proj2 (isValidMeetingId_exactly_six_digits (lit "12345a"))))).
    exists 97. split; [vm_compute; tauto|]. intros [_ H]. vm_compute in H. apply H. reflexivity.
Defined.

(** C8. [isValidMessage] accepts every message of exactly 1000 code units
    that has a code unit other than white space, rejects every message of
    1001 or more code units, and rejects every message made of white
    space only. *)
Theorem isValidMessage_length_and_blank (s : jsstring) :
  (length s = 1000%nat ->
   (exists c, In c s /\ isWhiteSpace c = false) ->
   isValidMessage s = true)
  /\ ((1001 <= length s)%nat -> isValidMessage s = false)
  /\ (Forall (fun c => isWhiteSpace c = true) s ->
      isValidMessage s = false).
Proof.
  split; [|split].
  - intros Hl Hc. apply isValidMessage_iff. split; [assumption|lia].
  - intros Hl. destruct (isValidMessage s) eqn:E; [|reflexivity].
    apply isValidMessage_iff in E. lia.
  - intros Hw. destruct (isValidMessage s) eqn:E; [|reflexivity].
    apply isValidMessage_iff in E. destruct E as [(c & Hin & Hc) _].
    rewrite List.Forall_forall in Hw. specialize (Hw c Hin). congruence.
Qed.

Lemma isValidMessage_length_and_blank_witness :
  isValidMessage (repeat 97 1000) = true
  /\ isValidMessage (repeat 97 1001) = false
  /\ isValidMessage (lit "   ") = false.
Proof.
  split; [|split].
  - apply (proj1 (isValidMessage_length_and_blank (repeat 97 1000))).
    + apply repeat_length.
    + exists 97. split; [left; reflexivity|reflexivity].
  - apply (proj1 (proj2 (isValidMessage_length_and_blank (repeat 97 1001)))).
    rewrite repeat_length. lia.
  - apply (proj2 (proj2 (isValidMessage_length_and_blank (lit "   ")))).
    repeat constructor.
Defined.

(** ** The lookup [getMeetingById] *)

Section LookupFacts.

Lemma getMeetingById_unfold (k : jsstring) (w : World) :
  getMeetingById k w =
  if isValidMeetingId k then
    match activeMeetings w !! k with
    | Some m => (Ok (Some m), w)
    | None =>
        if hd false (faults w) then (Ok None, afterCall (DbGet k) w)
        else match firestore w !! k with
             | Some d =>
                 (Ok (Some d),
                  withCache (<[k := d]> (activeMeetings w)) (afterCall (DbGet k) w))
             | None => (Ok None, afterCall (DbGet k) w)
             end
    end
  else (Ok None, w).
Proof.
  unfold getMeetingById. destruct (isValidMeetingId k); [|reflexivity].
  cbn. destruct (activeMeetings w !! k); [reflexivity|].
  unfold tryCatch, bind, dbGet, bind, storeCall.
  destruct (hd false (faults w)); [reflexivity|]. cbn.
  destruct (firestore w !! k); reflexivity.
Qed.

Lemma dbUpdate_unfold (k : jsstring) (p : Patch) (w : World) :
  dbUpdate k p w =
  if hd false (faults w) then (Throw FirestoreError, afterCall (DbUpdate k p) w)
  else match firestore w !! k with
       | Some d =>
           (Ok tt, withFirestore (<[k := applyPatch p d]> (firestore w))
                                 (afterCall (DbUpdate k p) w))
       | None => (Throw FirestoreError, afterCall (DbUpdate k p) w)
       end.
Proof.
  unfold dbUpdate, bind, storeCall.
  destruct (hd false (faults w)); [reflexivity|]. cbn.
  destruct (firestore w !! k); reflexivity.
Qed.

(** The lookup does not throw. *)
Lemma getMeetingById_total (k : jsstring) (w : World) :
  exists found, fst (getMeetingById k w) = Ok found.
Proof.
  rewrite getMeetingById_unfold.
  destruct (isValidMeetingId k); [|eauto].
  destruct (activeMeetings w !! k); [eauto|].
  destruct (hd false (faults w)); [eauto|].
  destruct (firestore w !! k); eauto.
Qed.

(** A lookup never writes to the store. *)
Lemma getMeetingById_firestore (k : jsstring) (w : World) :
  firestore (snd (getMeetingById k w)) = firestore w.
Proof.
  rewrite getMeetingById_unfold.
  destruct (isValidMeetingId k); [|reflexivity].
  destruct (activeMeetings w !! k); [reflexivity|].
  destruct (hd false (faults w)); [reflexivity|].
  destruct (firestore w !! k); reflexivity.
Qed.

(** What a successful lookup has returned is what the cache now holds,
    and it came from the cache or, on a miss, from the store. *)
Lemma getMeetingById_found (k : jsstring) (w : World) (m : Meeting) :
  fst (getMeetingById k w) = Ok (Some m) ->
  isValidMeetingId k = true
  /\ activeMeetings (snd (getMeetingById k w)) !! k = Some m
  /\ (forall k', k' <> k ->
        activeMeetings (snd (getMeetingById k w)) !! k' = activeMeetings w !! k')
  /\ (activeMeetings w !! k = Some m
      \/ (activeMeetings w !! k = None /\ firestore w !! k = Some m)).
Proof.
  rewrite getMeetingById_unfold.
  destruct (isValidMeetingId k); [|discriminate].
  destruct (activeMeetings w !! k) as [c|] eqn:Hc.
  - intros [= ->]. repeat split; auto.
  - destruct (hd false (faults w)); [discriminate|].
    destruct (firestore w !! k) as [d|] eqn:Hd; [|discriminate].
    intros [= ->]. cbn. repeat split; auto.
    + apply lookup_insert_eq.
    + intros k' Hk. apply lookup_insert_ne. congruence.
Qed.

(** A lookup that finds nothing leaves cache and store as they were. *)
Lemma getMeetingById_absent (k : jsstring) (w : World) :
  fst (getMeetingById k w) = Ok None ->
  activeMeetings (snd (getMeetingById k w)) = activeMeetings w.
Proof.
  rewrite getMeetingById_unfold.
  destruct (isValidMeetingId k) eqn:Hv; [|reflexivity].
  destruct (activeMeetings w !! k) as [c|] eqn:Hc; [discriminate|].
  destruct (hd false (faults w)); [reflexivity|].
  destruct (firestore w !! k) as [d|] eqn:Hd; [discriminate|reflexivity].
Qed.

(** No meeting is found under a malformed identifier, nor under one
    that neither the cache nor the store knows. *)
Lemma getMeetingById_unknown (k : jsstring) (w : World) :
  isValidMeetingId k = false
  \/ (activeMeetings w !! k = None /\ firestore w !! k = None) ->
  fst (getMeetingById k w) = Ok None.
Proof.
  rewrite getMeetingById_unfold. intros [Hv|[Hc Hd]].
  - rewrite Hv. reflexivity.
  - rewrite Hc, Hd. destruct (isValidMeetingId k); [|reflexivity].
    destruct (hd false (faults w)); reflexivity.
Qed.

(** A lookup does not touch the clock. *)
Lemma getMeetingById_clock (k : jsstring) (w : World) :
  clock (snd (getMeetingById k w)) = clock w.
Proof.
  rewrite getMeetingById_unfold.
  destruct (isValidMeetingId k); [|reflexivity].
  destruct (activeMeetings w !! k); [reflexivity|].
  destruct (hd false (faults w)); [reflexivity|].
  destruct (firestore w !! k); reflexivity.
Qed.

End LookupFacts.

(** ** The service calls, step by step

    Each call is split at its lookup and at its store write; what lies
    between is an update of the world. *)

Section CallFacts.
Lemma endMeeting_unfold (k u : jsstring) (w : World) :
  endMeeting k u w =
  match getMeetingById k w with
  | (Ok None, w1) => (Ok (mkEndResult false (Some (lit "Meeting not found"))), w1)
  | (Ok (Some m), w1) =>
      if bool_decide (createdBy m = u) then
        let w2 := withCache (delete k (<[k := setIsActive false m]> (activeMeetings w1)))
                            w1 in
        let w3 := if (0 <? length (messages m))%nat
                  then withSummaryJobs (summaryJobs w1 ++ [(k, messages m)]) w2
                  else w2 in
        match dbUpdate k (mkPatch None None (Some false) None) w3 with
        | (Ok _, w4) => (Ok (mkEndResult true None), w4)
        | (Throw _, w4) =>
            (Ok (mkEndResult false (Some (lit "Failed to end meeting"))), w4)
        end
      else (Ok (mkEndResult false (Some (lit "Only the host can end the meeting"))), w1)
  | (Throw _, w1) => (Ok (mkEndResult false (Some (lit "Failed to end meeting"))), w1)
  end.
Proof.
  unfold endMeeting, tryCatch. unfold bind at 1.
  destruct (getMeetingById k w) as [[[m|]|e] w1]; try reflexivity.
  destruct (bool_decide (createdBy m = u)); [|reflexivity].
  cbn [negb]. svc_unfold. cbn.
  destruct (0 <? length (messages m))%nat; cbn; world_norm;
    split_update;
    reflexivity.
Qed.

Lemma joinMeeting_unfold (data : JoinMeetingData) (w : World) :
  joinMeeting data w =
  let k := jm_meetingId data in
  match getMeetingById k w with
  | (Ok None, w1) => (Ok (joinFailure (lit "Meeting not found")), w1)
  | (Ok (Some m), w1) =>
      let commit (m' : Meeting) :=
        match dbUpdate k (mkPatch (Some (participants m')) None None None)
                       (withCache (<[k := m']> (activeMeetings w1)) w1) with
        | (Ok _, w3) =>
            (Ok (mkJoinResult true (Some m') None),
             withCache (<[k := m']> (activeMeetings w3)) w3)
        | (Throw _, w3) => (Ok (joinFailure (lit "Failed to join meeting")), w3)
        end in
      if isActive m then
        match List.find (fun p => bool_decide (uid p = jm_uid data)) (participants m) with
        | Some _ =>
            commit (setParticipants
                      (reconnect (jm_uid data) (jm_socketId data) (participants m)) m)
        | None =>
            if (maxParticipants m <=? Z.of_nat (length (participants m)))%Z then
              (Ok (joinFailure (lit "Meeting is full (max " ++ ofZ (maxParticipants m)
                                ++ lit " participants)")), w1)
            else
              commit (setParticipants
                        (participants m ++
                         [mkParticipant (jm_uid data) (jm_name data) (jm_socketId data)
                                        (clock w1)]) m)
        end
      else (Ok (joinFailure (lit "Meeting is no longer active")), w1)
  | (Throw _, w1) => (Ok (joinFailure (lit "Failed to join meeting")), w1)
  end.
Proof.
  unfold joinMeeting, tryCatch. unfold bind at 1. cbv zeta.
  destruct (getMeetingById (jm_meetingId data) w) as [[[m|]|e] w1]; try reflexivity.
  destruct (isActive m); [|reflexivity]. cbn [negb].
  destruct (List.find _ (participants m)).
  - svc_unfold. cbn.
    split_update;
      reflexivity.
  - destruct (maxParticipants m <=? _)%Z; [reflexivity|].
    svc_unfold. cbn.
    split_update;
      reflexivity.
Qed.

Lemma leaveMeeting_unfold (k sid : jsstring) (w : World) :
  leaveMeeting k sid w =
  match getMeetingById k w with
  | (Ok (Some m), w1) =>
      let ps := List.filter (fun p => negb (bool_decide (socketId p = sid)))
                            (participants m) in
      let m1 := setParticipants ps m in
      if (length ps =? 0)%nat then
        let w2 := withCache (delete k (<[k := setIsActive false m1]>
                                         (<[k := m1]> (activeMeetings w1)))) w1 in
        let w3 := if (0 <? length (messages m))%nat
                  then withSummaryJobs (summaryJobs w1 ++ [(k, messages m)]) w2
                  else w2 in
        (Ok tt, snd (dbUpdate k (mkPatch (Some ps) None (Some false) None) w3))
      else
        (Ok tt, snd (dbUpdate k (mkPatch (Some ps) None (Some (isActive m)) None)
                              (withCache (<[k := m1]> (activeMeetings w1)) w1)))
  | (_, w1) => (Ok tt, w1)
  end.
Proof.
  unfold leaveMeeting, tryCatch. unfold bind at 1.
  destruct (getMeetingById k w) as [[[m|]|e] w1]; try reflexivity.
  cbv zeta. svc_unfold. cbn.
  destruct (length (List.filter _ (participants m)) =? 0)%nat; cbn.
  - destruct (0 <? length (messages m))%nat; cbn; world_norm;
      split_update;
      reflexivity.
  - split_update;
      reflexivity.
Qed.

Lemma addMessage_unfold (k : jsstring) (msg : ChatMessage) (w : World) :
  addMessage k msg w =
  match getMeetingById k w with
  | (Ok None, w1) => (Throw (JsError (lit "Meeting not found")), w1)
  | (Ok (Some m), w1) =>
      let m' := setMessages (messages m ++ [msg]) m in
      let w2 := withCache (<[k := m']> (activeMeetings w1)) w1 in
      if forallb definedMessage (messages m ++ [msg]) then
        match dbUpdate k (mkPatch None (Some (messages m')) None None) w2 with
        | (Ok _, w3) => (Ok tt, withCache (<[k := m']> (activeMeetings w3)) w3)
        | (Throw e, w3) => (Throw e, w3)
        end
      else (Throw FirestoreError, w2)
  | (Throw e, w1) => (Throw e, w1)
  end.
Proof.
  unfold addMessage, tryCatch. unfold bind at 1.
  destruct (getMeetingById k w) as [[[m|]|e] w1]; try reflexivity.
  cbv zeta. svc_unfold. unfold dbUpdateMessages. cbn.
  destruct (forallb definedMessage (messages m ++ [msg])); [|reflexivity].
  split_update;
    reflexivity.
Qed.

End CallFacts.

(** ** A store that does not fail *)

Section HealthyFacts.

Lemma getMeetingById_faults (k : jsstring) (w : World) :
  faults w = [] -> faults (snd (getMeetingById k w)) = [].
Proof.
  intros Hf. rewrite getMeetingById_unfold.
  destruct (isValidMeetingId k); [|assumption].
  destruct (activeMeetings w !! k); [assumption|].
  rewrite Hf. cbn. destruct (firestore w !! k); cbn; rewrite Hf; reflexivity.
Qed.

(** In a healthy world, what a lookup finds has its document. *)
Lemma getMeetingById_backed (k : jsstring) (w : World) (m : Meeting) :
  storeHealthy w ->
  fst (getMeetingById k w) = Ok (Some m) ->
  is_Some (firestore w !! k).
Proof.
  intros [_ Hb] Hm. apply getMeetingById_found in Hm as (_ & _ & _ & [Hc|[_ Hd]]).
  - apply Hb. rewrite Hc. eauto.
  - rewrite Hd. eauto.
Qed.

(** With no failure coming, the store accepts the update of an
    existing document. *)
Lemma dbUpdate_accepted (k : jsstring) (p : Patch) (w : World) (d : Meeting) :
  faults w = [] ->
  firestore w !! k = Some d ->
  dbUpdate k p w =
  (Ok tt, withFirestore (<[k := applyPatch p d]> (firestore w)) (afterCall (DbUpdate k p) w)).
Proof. intros Hf Hd. rewrite dbUpdate_unfold, Hf, Hd. reflexivity. Qed.

End HealthyFacts.

(** C9. For an identifier that is not exactly six digits,
    [getMeetingById] returns absent and leaves the world as it was: no
    call to the store is made (the log of store calls is unchanged) and
    the cache is not written. *)
Theorem getMeetingById_malformed_no_store_access (k : jsstring) (w : World) :
  ~ (length k = 6%nat /\ Forall (fun c => 48 <= c <= 57) k) ->
  getMeetingById k w = (Ok None, w)
  /\ dbLog (snd (getMeetingById k w)) = dbLog w
  /\ activeMeetings (snd (getMeetingById k w)) = activeMeetings w.
Proof.
  intros Hk. apply isValidMeetingId_false_iff in Hk.
  rewrite getMeetingById_unfold, Hk. auto.
Qed.

Lemma getMeetingById_malformed_no_store_access_witness :
  getMeetingById (lit "12ab") (initial [true] [] 0) = (Ok None, initial [true] [] 0)
  /\ dbLog (snd (getMeetingById (lit "12ab") (initial [true] [] 0))) = []
  /\ activeMeetings (snd (getMeetingById (lit "12ab") (initial [true] [] 0))) = ∅.
Proof.
  apply (getMeetingById_malformed_no_store_access (lit "12ab") (initial [true] [] 0)).
  intros [H _]. vm_compute in H. discriminate.
Defined.

(** C5. [endMeeting meetingId uid]: when the lookup finds no meeting the
    result is "Meeting not found" and neither cache nor store changes;
    when it finds a meeting created by someone else the result is "Only
    the host can end the meeting", the store is unchanged and the cache
    holds the meeting as it was found; otherwise, the store not failing,
    the call succeeds, the meeting is no longer cached, and its document
    has [isActive] false (the update is the last store call made). *)
Theorem endMeeting_outcomes (k u : jsstring) (w : World) :
  let w1 := snd (getMeetingById k w) in
  (fst (getMeetingById k w) = Ok None ->
   endMeeting k u w = (Ok (mkEndResult false (Some (lit "Meeting not found"))), w1)
   /\ activeMeetings w1 = activeMeetings w
   /\ firestore w1 = firestore w)
  /\ (forall m,
        fst (getMeetingById k w) = Ok (Some m) ->
        createdBy m <> u ->
        endMeeting k u w =
          (Ok (mkEndResult false (Some (lit "Only the host can end the meeting"))), w1)
        /\ activeMeetings w1 !! k = Some m
        /\ firestore w1 = firestore w)
  /\ (forall m,
        fst (getMeetingById k w) = Ok (Some m) ->
        createdBy m = u ->
        storeHealthy w ->
        exists d,
          firestore w !! k = Some d
          /\ fst (endMeeting k u w) = Ok (mkEndResult true None)
          /\ activeMeetings (snd (endMeeting k u w)) !! k = None
          /\ firestore (snd (endMeeting k u w)) = <[k := setIsActive false d]> (firestore w)
          /\ hd_error (dbLog (snd (endMeeting k u w)))
             = Some (DbUpdate k (mkPatch None None (Some false) None))).
Proof.
  cbv zeta. split; [|split].
  - intros Hf. rewrite endMeeting_unfold.
    pose proof (getMeetingById_absent k w Hf) as Hc.
    pose proof (getMeetingById_firestore k w) as Hd.
    destruct (getMeetingById k w) as [found w1]. cbn in *. subst found. auto.
  - intros m Hf Hne. rewrite endMeeting_unfold.
    pose proof (getMeetingById_found k w m Hf) as (_ & Hc & _).
    pose proof (getMeetingById_firestore k w) as Hd.
    destruct (getMeetingById k w) as [found w1]. cbn in *. subst found.
    rewrite bool_decide_false by assumption. auto.
  - intros m Hf Hu Hh.
    destruct (getMeetingById_backed k w m Hh Hf) as [d Hd]. exists d.
    split; [assumption|].
    rewrite endMeeting_unfold.
    pose proof (getMeetingById_faults k w (proj1 Hh)) as Hfl.
    pose proof (getMeetingById_firestore k w) as Hs.
    destruct (getMeetingById k w) as [found w1]. cbn in Hf, Hfl, Hs. subst found.
    rewrite bool_decide_true by assumption. cbv zeta.
    rewrite (dbUpdate_accepted _ _ _ d).
    + destruct (0 <? length (messages m))%nat; cbn; rewrite Hs;
        (split; [reflexivity|]); (split; [|auto]);
        rewrite lookup_delete_eq; reflexivity.
    + destruct (0 <? length (messages m))%nat; assumption.
    + destruct (0 <? length (messages m))%nat; cbn; congruence.
Qed.

Lemma getMeetingById_none_iff (k : jsstring) (w : World) :
  fst (getMeetingById k w) = Ok None <->
  isValidMeetingId k = false
  \/ (activeMeetings w !! k = None
      /\ (hd false (faults w) = true \/ firestore w !! k = None)).
Proof.
  rewrite getMeetingById_unfold.
  destruct (isValidMeetingId k); [|intuition].
  destruct (activeMeetings w !! k) as [c|].
  { cbn. split; [discriminate|]. intros [|[? _]]; discriminate. }
  destruct (hd false (faults w)); [intuition|].
  destruct (firestore w !! k); cbn; [|intuition].
  split; [discriminate|]. intros [|[_ [|]]]; discriminate.
Qed.

(** [addMessage] on a meeting that the lookup finds. The message is
    pushed onto the cached meeting in any case. The write is accepted
    when no message of the list holds a field that is [undefined], the
    store call does not fail and the document exists; otherwise the
    error of the store is thrown and no document changes. *)
Lemma addMessage_found (k : jsstring) (msg : ChatMessage) (w : World) (m : Meeting) :
  fst (getMeetingById k w) = Ok (Some m) ->
  let w1 := snd (getMeetingById k w) in
  activeMeetings (snd (addMessage k msg w)) !! k
  = Some (setMessages (messages m ++ [msg]) m)
  /\ (forall d,
        forallb definedMessage (messages m ++ [msg]) = true ->
        hd false (faults w1) = false ->
        firestore w !! k = Some d ->
        fst (addMessage k msg w) = Ok tt
        /\ firestore (snd (addMessage k msg w))
           = <[k := setMessages (messages m ++ [msg]) d]> (firestore w))
  /\ (forallb definedMessage (messages m ++ [msg]) = false
      \/ hd false (faults w1) = true
      \/ firestore w !! k = None ->
      fst (addMessage k msg w) = Throw FirestoreError
      /\ firestore (snd (addMessage k msg w)) = firestore w).
Proof.
  intros Hf. cbv zeta. rewrite addMessage_unfold.
  pose proof (getMeetingById_firestore k w) as Hs.
  destruct (getMeetingById k w) as [found w1]. cbn in Hf, Hs. subst found.
  cbv zeta. cbn [fst snd].
  destruct (forallb definedMessage (messages m ++ [msg])).
  - rewrite dbUpdate_unfold. cbn [faults withCache firestore].
    destruct (hd false (faults w1)).
    + cbn. split; [apply lookup_insert_eq|]. split; [discriminate|]. auto.
    + rewrite Hs. destruct (firestore w !! k) as [d|]; cbn.
      * split; [apply lookup_insert_eq|]. split.
        -- intros d' _ _ [= <-]. auto.
        -- intros [|[|]]; discriminate.
      * split; [apply lookup_insert_eq|]. split; [discriminate|]. auto.
  - cbn. split; [apply lookup_insert_eq|]. split; [discriminate|]. auto.
Qed.

(** C2, as the code has it. [addMessage] fails with "Meeting not found"
    exactly when the lookup finds nothing, that is, when the identifier
    is malformed, or the cache does not hold the meeting and the store
    has no document for it or the read fails; nothing has changed then.
    On a cache miss under a well-formed identifier the store is
    queried: a meeting that is only in the store (for instance
    deactivated and evicted from the cache) is found and is cached
    again, with the message pushed. Whenever a meeting is found, the
    cache holds it with the message appended; when the write is
    accepted (no message holds an undefined field, the store call does
    not fail, the document exists) the call succeeds and the document
    gets the full message list; otherwise the error of the store is
    thrown, never "Meeting not found", and no document changes. *)
Theorem addMessage_outcomes (k : jsstring) (msg : ChatMessage) (w : World) :
  let w1 := snd (getMeetingById k w) in
  (fst (getMeetingById k w) = Ok None <->
     isValidMeetingId k = false
     \/ (activeMeetings w !! k = None
         /\ (hd false (faults w) = true \/ firestore w !! k = None)))
  /\ (fst (addMessage k msg w) = Throw (JsError (lit "Meeting not found")) <->
      fst (getMeetingById k w) = Ok None)
  /\ (fst (getMeetingById k w) = Ok None ->
      snd (addMessage k msg w) = w1
      /\ activeMeetings w1 = activeMeetings w
      /\ firestore w1 = firestore w)
  /\ (isValidMeetingId k = true ->
      activeMeetings w !! k = None ->
      dbLog w1 = DbGet k :: dbLog w
      /\ forall d, firestore w !! k = Some d -> hd false (faults w) = false ->
                   fst (getMeetingById k w) = Ok (Some d)
                   /\ activeMeetings w1 !! k = Some d
                   /\ activeMeetings (snd (addMessage k msg w)) !! k
                      = Some (setMessages (messages d ++ [msg]) d))
  /\ (forall m,
        fst (getMeetingById k w) = Ok (Some m) ->
        activeMeetings (snd (addMessage k msg w)) !! k
        = Some (setMessages (messages m ++ [msg]) m)
        /\ (forall d,
              forallb definedMessage (messages m ++ [msg]) = true ->
              hd false (faults w1) = false ->
              firestore w !! k = Some d ->
              fst (addMessage k msg w) = Ok tt
              /\ firestore (snd (addMessage k msg w))
                 = <[k := setMessages (messages m ++ [msg]) d]> (firestore w))
        /\ (forallb definedMessage (messages m ++ [msg]) = false
            \/ hd false (faults w1) = true
            \/ firestore w !! k = None ->
            fst (addMessage k msg w) = Throw FirestoreError
            /\ firestore (snd (addMessage k msg w)) = firestore w)).
Proof.
  cbv zeta. split; [apply getMeetingById_none_iff|]. split; [|split; [|split]].
  - split.
    + intros Hr. destruct (getMeetingById_total k w) as [[m|] Hf]; [|exact Hf].
      exfalso. destruct (addMessage_found k msg w m Hf) as (_ & Hok & Hko).
      destruct (forallb definedMessage (messages m ++ [msg])) eqn:Hdef;
        [|rewrite (proj1 (Hko (or_introl eq_refl))) in Hr; discriminate].
      destruct (hd false (faults (snd (getMeetingById k w)))) eqn:Hfl;
        [rewrite (proj1 (Hko (or_intror (or_introl eq_refl)))) in Hr; discriminate|].
      destruct (firestore w !! k) as [d|] eqn:Hd;
        [|rewrite (proj1 (Hko (or_intror (or_intror eq_refl)))) in Hr; discriminate].
      rewrite (proj1 (Hok d eq_refl eq_refl eq_refl)) in Hr. discriminate.
    + intros Hf. rewrite addMessage_unfold.
      destruct (getMeetingById k w) as [found w1]. cbn in Hf. subst found. reflexivity.
  - intros Hf. rewrite addMessage_unfold.
    pose proof (getMeetingById_absent k w Hf) as Hc.
    pose proof (getMeetingById_firestore k w) as Hd.
    destruct (getMeetingById k w) as [found w1]. cbn in *. subst found. auto.
  - intros Hv Hc. split.
    + rewrite getMeetingById_unfold, Hv, Hc.
      destruct (hd false (faults w)); [reflexivity|].
      destruct (firestore w !! k); reflexivity.
    + intros d Hd Hfl.
      assert (fst (getMeetingById k w) = Ok (Some d)) as Hf.
      { rewrite getMeetingById_unfold, Hv, Hc, Hd, Hfl. reflexivity. }
      split; [exact Hf|]. split.
      * apply (getMeetingById_found k w d Hf).
      * apply (addMessage_found k msg w d Hf).
  - intros m Hf. exact (addMessage_found k msg w m Hf).
Qed.

(** ** Joining *)

Section JoinFacts.

Lemma find_uid_none (u : jsstring) (ps : list Participant) :
  List.find (fun p => bool_decide (uid p = u)) ps = None <->
  forall p, In p ps -> uid p <> u.
Proof.
  induction ps as [|q ps IH]; cbn.
  - split; [intros _ p []|reflexivity].
  - destruct (bool_decide_reflect (uid q = u)) as [Hq|Hq].
    + split; [discriminate|]. intros H. exfalso. apply (H q); auto.
    + rewrite IH. split.
      * intros H p [<-|Hp]; auto.
      * intros H p Hp. apply H. auto.
Qed.

Lemma reconnect_length (u s : jsstring) (ps : list Participant) :
  length (reconnect u s ps) = length ps.
Proof.
  induction ps as [|q ps IH]; cbn; [reflexivity|].
  destruct (bool_decide (uid q = u)); cbn; congruence.
Qed.

(** Reconnecting rewrites the session of the first participant with
    the given user identifier, and nothing else. *)
Lemma reconnect_first (u s : jsstring) (ps : list Participant) :
  (exists p, In p ps /\ uid p = u) ->
  exists pre p post,
    ps = pre ++ p :: post
    /\ uid p = u
    /\ (forall q, In q pre -> uid q <> u)
    /\ reconnect u s ps = pre ++ setSocketId s p :: post.
Proof.
  induction ps as [|q ps IH]; intros (p & Hin & Hp); [destruct Hin|].
  cbn. destruct (bool_decide_reflect (uid q = u)) as [Hq|Hq].
  - exists [], q, ps. repeat split; auto.
  - destruct IH as (pre & p' & post & -> & Hp' & Hpre & Hr).
    { destruct Hin as [<-|Hin]; [contradiction|eauto]. }
    exists (q :: pre), p', post. cbn. rewrite Hr. repeat split; auto.
    intros x [<-|Hx]; auto.
Qed.

Lemma reconnect_absent (u s : jsstring) (ps : list Participant) :
  (forall p, In p ps -> uid p <> u) -> reconnect u s ps = ps.
Proof.
  induction ps as [|q ps IH]; intros H; cbn; [reflexivity|].
  rewrite bool_decide_false by (apply H; left; reflexivity).
  rewrite IH; [reflexivity|]. intros p Hp. apply H. right. assumption.
Qed.

End JoinFacts.

(** C3. A meeting that the lookup finds active: with 10 participants, a
    maximum of 10, and a user identifier that none of them has, the join
    fails with "Meeting is full (max 10 participants)" and the meeting is
    as it was found (the store is not written); with a user identifier
    that a participant has, the join succeeds (the store not failing):
    the first such participant gets the session identifier of the
    request and keeps its user identifier, name and time of joining,
    every other participant and the order are as they were, so the
    count is the same, and every other field of the meeting is as it
    was, in the meeting returned, in the cache and in the document. *)
Theorem joinMeeting_full_or_reconnect (data : JoinMeetingData) (w : World) (m : Meeting) :
  fst (getMeetingById (jm_meetingId data) w) = Ok (Some m) ->
  isActive m = true ->
  let k := jm_meetingId data in
  let w1 := snd (getMeetingById k w) in
  (length (participants m) = 10%nat ->
   maxParticipants m = MAX_PARTICIPANTS ->
   (forall p, In p (participants m) -> uid p <> jm_uid data) ->
   joinMeeting data w =
     (Ok (joinFailure (lit "Meeting is full (max 10 participants)")), w1)
   /\ activeMeetings w1 !! k = Some m
   /\ firestore w1 = firestore w)
  /\ ((exists p, In p (participants m) /\ uid p = jm_uid data) ->
      storeHealthy w ->
      exists pre p post d,
        participants m = pre ++ p :: post
        /\ uid p = jm_uid data
        /\ (forall q, In q pre -> uid q <> jm_uid data)
        /\ firestore w !! k = Some d
        /\ let p' := mkParticipant (uid p) (name p) (jm_socketId data) (joinedAt p) in
           let ps' := pre ++ p' :: post in
           let m' := mkMeeting (meetingId m) (createdBy m) (createdAt m) ps' (messages m)
                               (summary m) (isActive m) (maxParticipants m) in
           let d' := mkMeeting (meetingId d) (createdBy d) (createdAt d) ps' (messages d)
                               (summary d) (isActive d) (maxParticipants d) in
           fst (joinMeeting data w) = Ok (mkJoinResult true (Some m') None)
           /\ activeMeetings (snd (joinMeeting data w)) !! k = Some m'
           /\ firestore (snd (joinMeeting data w)) = <[k := d']> (firestore w)
           /\ length ps' = length (participants m)).
Proof.
  intros Hf Ha. cbv zeta.
  pose proof (getMeetingById_found _ w m Hf) as (_ & Hc & _).
  pose proof (getMeetingById_firestore (jm_meetingId data) w) as Hs.
  split.
  - intros Hlen Hmax Hnew. rewrite joinMeeting_unfold. cbv zeta.
    destruct (getMeetingById (jm_meetingId data) w) as [found w1].
    cbn in Hf, Hc, Hs. subst found. rewrite Ha.
    rewrite (proj2 (find_uid_none _ _) Hnew).
    rewrite Hmax, Hlen. cbn. auto.
  - intros Hex Hh.
    destruct (reconnect_first (jm_uid data) (jm_socketId data) _ Hex)
      as (pre & p & post & Hps & Hp & Hpre & Hr).
    destruct (getMeetingById_backed _ w m Hh Hf) as [d Hd].
    exists pre, p, post, d. repeat (split; [assumption|]).
    cbv zeta. rewrite joinMeeting_unfold. cbv zeta.
    pose proof (getMeetingById_faults (jm_meetingId data) w (proj1 Hh)) as Hfl.
    destruct (getMeetingById (jm_meetingId data) w) as [found w1].
    cbn in Hf, Hc, Hs, Hfl. subst found. rewrite Ha.
    destruct (List.find _ (participants m)) eqn:Hfind.
    2:{ exfalso. destruct Hex as (q & Hq & Hu).
        exact (proj1 (find_uid_none _ _) Hfind q Hq Hu). }
    rewrite Hr.
    rewrite (dbUpdate_accepted _ _ _ d); [|assumption|cbn; congruence].
    cbn. rewrite Hs, lookup_insert_eq.
    unfold setParticipants, setSocketId. rewrite ?Ha. repeat split.
    rewrite Hps, !length_app. reflexivity.
Qed.

(** ** How the copies of a meeting change *)

Section VersionFacts.

(** A lookup may copy the document into the cache; it makes no new
    copy. *)
Lemma getMeetingById_version (k0 k : jsstring) (w : World) (m : Meeting) :
  version (snd (getMeetingById k0 w)) k m <-> version w k m.
Proof.
  unfold version. rewrite getMeetingById_unfold.
  destruct (isValidMeetingId k0); [|reflexivity].
  destruct (activeMeetings w !! k0) as [c|] eqn:Hc; [reflexivity|].
  destruct (hd false (faults w)); [reflexivity|].
  destruct (firestore w !! k0) as [d|] eqn:Hd; [|reflexivity].
  cbn. destruct (decide (k = k0)) as [->|Hk].
  - rewrite lookup_insert_eq, Hc, Hd. intuition congruence.
  - rewrite lookup_insert_ne by congruence. reflexivity.
Qed.

Lemma getMeetingById_found_version (k : jsstring) (w : World) (m : Meeting) :
  fst (getMeetingById k w) = Ok (Some m) -> version w k m.
Proof.
  intros H. apply getMeetingById_found in H as (_ & _ & _ & [H|[_ H]]);
    [left|right]; assumption.
Qed.

Lemma version_cache_insert (k0 k : jsstring) (x m : Meeting) (w : World) :
  version (withCache (<[k0 := x]> (activeMeetings w)) w) k m ->
  version w k m \/ (k = k0 /\ m = x).
Proof.
  unfold version. cbn. destruct (decide (k = k0)) as [->|Hk].
  - rewrite lookup_insert_eq. intros [[= <-]|H]; auto.
  - rewrite lookup_insert_ne by congruence. auto.
Qed.

Lemma version_cache_delete (k0 k : jsstring) (c : gmap jsstring Meeting)
      (m : Meeting) (w : World) :
  (forall k', k' <> k0 -> c !! k' = activeMeetings w !! k') ->
  version (withCache (delete k0 c) w) k m -> version w k m.
Proof.
  unfold version. cbn. intros Hc. destruct (decide (k = k0)) as [->|Hk].
  - rewrite lookup_delete_eq. intros [|H]; [discriminate|auto].
  - rewrite lookup_delete_ne, Hc by congruence. auto.
Qed.

Lemma version_summaryJobs (j : list (jsstring * list ChatMessage)) (k : jsstring)
      (m : Meeting) (w : World) :
  version (withSummaryJobs j w) k m <-> version w k m.
Proof. reflexivity. Qed.

(** An update patches the document it names, or fails and changes
    no copy. *)
Lemma version_dbUpdate (k0 k : jsstring) (p : Patch) (m : Meeting) (w : World) :
  version (snd (dbUpdate k0 p w)) k m ->
  version w k m
  \/ (k = k0 /\ exists d, firestore w !! k0 = Some d /\ m = applyPatch p d).
Proof.
  unfold version. rewrite dbUpdate_unfold.
  destruct (hd false (faults w)); [cbn; auto|].
  destruct (firestore w !! k0) as [d|] eqn:Hd; [|cbn; auto].
  cbn. destruct (decide (k = k0)) as [->|Hk].
  - rewrite lookup_insert_eq. intros [H|[= <-]]; eauto.
  - rewrite lookup_insert_ne by congruence. auto.
Qed.

Lemma dbUpdate_cache (k0 : jsstring) (p : Patch) (w : World) :
  activeMeetings (snd (dbUpdate k0 p w)) = activeMeetings w.
Proof.
  rewrite dbUpdate_unfold. destruct (hd false (faults w)); [reflexivity|].
  destruct (firestore w !! k0); reflexivity.
Qed.

Lemma dbUpdate_faults (k0 : jsstring) (p : Patch) (w : World) :
  faults (snd (dbUpdate k0 p w)) = tail (faults w).
Proof.
  rewrite dbUpdate_unfold. destruct (hd false (faults w)); [reflexivity|].
  destruct (firestore w !! k0); reflexivity.
Qed.

(** Documents are never deleted. *)
Lemma dbUpdate_keeps_documents (k0 k : jsstring) (p : Patch) (w : World) :
  is_Some (firestore w !! k) -> is_Some (firestore (snd (dbUpdate k0 p w)) !! k).
Proof.
  rewrite dbUpdate_unfold. destruct (hd false (faults w)); [auto|].
  destruct (firestore w !! k0) as [d|] eqn:Hd; [|auto]. cbn.
  destruct (decide (k = k0)) as [->|Hk].
  - rewrite lookup_insert_eq. eauto.
  - rewrite lookup_insert_ne by congruence. auto.
Qed.

End VersionFacts.

(** The tail of [joinMeeting] and [addMessage]: the object is changed,
    the change is written to the store, the cache is set. *)
Lemma commit_world {A : Type} (k : jsstring) (p : Patch) (m' : Meeting) (w1 : World)
      (ok : A) (ko : Exn -> A) :
  let r :=
    match dbUpdate k p (withCache (<[k := m']> (activeMeetings w1)) w1) with
    | (Ok _, w3) => (ok, withCache (<[k := m']> (activeMeetings w3)) w3)
    | (Throw e, w3) => (ko e, w3)
    end in
  activeMeetings (snd r) = <[k := m']> (activeMeetings w1)
  /\ (firestore (snd r) = firestore w1
      \/ exists d, firestore w1 !! k = Some d
                   /\ firestore (snd r) = <[k := applyPatch p d]> (firestore w1))
  /\ faults (snd r) = tail (faults w1).
Proof.
  cbv zeta. rewrite dbUpdate_unfold. cbn.
  destruct (hd false (faults w1)); cbn; [auto|].
  destruct (firestore w1 !! k) as [d|] eqn:Hd; cbn; [|auto].
  rewrite insert_insert_eq. split; [reflexivity|]. split; [|reflexivity].
  right. exists d. auto.
Qed.

Lemma setParticipants_same (m : Meeting) : setParticipants (participants m) m = m.
Proof. destruct m; reflexivity. Qed.

(** C10. Whatever a join returns, it changes the meeting in its
    participants only. When the lookup finds no meeting, cache and
    store are as they were. When it finds the meeting [m] (the cached
    copy, or the document when the cache has none), the cache holds
    afterwards [m] with every field but [participants] as it was, and
    the document is as it was or is the document before with its
    participants replaced by those of the cached meeting and every
    other field as it was. The participants are those of [m] (the
    meeting is inactive, or the user is new and the meeting is full;
    the store is not written then), or those of [m] followed by one
    participant made of the request and the current time (the user is
    new and there is room), or those of [m] with the session of the
    first participant who has the user identifier replaced by that of
    the request and nothing else changed. No other meeting is
    touched. *)
Theorem joinMeeting_changes_participants_only (data : JoinMeetingData) (w : World) :
  let k := jm_meetingId data in
  let w' := snd (joinMeeting data w) in
  let withParticipants (ps : list Participant) (x : Meeting) :=
    mkMeeting (meetingId x) (createdBy x) (createdAt x) ps (messages x) (summary x)
              (isActive x) (maxParticipants x) in
  (fst (getMeetingById k w) = Ok None ->
   activeMeetings w' = activeMeetings w /\ firestore w' = firestore w)
  /\ (forall m,
        fst (getMeetingById k w) = Ok (Some m) ->
        (activeMeetings w !! k = Some m
         \/ (activeMeetings w !! k = None /\ firestore w !! k = Some m))
        /\ exists ps',
             activeMeetings w' !! k = Some (withParticipants ps' m)
             /\ (firestore w' = firestore w
                 \/ exists d,
                      firestore w !! k = Some d
                      /\ firestore w' = <[k := withParticipants ps' d]> (firestore w))
             /\ ((ps' = participants m
                  /\ firestore w' = firestore w
                  /\ (isActive m = false
                      \/ ((forall q, In q (participants m) -> uid q <> jm_uid data)
                          /\ (maxParticipants m <= Z.of_nat (length (participants m)))%Z)))
                 \/ (isActive m = true
                     /\ (forall q, In q (participants m) -> uid q <> jm_uid data)
                     /\ (Z.of_nat (length (participants m)) < maxParticipants m)%Z
                     /\ ps' = participants m ++
                              [mkParticipant (jm_uid data) (jm_name data)
                                             (jm_socketId data) (clock w)])
                 \/ (isActive m = true
                     /\ exists pre p post,
                          participants m = pre ++ p :: post
                          /\ uid p = jm_uid data
                          /\ (forall q, In q pre -> uid q <> jm_uid data)
                          /\ ps' = pre ++ mkParticipant (uid p) (name p) (jm_socketId data)
                                                        (joinedAt p) :: post)))
  /\ (forall k', k' <> k ->
        activeMeetings w' !! k' = activeMeetings w !! k'
        /\ firestore w' !! k' = firestore w !! k').
Proof.
  intros k w' wp.
  assert (wp = setParticipants) as Hwp by reflexivity. clearbody wp. subst wp k w'.
  pose proof (getMeetingById_total (jm_meetingId data) w) as [found Hfound].
  pose proof (getMeetingById_firestore (jm_meetingId data) w) as Hs.
  pose proof (getMeetingById_clock (jm_meetingId data) w) as Ht.
  destruct found as [m|].
  2:{ (* nothing is found: nothing changes *)
      pose proof (getMeetingById_absent _ w Hfound) as Hc.
      rewrite joinMeeting_unfold. cbv zeta.
      destruct (getMeetingById (jm_meetingId data) w) as [o w1].
      cbn in Hfound, Hs, Hc. subst o. cbn [snd].
      split; [auto|]. split; [discriminate|]. intros k' _. rewrite Hc, Hs. auto. }
  (* a meeting is found: the cache holds it now *)
  pose proof (getMeetingById_found _ w m Hfound) as (_ & Hc & Hother & Hwhere).
  split; [rewrite Hfound; discriminate|].
  enough (exists ps',
             activeMeetings (snd (joinMeeting data w)) !! jm_meetingId data
             = Some (setParticipants ps' m)
             /\ (firestore (snd (joinMeeting data w)) = firestore w
                 \/ exists d,
                      firestore w !! jm_meetingId data = Some d
                      /\ firestore (snd (joinMeeting data w))
                         = <[jm_meetingId data := setParticipants ps' d]> (firestore w))
             /\ ((ps' = participants m
                  /\ firestore (snd (joinMeeting data w)) = firestore w
                  /\ (isActive m = false
                      \/ ((forall q, In q (participants m) -> uid q <> jm_uid data)
                          /\ (maxParticipants m <= Z.of_nat (length (participants m)))%Z)))
                 \/ (isActive m = true
                     /\ (forall q, In q (participants m) -> uid q <> jm_uid data)
                     /\ (Z.of_nat (length (participants m)) < maxParticipants m)%Z
                     /\ ps' = participants m ++
                              [mkParticipant (jm_uid data) (jm_name data)
                                             (jm_socketId data) (clock w)])
                 \/ (isActive m = true
                     /\ exists pre p post,
                          participants m = pre ++ p :: post
                          /\ uid p = jm_uid data
                          /\ (forall q, In q pre -> uid q <> jm_uid data)
                          /\ ps' = pre ++ mkParticipant (uid p) (name p) (jm_socketId data)
                                                        (joinedAt p) :: post))
             /\ (forall k', k' <> jm_meetingId data ->
                   activeMeetings (snd (joinMeeting data w)) !! k' = activeMeetings w !! k'
                   /\ firestore (snd (joinMeeting data w)) !! k' = firestore w !! k'))
    as (ps' & Hcache & Hdoc & Hcases & Hrest).
  { split; [|exact Hrest]. intros m0 Hm0. rewrite Hfound in Hm0. injection Hm0 as <-.
    split; [exact Hwhere|]. exists ps'. auto. }
  rewrite joinMeeting_unfold. cbv zeta.
  destruct (getMeetingById (jm_meetingId data) w) as [o w1].
  cbn [fst snd] in Hfound, Hs, Hc, Hother, Ht. subst o.
  (* the branches that return before the write *)
  assert (forall r : Outcome JoinResult,
            isActive m = false
            \/ ((forall q, In q (participants m) -> uid q <> jm_uid data)
                /\ (maxParticipants m <= Z.of_nat (length (participants m)))%Z) ->
            activeMeetings (snd (r, w1)) !! jm_meetingId data
            = Some (setParticipants (participants m) m)
            /\ (firestore (snd (r, w1)) = firestore w
                \/ exists d,
                     firestore w !! jm_meetingId data = Some d
                     /\ firestore (snd (r, w1))
                        = <[jm_meetingId data := setParticipants (participants m) d]>
                            (firestore w))
            /\ ((participants m = participants m
                 /\ firestore (snd (r, w1)) = firestore w
                 /\ (isActive m = false
                     \/ ((forall q, In q (participants m) -> uid q <> jm_uid data)
                         /\ (maxParticipants m <= Z.of_nat (length (participants m)))%Z)))
                \/ (isActive m = true
                    /\ (forall q, In q (participants m) -> uid q <> jm_uid data)
                    /\ (Z.of_nat (length (participants m)) < maxParticipants m)%Z
                    /\ participants m
                       = participants m ++
                         [mkParticipant (jm_uid data) (jm_name data)
                                        (jm_socketId data) (clock w)])
                \/ (isActive m = true
                    /\ exists pre p post,
                         participants m = pre ++ p :: post
                         /\ uid p = jm_uid data
                         /\ (forall q, In q pre -> uid q <> jm_uid data)
                         /\ participants m
                            = pre ++ mkParticipant (uid p) (name p) (jm_socketId data)
                                                   (joinedAt p) :: post))
            /\ (forall k', k' <> jm_meetingId data ->
                  activeMeetings (snd (r, w1)) !! k' = activeMeetings w !! k'
                  /\ firestore (snd (r, w1)) !! k' = firestore w !! k')) as Hkeep.
  { intros r Hwhy. cbn [snd]. rewrite setParticipants_same, Hs.
    split; [exact Hc|]. split; [auto|]. split; [auto|].
    intros k' Hk. split; [apply Hother, Hk|reflexivity]. }
  (* the branches that write *)
  assert (forall ps' (ok : Outcome JoinResult) (ko : Exn -> Outcome JoinResult),
            let r :=
              match dbUpdate (jm_meetingId data)
                             (mkPatch (Some (participants (setParticipants ps' m)))
                                      None None None)
                             (withCache (<[jm_meetingId data := setParticipants ps' m]>
                                           (activeMeetings w1)) w1) with
              | (Ok _, w3) =>
                  (ok, withCache (<[jm_meetingId data := setParticipants ps' m]>
                                    (activeMeetings w3)) w3)
              | (Throw e, w3) => (ko e, w3)
              end in
            activeMeetings (snd r) !! jm_meetingId data = Some (setParticipants ps' m)
            /\ (firestore (snd r) = firestore w
                \/ exists d,
                     firestore w !! jm_meetingId data = Some d
                     /\ firestore (snd r)
                        = <[jm_meetingId data := setParticipants ps' d]> (firestore w))
            /\ (forall k', k' <> jm_meetingId data ->
                  activeMeetings (snd r) !! k' = activeMeetings w !! k'
                  /\ firestore (snd r) !! k' = firestore w !! k')) as Hcommit.
  { intros ps' ok ko.
    pose proof (commit_world (jm_meetingId data)
                  (mkPatch (Some (participants (setParticipants ps' m))) None None None)
                  (setParticipants ps' m) w1 ok ko) as (Hc' & Hd' & _).
    cbv zeta in Hc', Hd' |- *. rewrite Hc'. split; [apply lookup_insert_eq|].
    rewrite Hs in Hd'. split.
    - destruct Hd' as [Hd'|(d & Hd & Hd')]; [auto|]. right. exists d. auto.
    - intros k' Hk. rewrite lookup_insert_ne by congruence.
      split; [apply Hother, Hk|].
      destruct Hd' as [->|(d & _ & ->)]; [reflexivity|].
      apply lookup_insert_ne. congruence. }
  destruct (isActive m) eqn:Ha.
  2:{ exists (participants m). apply Hkeep. auto. }
  destruct (List.find _ (participants m)) as [q0|] eqn:Hfind.
  - (* the user is in: the session is rewritten *)
    destruct (reconnect_first (jm_uid data) (jm_socketId data) (participants m))
      as (pre & p & post & Hps & Hp & Hpre & Hr).
    { apply find_some in Hfind as [Hin Hq]. eexists. split; [exact Hin|].
      apply bool_decide_eq_true in Hq. exact Hq. }
    exists (reconnect (jm_uid data) (jm_socketId data) (participants m)).
    destruct (Hcommit (reconnect (jm_uid data) (jm_socketId data) (participants m))
                      (Ok (mkJoinResult true
                             (Some (setParticipants
                                      (reconnect (jm_uid data) (jm_socketId data)
                                                 (participants m)) m)) None))
                      (fun _ => Ok (joinFailure (lit "Failed to join meeting"))))
      as (H1 & H2 & H3).
    split; [exact H1|]. split; [exact H2|]. split; [|exact H3].
    right. right. split; [reflexivity|]. exists pre, p, post.
    split; [exact Hps|]. split; [exact Hp|]. split; [exact Hpre|exact Hr].
  - pose proof (proj1 (find_uid_none _ _) Hfind) as Hnew.
    destruct (maxParticipants m <=? Z.of_nat (length (participants m)))%Z eqn:Hfull.
    + (* the meeting is full *)
      exists (participants m). apply Hkeep. right. split; [exact Hnew|].
      apply Z.leb_le, Hfull.
    + (* the user is appended *)
      rewrite Ht.
      eexists.
      destruct (Hcommit (participants m ++
                         [mkParticipant (jm_uid data) (jm_name data) (jm_socketId data)
                                        (clock w)])
                        (Ok (mkJoinResult true
                               (Some (setParticipants
                                        (participants m ++
                                         [mkParticipant (jm_uid data) (jm_name data)
                                                        (jm_socketId data) (clock w)])
                                        m)) None))
                        (fun _ => Ok (joinFailure (lit "Failed to join meeting"))))
        as (H1 & H2 & H3).
      split; [exact H1|]. split; [exact H2|]. split; [|exact H3].
      right. left. split; [reflexivity|]. split; [exact Hnew|].
      split; [apply Z.leb_gt, Hfull|reflexivity].
Qed.

(** ** The copies of a meeting after each call *)

Section CallVersions.

Lemma endMeeting_versions (k0 u k : jsstring) (w : World) (x : Meeting) :
  version (snd (endMeeting k0 u w)) k x ->
  version w k x
  \/ (k = k0 /\ exists d, version w k d
                 /\ x = applyPatch (mkPatch None None (Some false) None) d).
Proof.
  rewrite endMeeting_unfold.
  pose proof (getMeetingById_version k0 k w) as Hv.
  destruct (getMeetingById k0 w) as [[[m|]|e] w1]; cbn in Hv;
    try (intros H; left; apply Hv, H).
  destruct (bool_decide (createdBy m = u)); [|intros H; left; apply Hv, H].
  cbv zeta. intros H.
  assert (version (snd (dbUpdate k0 (mkPatch None None (Some false) None)
                          (if (0 <? length (messages m))%nat
                           then withSummaryJobs (summaryJobs w1 ++ [(k0, messages m)])
                                  (withCache (delete k0 (<[k0 := setIsActive false m]>
                                                           (activeMeetings w1))) w1)
                           else withCache (delete k0 (<[k0 := setIsActive false m]>
                                                        (activeMeetings w1))) w1)))
                  k x) as H'.
  { destruct (dbUpdate _ _ _) as [[[]|] ?]; exact H. }
  clear H. apply version_dbUpdate in H' as [H|(-> & d & Hd & ->)].
  - left. apply Hv.
    assert (version (withCache (delete k0 (<[k0 := setIsActive false m]>
                                             (activeMeetings w1))) w1) k x) as H'.
    { destruct (0 <? length (messages m))%nat; exact H. }
    eapply version_cache_delete; [|exact H'].
    intros k' Hk. apply lookup_insert_ne. congruence.
  - right. split; [reflexivity|]. exists d. split; [|reflexivity].
    apply Hv. right.
    destruct (0 <? length (messages m))%nat; exact Hd.
Qed.

Lemma leaveMeeting_versions (k0 sid k : jsstring) (w : World) (x : Meeting) :
  version (snd (leaveMeeting k0 sid w)) k x ->
  version w k x
  \/ (k = k0 /\ exists m,
        version w k m
        /\ let ps := List.filter (fun p => negb (bool_decide (socketId p = sid)))
                                 (participants m) in
           x = setParticipants ps m
           \/ exists d b,
                version w k d
                /\ (b = false \/ b = isActive m)
                /\ x = applyPatch (mkPatch (Some ps) None (Some b) None) d).
Proof.
  rewrite leaveMeeting_unfold.
  pose proof (getMeetingById_version k0 k w) as Hv.
  pose proof (getMeetingById_total k0 w) as [found Hfound].
  destruct found as [m|].
  2:{ destruct (getMeetingById k0 w) as [o w1]. cbn in Hfound, Hv. subst o.
      intros H. left. apply Hv, H. }
  pose proof (getMeetingById_found_version _ _ _ Hfound) as Hm.
  destruct (getMeetingById k0 w) as [o w1]. cbn in Hfound, Hv. subst o.
  cbv zeta.
  destruct (length _ =? 0)%nat; cbn [snd]; intros H;
    apply version_dbUpdate in H as [H|(-> & d & Hd & ->)].
  - left. apply Hv.
    assert (version (withCache
                       (delete k0 (<[k0 := setIsActive false
                                        (setParticipants
                                           (List.filter
                                              (fun p => negb (bool_decide (socketId p = sid)))
                                              (participants m)) m)]>
                                     (<[k0 := setParticipants
                                        (List.filter
                                           (fun p => negb (bool_decide (socketId p = sid)))
                                           (participants m)) m]>
                                        (activeMeetings w1)))) w1) k x) as H'.
    { destruct (0 <? length (messages m))%nat; exact H. }
    eapply version_cache_delete; [|exact H'].
    intros k' Hk. rewrite !lookup_insert_ne by congruence. reflexivity.
  - right. split; [reflexivity|]. exists m. split; [assumption|]. right.
    exists d, false. split; [|split; [auto|reflexivity]].
    apply Hv. right. destruct (0 <? length (messages m))%nat; exact Hd.
  - apply version_cache_insert in H as [H|[-> ->]].
    + left. apply Hv, H.
    + right. split; [reflexivity|]. exists m. split; [assumption|]. left. reflexivity.
  - right. split; [reflexivity|]. exists m. split; [assumption|]. right.
    exists d, (isActive m). split; [|split; [auto|reflexivity]].
    apply Hv. right. exact Hd.
Qed.

(** After the tail shared by [joinMeeting] and [addMessage]. *)
Lemma commit_versions {A : Type} (k0 k : jsstring) (p : Patch) (m' x : Meeting)
      (w1 : World) (ok : A) (ko : Exn -> A) :
  version (snd (match dbUpdate k0 p (withCache (<[k0 := m']> (activeMeetings w1)) w1) with
                | (Ok _, w3) => (ok, withCache (<[k0 := m']> (activeMeetings w3)) w3)
                | (Throw e, w3) => (ko e, w3)
                end)) k x ->
  version w1 k x
  \/ (k = k0 /\ (x = m' \/ exists d, version w1 k d /\ x = applyPatch p d)).
Proof.
  pose proof (commit_world k0 p m' w1 ok ko) as (Hc & Hd & _). cbv zeta in Hc, Hd.
  unfold version at 1. rewrite Hc. intros [H|H].
  - destruct (decide (k = k0)) as [->|Hk].
    + rewrite lookup_insert_eq in H. injection H as <-. auto.
    + rewrite lookup_insert_ne in H by congruence. left. left. exact H.
  - destruct Hd as [Hd|(d & Hd & Hd')].
    + rewrite Hd in H. left. right. exact H.
    + rewrite Hd' in H. destruct (decide (k = k0)) as [->|Hk].
      * rewrite lookup_insert_eq in H. injection H as <-.
        right. split; [reflexivity|]. right. exists d. split; [right; exact Hd|reflexivity].
      * rewrite lookup_insert_ne in H by congruence. left. right. exact H.
Qed.

Lemma addMessage_versions (k0 k : jsstring) (msg : ChatMessage) (w : World) (x : Meeting) :
  version (snd (addMessage k0 msg w)) k x ->
  version w k x
  \/ (k = k0 /\ exists m,
        version w k m
        /\ (x = setMessages (messages m ++ [msg]) m
            \/ exists d,
                 version w k d
                 /\ x = applyPatch (mkPatch None (Some (messages m ++ [msg])) None None) d)).
Proof.
  rewrite addMessage_unfold.
  pose proof (getMeetingById_version k0 k w) as Hv.
  pose proof (getMeetingById_total k0 w) as [found Hfound].
  destruct found as [m|].
  2:{ destruct (getMeetingById k0 w) as [o w1]. cbn in Hfound, Hv. subst o.
      intros H. left. apply Hv, H. }
  pose proof (getMeetingById_found_version _ _ _ Hfound) as Hm.
  destruct (getMeetingById k0 w) as [o w1]. cbn in Hfound, Hv. subst o.
  cbv zeta. intros H.
  destruct (forallb definedMessage (messages m ++ [msg])).
  2:{ apply version_cache_insert in H as [H|[-> ->]].
      - left. apply Hv, H.
      - right. split; [reflexivity|]. exists m. auto. }
  apply (commit_versions _ _ _ _ _ _ _ (fun e => Throw e)) in H
    as [H|(-> & [->|(d & Hd & ->)])].
  - left. apply Hv, H.
  - right. split; [reflexivity|]. exists m. auto.
  - right. split; [reflexivity|]. exists m. split; [assumption|].
    right. exists d. split; [apply Hv, Hd|reflexivity].
Qed.

Lemma joinMeeting_versions (data : JoinMeetingData) (k : jsstring) (w : World)
      (x : Meeting) :
  version (snd (joinMeeting data w)) k x ->
  version w k x
  \/ (k = jm_meetingId data /\ exists m ps,
        version w k m
        /\ isActive m = true
        /\ (x = setParticipants ps m
            \/ exists d,
                 version w k d
                 /\ x = applyPatch (mkPatch (Some ps) None None None) d)).
Proof.
  rewrite joinMeeting_unfold. cbv zeta.
  pose proof (getMeetingById_version (jm_meetingId data) k w) as Hv.
  pose proof (getMeetingById_total (jm_meetingId data) w) as [found Hfound].
  destruct found as [m|].
  2:{ destruct (getMeetingById _ w) as [o w1]. cbn in Hfound, Hv. subst o.
      intros H. left. apply Hv, H. }
  pose proof (getMeetingById_found_version _ _ _ Hfound) as Hm.
  destruct (getMeetingById _ w) as [o w1]. cbn in Hfound, Hv. subst o.
  destruct (isActive m) eqn:Ha; [|intros H; left; apply Hv, H].
  assert (forall ps (ok : Outcome JoinResult) (ko : Exn -> Outcome JoinResult),
            version (snd (match dbUpdate (jm_meetingId data)
                                         (mkPatch (Some ps) None None None)
                                         (withCache (<[jm_meetingId data := setParticipants ps m]>
                                                       (activeMeetings w1)) w1) with
                          | (Ok _, w3) =>
                              (ok, withCache (<[jm_meetingId data := setParticipants ps m]>
                                                (activeMeetings w3)) w3)
                          | (Throw e, w3) => (ko e, w3)
                          end)) k x ->
            version w k x
            \/ (k = jm_meetingId data /\ exists m0 ps0,
                  version w k m0 /\ isActive m0 = true
                  /\ (x = setParticipants ps0 m0
                      \/ exists d, version w k d
                           /\ x = applyPatch (mkPatch (Some ps0) None None None) d)))
    as Hcommit.
  { intros ps ok ko H.
    apply commit_versions in H as [H|(-> & [->|(d & Hd & ->)])].
    - left. apply Hv, H.
    - right. split; [reflexivity|]. exists m, ps. auto.
    - right. split; [reflexivity|]. exists m, ps. split; [assumption|].
      split; [assumption|]. right. exists d. split; [apply Hv, Hd|reflexivity]. }
  destruct (List.find _ (participants m)).
  - apply (Hcommit _ _ (fun _ => _)).
  - destruct (maxParticipants m <=? _)%Z; [intros H; left; apply Hv, H|].
    apply (Hcommit _ _ (fun _ => _)).
Qed.

Lemma getParticipants_unfold (k0 : jsstring) (w : World) :
  snd (getParticipants k0 w) = snd (getMeetingById k0 w).
Proof.
  unfold getParticipants, bind, ret.
  destruct (getMeetingById k0 w) as [[found|e] w1]; reflexivity.
Qed.

Lemma summaryReady_unfold (s : jsstring) (w : World) :
  snd (summaryReady s w) =
  match summaryJobs w with
  | [] => w
  | (k0, _) :: rest =>
      snd (dbUpdate k0 (mkPatch None None None (Some s)) (withSummaryJobs rest w))
  end.
Proof.
  unfold summaryReady. svc_unfold. cbn.
  destruct (summaryJobs w) as [|[k0 ms] rest]; [reflexivity|]. cbn.
  destruct (dbUpdate _ _ _) as [[[]|] ?]; reflexivity.
Qed.

Lemma summaryReady_versions (s k : jsstring) (w : World) (x : Meeting) :
  version (snd (summaryReady s w)) k x ->
  version w k x
  \/ exists d, version w k d /\ x = applyPatch (mkPatch None None None (Some s)) d.
Proof.
  rewrite summaryReady_unfold.
  destruct (summaryJobs w) as [|[k0 ms] rest]; [auto|].
  intros H. apply version_dbUpdate in H as [H|(-> & d & Hd & ->)].
  - left. exact H.
  - right. exists d. split; [right; exact Hd|reflexivity].
Qed.

End CallVersions.

(** ** Creation picks an identifier that no meeting has *)

Section CreateFacts.

Lemma random_inv (w : World) :
  exists r w',
    random w = (Ok r, w')
    /\ activeMeetings w' = activeMeetings w
    /\ firestore w' = firestore w
    /\ faults w' = faults w.
Proof.
  unfold random. destruct (draws w) as [|r rs]; eauto 10.
Qed.

(** With no failure coming, a lookup that finds nothing under a
    well-formed identifier shows that no copy of the meeting exists. *)
Lemma getMeetingById_none_fresh (k : jsstring) (w : World) (m : Meeting) :
  faults w = [] ->
  fst (getMeetingById k w) = Ok None ->
  isValidMeetingId k = true ->
  ~ version (snd (getMeetingById k w)) k m.
Proof.
  intros Hf Hn Hv. rewrite getMeetingById_version.
  apply getMeetingById_none_iff in Hn as [Hn|[Hc [Hn|Hd]]].
  - congruence.
  - rewrite Hf in Hn. discriminate.
  - unfold version. intros [H|H]; congruence.
Qed.

Lemma retryMeetingId_fresh (fuel : nat) (k : jsstring) (found : option Meeting)
      (w : World) :
  faults w = [] ->
  (found = None -> isValidMeetingId k = true -> forall m, ~ version w k m) ->
  let r := retryMeetingId fuel k found w in
  faults (snd r) = []
  /\ (forall k' m, version (snd r) k' m <-> version w k' m)
  /\ exists picked,
       fst r = Ok picked
       /\ forall k', picked = Some k' -> isValidMeetingId k' = true ->
                     forall m, ~ version (snd r) k' m.
Proof.
  revert k found w. induction fuel as [|fuel IH]; intros k found w Hf Hfresh.
  - destruct found as [c|]; cbn.
    + split; [assumption|]. split; [reflexivity|]. exists None.
      split; [reflexivity|discriminate].
    + split; [assumption|]. split; [reflexivity|]. exists (Some k).
      split; [reflexivity|]. intros k' [= <-]. auto.
  - destruct found as [c|]; cbn.
    2:{ split; [assumption|]. split; [reflexivity|]. exists (Some k).
        split; [reflexivity|]. intros k' [= <-]. auto. }
    unfold bind.
    destruct (random_inv w) as (r & wr & -> & Hc & Hd & Hfr).
    pose proof (getMeetingById_total (generateMeetingId r) wr) as [found' Hfound].
    pose proof (getMeetingById_faults (generateMeetingId r) wr) as Hf'.
    pose proof (fun k m => getMeetingById_version (generateMeetingId r) k wr m) as Hv.
    pose proof (getMeetingById_none_fresh (generateMeetingId r) wr) as Hn.
    destruct (getMeetingById (generateMeetingId r) wr) as [o wl].
    cbn in Hfound, Hf', Hv, Hn. subst o.
    specialize (IH (generateMeetingId r) found' wl).
    destruct IH as (IH1 & IH2 & IH3).
    + apply Hf'. congruence.
    + intros -> Hvalid m. apply Hn; [congruence|reflexivity|assumption].
    + split; [assumption|]. split; [|assumption].
      intros k' m. rewrite IH2, Hv. unfold version. rewrite Hc, Hd. reflexivity.
Qed.

Lemma retryMeetingId_firestore (fuel : nat) (k : jsstring) (found : option Meeting)
      (w : World) :
  firestore (snd (retryMeetingId fuel k found w)) = firestore w.
Proof.
  revert k found w. induction fuel as [|fuel IH]; intros k found w.
  - destruct found; reflexivity.
  - destruct found as [c|]; [|reflexivity]. cbn. unfold bind.
    destruct (random_inv w) as (r & wr & -> & _ & Hd & _).
    pose proof (getMeetingById_firestore (generateMeetingId r) wr) as Hs.
    pose proof (getMeetingById_total (generateMeetingId r) wr) as [found' Hfound].
    destruct (getMeetingById (generateMeetingId r) wr) as [o wl].
    cbn in Hs, Hfound. subst o. rewrite IH. congruence.
Qed.

(** With no failure coming, a creation leaves the copies of every
    existing meeting as they are, and no failure is coming after it. *)
Lemma createMeeting_effect (fuel : nat) (data : MeetingCreateData) (w : World) :
  faults w = [] ->
  faults (snd (createMeeting fuel data w)) = []
  /\ (forall k, is_Some (firestore w !! k) ->
                is_Some (firestore (snd (createMeeting fuel data w)) !! k))
  /\ (forall k x, version (snd (createMeeting fuel data w)) k x ->
                  (exists y, version w k y)
                  \/ is_Some (firestore (snd (createMeeting fuel data w)) !! k))
  /\ (forall k x,
        isValidMeetingId k = true ->
        (exists m, version w k m) ->
        version (snd (createMeeting fuel data w)) k x -> version w k x).
Proof.
  intros Hf.
  remember (createMeeting fuel data w) as res eqn:Hres. revert Hres.
  unfold createMeeting, tryCatch. unfold bind at 1.
  destruct (random_inv w) as (r & wr & -> & Hc & Hd & Hfr).
  unfold bind at 1.
  pose proof (getMeetingById_total (generateMeetingId r) wr) as [found' Hfound].
  pose proof (getMeetingById_faults (generateMeetingId r) wr) as Hf'.
  pose proof (fun k m => getMeetingById_version (generateMeetingId r) k wr m) as Hv.
  pose proof (getMeetingById_none_fresh (generateMeetingId r) wr) as Hn.
  pose proof (getMeetingById_firestore (generateMeetingId r) wr) as Hs.
  destruct (getMeetingById (generateMeetingId r) wr) as [o wl].
  cbn in Hfound, Hf', Hv, Hn, Hs. subst o.
  unfold bind at 1.
  pose proof (retryMeetingId_fresh fuel (generateMeetingId r) found' wl) as Hretry.
  pose proof (retryMeetingId_firestore fuel (generateMeetingId r) found' wl) as Hs2.
  cbv zeta in Hretry.
  destruct Hretry as (Hf2 & Hv2 & picked & Hp & Hfresh).
  { apply Hf'. congruence. }
  { intros -> Hval m. apply Hn; [congruence|reflexivity|assumption]. }
  destruct (retryMeetingId fuel (generateMeetingId r) found' wl) as [o wp].
  cbn in Hf2, Hv2, Hp, Hfresh, Hs2. subst o.
  assert (forall k y, version wp k y <-> version w k y) as Hsame.
  { intros k y. rewrite Hv2, Hv. unfold version. rewrite Hc, Hd. reflexivity. }
  destruct picked as [k'|].
  2:{ cbn. intros ->. cbn. split; [assumption|].
      split; [intros k; rewrite Hs2, Hs, Hd; auto|].
      split; [|intros k x _ _; apply Hsame].
      intros k x Hx. left. exists x. apply Hsame, Hx. }
  svc_unfold. unfold dbSetStamped, dbSet, bind, storeCall, modifyWorld.
  cbn [faults withServerTimes]. rewrite Hf2. cbn.
  intros ->. cbn.
  split; [rewrite Hf2; reflexivity|]. split; [|split].
  - intros k Hk. destruct (decide (k = k')) as [<-|Hne].
    + rewrite lookup_insert_eq. eauto.
    + rewrite lookup_insert_ne by congruence. rewrite Hs2, Hs, Hd. exact Hk.
  - intros k x. destruct (decide (k = k')) as [<-|Hne].
    + intros _. right. rewrite lookup_insert_eq. eauto.
    + unfold version at 1. cbn. rewrite !lookup_insert_ne by congruence.
      intros Hx. left. exists x. apply Hsame, Hx.
  - intros k x Hvalid [m0 Hm0]. destruct (decide (k = k')) as [<-|Hk].
    + exfalso. apply (Hfresh k eq_refl Hvalid m0). apply Hsame. exact Hm0.
    + unfold version. cbn. rewrite !lookup_insert_ne by congruence.
      intros H. apply Hsame. exact H.
Qed.

End CreateFacts.

(** ** Steps of the service from a store that does not fail *)

Section StepFacts.

Lemma getMeetingById_keeps_documents (k0 k : jsstring) (w : World) :
  is_Some (firestore w !! k) -> is_Some (firestore (snd (getMeetingById k0 w)) !! k).
Proof. rewrite getMeetingById_firestore. auto. Qed.

Lemma commit_keeps {A : Type} (k0 k : jsstring) (p : Patch) (m' : Meeting) (w1 : World)
      (ok : A) (ko : Exn -> A) :
  faults w1 = [] ->
  is_Some (firestore w1 !! k) ->
  let r :=
    match dbUpdate k0 p (withCache (<[k0 := m']> (activeMeetings w1)) w1) with
    | (Ok _, w3) => (ok, withCache (<[k0 := m']> (activeMeetings w3)) w3)
    | (Throw e, w3) => (ko e, w3)
    end in
  faults (snd r) = [] /\ is_Some (firestore (snd r) !! k).
Proof.
  intros Hf Hk. pose proof (commit_world k0 p m' w1 ok ko) as (_ & Hd & Hf').
  cbv zeta in *. rewrite Hf', Hf. split; [reflexivity|].
  destruct Hd as [->|(d & Hd & ->)]; [assumption|].
  destruct (decide (k = k0)) as [->|Hne].
  - rewrite lookup_insert_eq. eauto.
  - rewrite lookup_insert_ne by congruence. assumption.
Qed.

Lemma update_keeps (k0 k : jsstring) (p : Patch) (w1 : World) :
  faults w1 = [] ->
  is_Some (firestore w1 !! k) ->
  faults (snd (dbUpdate k0 p w1)) = []
  /\ is_Some (firestore (snd (dbUpdate k0 p w1)) !! k).
Proof.
  intros Hf Hk. rewrite dbUpdate_faults, Hf. split; [reflexivity|].
  apply dbUpdate_keeps_documents, Hk.
Qed.

(** No step brings a failure about, and no step deletes a document. *)
Lemma step_keeps (o : Op) (k : jsstring) (w : World) :
  faults w = [] ->
  is_Some (firestore w !! k) ->
  faults (step o w) = [] /\ is_Some (firestore (step o w) !! k).
Proof.
  intros Hf Hk. destruct o as [fuel data|k0|k0 u|data|k0 sid|k0 msg|k0|s|t]; cbn [step].
  - destruct (createMeeting_effect fuel data w Hf) as (H1 & H2 & _). auto.
  - split; [apply getMeetingById_faults, Hf|apply getMeetingById_keeps_documents, Hk].
  - rewrite endMeeting_unfold.
    pose proof (getMeetingById_faults k0 w Hf) as Hf1.
    pose proof (getMeetingById_keeps_documents k0 k w Hk) as Hk1.
    destruct (getMeetingById k0 w) as [[[m|]|e] w1]; cbn in Hf1, Hk1; auto.
    destruct (bool_decide (createdBy m = u)); [|auto]. cbv zeta.
    match goal with
    | |- context [dbUpdate ?a ?b ?c] =>
        pose proof (update_keeps a k b c) as Hu; destruct (dbUpdate a b c) as [[[]|] ?]
    end; cbn in Hu |- *; apply Hu;
      destruct (0 <? length (messages m))%nat; cbn; assumption.
  - rewrite joinMeeting_unfold. cbv zeta.
    pose proof (getMeetingById_faults (jm_meetingId data) w Hf) as Hf1.
    pose proof (getMeetingById_keeps_documents (jm_meetingId data) k w Hk) as Hk1.
    destruct (getMeetingById (jm_meetingId data) w) as [[[m|]|e] w1];
      cbn in Hf1, Hk1; auto.
    destruct (isActive m); [|auto].
    destruct (List.find _ (participants m)).
    + apply (commit_keeps _ _ _ _ _ _ (fun _ => _)); assumption.
    + destruct (maxParticipants m <=? _)%Z; [auto|].
      apply (commit_keeps _ _ _ _ _ _ (fun _ => _)); assumption.
  - rewrite leaveMeeting_unfold.
    pose proof (getMeetingById_faults k0 w Hf) as Hf1.
    pose proof (getMeetingById_keeps_documents k0 k w Hk) as Hk1.
    destruct (getMeetingById k0 w) as [[[m|]|e] w1]; cbn in Hf1, Hk1; auto.
    cbv zeta. destruct (length _ =? 0)%nat; cbn [snd]; apply update_keeps; try assumption;
      destruct (0 <? length (messages m))%nat; cbn; assumption.
  - rewrite addMessage_unfold.
    pose proof (getMeetingById_faults k0 w Hf) as Hf1.
    pose proof (getMeetingById_keeps_documents k0 k w Hk) as Hk1.
    destruct (getMeetingById k0 w) as [[[m|]|e] w1]; cbn in Hf1, Hk1; auto.
    cbv zeta. destruct (forallb definedMessage _); [|cbn; auto].
    apply (commit_keeps _ _ _ _ _ _ (fun e => Throw e)); assumption.
  - rewrite getParticipants_unfold.
    split; [apply getMeetingById_faults, Hf|apply getMeetingById_keeps_documents, Hk].
  - rewrite summaryReady_unfold. destruct (summaryJobs w) as [|[k0 ms] rest]; [auto|].
    apply update_keeps; assumption.
  - auto.
Qed.

Lemma filter_sublist {A : Type} (f : A -> bool) (l : list A) :
  sublist (List.filter f l) l.
Proof.
  induction l as [|a l IH]; cbn; [constructor|].
  destruct (f a); [apply sublist_skip|apply sublist_cons]; exact IH.
Qed.

(** A meeting that has ended stays ended, whatever is called, and its
    participants only leave. *)
Lemma step_ended (o : Op) (k : jsstring) (w : World) :
  faults w = [] ->
  ended w k ->
  faults (step o w) = [] /\ ended (step o w) k /\ dwindled k w (step o w).
Proof.
  intros Hf (Hvalid & Hdoc & Hin).
  destruct (step_keeps o k w Hf Hdoc) as [Hf' Hdoc'].
  split; [assumption|].
  assert (forall x, version (step o w) k x ->
                    isActive x = false
                    /\ exists m, version w k m
                                 /\ sublist (participants x) (participants m)) as Hstep.
  2:{ split.
      - split; [assumption|]. split; [assumption|]. intros x Hx. apply Hstep, Hx.
      - intros x Hx. apply Hstep, Hx. }
  assert (forall x, version w k x ->
                    isActive x = false
                    /\ exists m, version w k m
                                 /\ sublist (participants x) (participants m)) as Hold.
  { intros x Hx. split; [apply Hin, Hx|]. exists x. split; [assumption|reflexivity]. }
  intros x.
  destruct o as [fuel data|k0|k0 u|data|k0 sid|k0 msg|k0|s|t]; cbn [step].
  - intros Hx. apply Hold.
    destruct (createMeeting_effect fuel data w Hf) as (_ & _ & _ & Hc).
    destruct Hdoc as [d Hd]. apply Hc; [assumption|exists d; right; assumption|assumption].
  - rewrite getMeetingById_version. apply Hold.
  - intros Hx. apply endMeeting_versions in Hx as [Hx|(-> & d & Hd & ->)]; [auto|].
    split; [reflexivity|]. exists d. split; [assumption|reflexivity].
  - intros Hx. apply joinMeeting_versions in Hx as [Hx|(-> & m & ps & Hm & Ha & _)];
      [auto|].
    apply Hin in Hm. congruence.
  - intros Hx.
    apply leaveMeeting_versions in Hx as [Hx|(-> & m & Hm & [->|(d & b & Hd & Hb & ->)])];
      [auto| |].
    + split; [exact (Hin _ Hm)|]. exists m. split; [assumption|apply filter_sublist].
    + split.
      * cbn. destruct Hb as [->| ->]; [reflexivity|exact (Hin _ Hm)].
      * exists m. split; [assumption|apply filter_sublist].
  - intros Hx.
    apply addMessage_versions in Hx as [Hx|(-> & m & Hm & [->|(d & Hd & ->)])];
      [auto| |].
    + split; [exact (Hin _ Hm)|]. exists m. split; [assumption|reflexivity].
    + split; [exact (Hin _ Hd)|]. exists d. split; [assumption|reflexivity].
  - rewrite getParticipants_unfold, getMeetingById_version. apply Hold.
  - intros Hx. apply summaryReady_versions in Hx as [Hx|(d & Hd & ->)]; [auto|].
    split; [exact (Hin _ Hd)|]. exists d. split; [assumption|reflexivity].
  - apply Hold.
Qed.

Lemma run_ended (ops : list Op) (k : jsstring) (w : World) :
  faults w = [] ->
  ended w k ->
  faults (run ops w) = [] /\ ended (run ops w) k /\ dwindled k w (run ops w).
Proof.
  revert w. induction ops as [|o ops IH]; intros w Hf He; cbn.
  - split; [assumption|]. split; [assumption|].
    intros x Hx. exists x. split; [assumption|reflexivity].
  - destruct (step_ended o k w Hf He) as (Hf1 & He1 & Hd1).
    destruct (IH (step o w) Hf1 He1) as (Hf2 & He2 & Hd2).
    split; [assumption|]. split; [assumption|].
    intros x Hx. destruct (Hd2 x Hx) as (y & Hy & Hxy).
    destruct (Hd1 y Hy) as (z & Hz & Hyz).
    exists z. split; [assumption|]. etransitivity; eassumption.
Qed.

(** The messages of a meeting that has ended are those it had, as long
    as [addMessage] is not called on it. *)
Lemma step_messages (o : Op) (k : jsstring) (w : World) :
  faults w = [] ->
  ended w k ->
  (forall msg, o <> OpAddMessage k msg) ->
  keptMessages k w (step o w).
Proof.
  intros Hf (Hvalid & Hdoc & Hin) Hnot x.
  assert (forall y, version w k y ->
                    exists m, version w k m /\ messages y = messages m) as Hold.
  { intros y Hy. exists y. auto. }
  destruct o as [fuel data|k0|k0 u|data|k0 sid|k0 msg|k0|s|t]; cbn [step].
  - intros Hx. apply Hold.
    destruct (createMeeting_effect fuel data w Hf) as (_ & _ & _ & Hc).
    destruct Hdoc as [d Hd]. apply Hc; [assumption|exists d; right; assumption|assumption].
  - rewrite getMeetingById_version. apply Hold.
  - intros Hx. apply endMeeting_versions in Hx as [Hx|(-> & d & Hd & ->)]; [auto|].
    exists d. auto.
  - intros Hx. apply joinMeeting_versions in Hx as [Hx|(-> & m & ps & Hm & Ha & _)];
      [auto|].
    apply Hin in Hm. congruence.
  - intros Hx.
    apply leaveMeeting_versions in Hx as [Hx|(-> & m & Hm & [->|(d & b & Hd & Hb & ->)])];
      [auto| |].
    + exists m. auto.
    + exists d. auto.
  - intros Hx. apply addMessage_versions in Hx as [Hx|(-> & _)]; [auto|].
    exfalso. exact (Hnot msg eq_refl).
  - rewrite getParticipants_unfold, getMeetingById_version. apply Hold.
  - intros Hx. apply summaryReady_versions in Hx as [Hx|(d & Hd & ->)]; [auto|].
    exists d. auto.
  - apply Hold.
Qed.

Lemma run_messages (ops : list Op) (k : jsstring) (w : World) :
  faults w = [] ->
  ended w k ->
  Forall (fun o => forall msg, o <> OpAddMessage k msg) ops ->
  keptMessages k w (run ops w).
Proof.
  revert w. induction ops as [|o ops IH]; intros w Hf He Hops; cbn.
  - intros x Hx. exists x. auto.
  - destruct (Forall_cons_1 _ _ _ Hops) as [Ho Hops'].
    destruct (step_ended o k w Hf He) as (Hf1 & He1 & _).
    intros x Hx. destruct (IH (step o w) Hf1 He1 Hops' x Hx) as (y & Hy & Hxy).
    destruct (step_messages o k w Hf He Ho y Hy) as (z & Hz & Hyz).
    exists z. split; [assumption|congruence].
Qed.

(** Joining a meeting that has ended is refused, after the lookup and
    nothing more. *)
Lemma joinMeeting_ended (data : JoinMeetingData) (w : World) :
  faults w = [] ->
  ended w (jm_meetingId data) ->
  joinMeeting data w =
  (Ok (joinFailure (lit "Meeting is no longer active")),
   snd (getMeetingById (jm_meetingId data) w)).
Proof.
  intros Hf (Hvalid & [d Hd] & Hin).
  rewrite joinMeeting_unfold. cbv zeta.
  rewrite getMeetingById_unfold, Hvalid, Hf, Hd. cbn.
  destruct (activeMeetings w !! jm_meetingId data) as [c|] eqn:Hc.
  - rewrite (Hin c) by (left; assumption). reflexivity.
  - rewrite (Hin d) by (right; assumption). reflexivity.
Qed.

(** Whatever is called, a copy of a meeting afterwards shows that the
    meeting had a copy before, or has a document now. *)
Lemma step_version_origin (o : Op) (k : jsstring) (w : World) (x : Meeting) :
  faults w = [] ->
  version (step o w) k x ->
  (exists y, version w k y) \/ is_Some (firestore (step o w) !! k).
Proof.
  intros Hf.
  destruct o as [fuel data|k0|k0 u|data|k0 sid|k0 msg|k0|s|t]; cbn [step].
  - destruct (createMeeting_effect fuel data w Hf) as (_ & _ & Hc & _). apply Hc.
  - rewrite getMeetingById_version. eauto.
  - intros Hx. apply endMeeting_versions in Hx as [Hx|(-> & d & Hd & ->)]; eauto.
  - intros Hx. apply joinMeeting_versions in Hx as [Hx|(-> & m & ps & Hm & _)]; eauto.
  - intros Hx. apply leaveMeeting_versions in Hx as [Hx|(-> & m & Hm & _)]; eauto.
  - intros Hx. apply addMessage_versions in Hx as [Hx|(-> & m & Hm & _)]; eauto.
  - rewrite getParticipants_unfold, getMeetingById_version. eauto.
  - intros Hx. apply summaryReady_versions in Hx as [Hx|(d & Hd & ->)]; eauto.
  - eauto.
Qed.

(** No step brings a failure about. *)
Lemma step_faults (o : Op) (w : World) :
  faults w = [] -> faults (step o w) = [].
Proof.
  intros Hf.
  destruct o as [fuel data|k0|k0 u|data|k0 sid|k0 msg|k0|s|t]; cbn [step].
  - apply (createMeeting_effect fuel data w Hf).
  - apply getMeetingById_faults, Hf.
  - rewrite endMeeting_unfold.
    pose proof (getMeetingById_faults k0 w Hf) as Hf1.
    destruct (getMeetingById k0 w) as [[[m|]|e] w1]; cbn in Hf1; auto.
    destruct (bool_decide (createdBy m = u)); [|auto]. cbv zeta.
    match goal with
    | |- context [dbUpdate ?a ?b ?c] =>
        pose proof (dbUpdate_faults a b c) as Hu; destruct (dbUpdate a b c) as [[[]|] ?]
    end; cbn in Hu |- *; rewrite Hu;
      destruct (0 <? length (messages m))%nat; cbn; rewrite Hf1; reflexivity.
  - rewrite joinMeeting_unfold. cbv zeta.
    pose proof (getMeetingById_faults (jm_meetingId data) w Hf) as Hf1.
    destruct (getMeetingById (jm_meetingId data) w) as [[[m|]|e] w1]; cbn in Hf1; auto.
    destruct (isActive m); [|auto].
    destruct (List.find _ (participants m)).
    + match goal with
      | |- context [dbUpdate ?k ?p (withCache (<[?k := ?m']> _) _)] =>
          pose proof (commit_world k p m' w1
                        (Ok (mkJoinResult true (Some m') None))
                        (fun _ => Ok (joinFailure (lit "Failed to join meeting"))))
            as (_ & _ & Hc)
      end.
      cbv zeta beta in Hc. rewrite Hc, Hf1. reflexivity.
    + destruct (maxParticipants m <=? _)%Z; [auto|].
      match goal with
      | |- context [dbUpdate ?k ?p (withCache (<[?k := ?m']> _) _)] =>
          pose proof (commit_world k p m' w1
                        (Ok (mkJoinResult true (Some m') None))
                        (fun _ => Ok (joinFailure (lit "Failed to join meeting"))))
            as (_ & _ & Hc)
      end.
      cbv zeta beta in Hc. rewrite Hc, Hf1. reflexivity.
  - rewrite leaveMeeting_unfold.
    pose proof (getMeetingById_faults k0 w Hf) as Hf1.
    destruct (getMeetingById k0 w) as [[[m|]|e] w1]; cbn in Hf1; auto.
    cbv zeta. destruct (length _ =? 0)%nat; cbn [snd]; rewrite dbUpdate_faults;
      [destruct (0 <? length (messages m))%nat|]; cbn; rewrite Hf1; reflexivity.
  - rewrite addMessage_unfold.
    pose proof (getMeetingById_faults k0 w Hf) as Hf1.
    destruct (getMeetingById k0 w) as [[[m|]|e] w1]; cbn in Hf1; auto.
    cbv zeta. destruct (forallb definedMessage _); [|cbn; exact Hf1].
    match goal with
    | |- context [dbUpdate ?k ?p (withCache (<[?k := ?m']> _) _)] =>
        pose proof (commit_world k p m' w1 (Ok tt) (fun e => Throw e)) as (_ & _ & Hc)
    end.
    cbv zeta beta in Hc. rewrite Hc, Hf1. reflexivity.
  - rewrite getParticipants_unfold. apply getMeetingById_faults, Hf.
  - rewrite summaryReady_unfold. destruct (summaryJobs w) as [|[k0 ms] rest]; [auto|].
    rewrite dbUpdate_faults. cbn. rewrite Hf. reflexivity.
  - assumption.
Qed.

(** A store that does not fail stays so. *)
Lemma step_healthy (o : Op) (w : World) :
  storeHealthy w -> storeHealthy (step o w).
Proof.
  intros [Hf Hb]. split; [apply step_faults, Hf|intros k [x Hx]].
  - destruct (step_version_origin o k w x Hf (or_introl Hx)) as [[y Hy]|Hd]; [|exact Hd].
    apply (step_keeps o k w Hf).
    destruct Hy as [Hy|Hy]; [apply Hb|]; rewrite Hy; eauto.
Qed.

Lemma run_healthy (ops : list Op) (w : World) :
  storeHealthy w -> storeHealthy (run ops w).
Proof.
  revert w. induction ops as [|o ops IH]; intros w Hh; [exact Hh|].
  cbn. apply IH, step_healthy, Hh.
Qed.

Lemma initial_healthy (rs : list N) (t : Z) : storeHealthy (initial [] rs t).
Proof.
  split; [reflexivity|]. intros k [x Hx]. cbn in Hx.
  rewrite lookup_empty in Hx. discriminate.
Qed.

End StepFacts.

(** C4. In a store that does not fail, when the meeting found has one
    participant and that participant's session leaves: the document now
    has no participant and [isActive] false, the meeting is out of the
    cache, no copy of it has a participant or is active, and after any
    further calls every join to it is refused with "Meeting is no longer
    active". *)
Theorem leave_of_last_participant_closes_meeting
        (k sid : jsstring) (p : Participant) (m : Meeting) (w : World) :
  storeHealthy w ->
  fst (getMeetingById k w) = Ok (Some m) ->
  participants m = [p] ->
  socketId p = sid ->
  let w1 := snd (leaveMeeting k sid w) in
  (exists d, firestore w !! k = Some d
             /\ firestore w1 !! k
                = Some (applyPatch (mkPatch (Some []) None (Some false) None) d))
  /\ activeMeetings w1 !! k = None
  /\ (forall x, version w1 k x -> participants x = [] /\ isActive x = false)
  /\ (forall ops data,
        jm_meetingId data = k ->
        fst (joinMeeting data (run ops w1))
        = Ok (joinFailure (lit "Meeting is no longer active"))).
Proof.
  intros Hh Hfound Hps Hsid. cbv zeta.
  destruct (getMeetingById_backed k w m Hh Hfound) as [d Hd].
  pose proof (getMeetingById_found k w m Hfound) as (Hvalid & _).
  pose proof (getMeetingById_faults k w (proj1 Hh)) as Hf1.
  pose proof (getMeetingById_firestore k w) as Hs.
  assert (faults (snd (leaveMeeting k sid w)) = []) as Hf'.
  { apply (step_faults (OpLeave k sid) w), Hh. }
  rewrite leaveMeeting_unfold in *.
  destruct (getMeetingById k w) as [o w1]. cbn in Hfound, Hf1, Hs. subst o.
  rewrite Hps in *. cbn [List.filter] in *.
  rewrite bool_decide_true in * by assumption. cbn [negb length Nat.eqb] in *.
  change (0 =? 0)%nat with true in *. cbv zeta iota in *. cbn [snd] in *.
  assert (forall w3, faults w3 = [] -> firestore w3 = firestore w ->
                     activeMeetings w3 !! k = None ->
                     let w4 := snd (dbUpdate k (mkPatch (Some []) None (Some false) None) w3) in
                     firestore w4 !! k
                     = Some (applyPatch (mkPatch (Some []) None (Some false) None) d)
                     /\ activeMeetings w4 !! k = None) as Hupdate.
  { intros w3 Hf3 Hs3 Hc3. cbv zeta.
    rewrite (dbUpdate_accepted _ _ _ d) by congruence. cbn.
    rewrite lookup_insert_eq. auto. }
  match goal with
  | |- context [dbUpdate _ _ ?w3] => destruct (Hupdate w3) as [Hdoc Hcache]
  end.
  { destruct (0 <? length (messages m))%nat; cbn; assumption. }
  { destruct (0 <? length (messages m))%nat; cbn; assumption. }
  { destruct (0 <? length (messages m))%nat; cbn; apply lookup_delete_eq. }
  match type of Hdoc with
  | firestore ?w4 !! _ = _ => set (wl := w4) in *
  end.
  assert (forall x, version wl k x -> participants x = [] /\ isActive x = false) as Hcopies.
  { intros x [Hx|Hx]; [congruence|]. rewrite Hdoc in Hx. injection Hx as <-. auto. }
  split; [exists d; auto|]. split; [assumption|]. split; [assumption|].
  intros ops data <-.
  assert (ended wl (jm_meetingId data)) as Hended.
  { split; [assumption|]. split; [rewrite Hdoc; eauto|]. intros x Hx. apply Hcopies, Hx. }
  destruct (run_ended ops _ wl Hf' Hended) as (Hf2 & He2 & _).
  rewrite (joinMeeting_ended data _ Hf2 He2). reflexivity.
Qed.

(** C1, as the code has it. For a meeting that has ended (its
    identifier is well formed, its document exists, and [isActive] is
    false in its document and in its cached copy, if any), in a store
    that does not fail: after any calls the meeting has still ended and
    no participant has been added, the participants of each copy being
    a subsequence of those of a copy at the start (a leave still removes
    the participant of its session); if none of the calls is an
    [addMessage] on this meeting, each copy has the messages of a copy
    at the start; and a join then returns "Meeting is no longer active",
    writes nothing to the store, and leaves every copy of the meeting,
    participants and messages included, as it was. *)
Theorem ended_meeting_admits_no_participant (k : jsstring) (ops : list Op) (w : World) :
  faults w = [] ->
  ended w k ->
  let w' := run ops w in
  ended w' k
  /\ dwindled k w w'
  /\ (Forall (fun o => forall msg, o <> OpAddMessage k msg) ops -> keptMessages k w w')
  /\ (forall data,
        jm_meetingId data = k ->
        fst (joinMeeting data w') = Ok (joinFailure (lit "Meeting is no longer active"))
        /\ firestore (snd (joinMeeting data w')) = firestore w'
        /\ forall x, version (snd (joinMeeting data w')) k x <-> version w' k x).
Proof.
  intros Hf He. cbv zeta.
  destruct (run_ended ops k w Hf He) as (Hf' & He' & Hd').
  split; [assumption|]. split; [assumption|].
  split; [apply run_messages; assumption|].
  intros data <-. rewrite (joinMeeting_ended data _ Hf' He'). cbn.
  split; [reflexivity|]. split; [apply getMeetingById_firestore|].
  intros x. apply getMeetingById_version.
Qed.

(** C1 does not hold as stated: after Alice has ended the meeting with
    Bob and Carol in it, the document has [isActive] false; [addMessage]
    still succeeds and appends the message to the document, and the
    leave of Bob's session still removes Bob from it. *)
Lemma inactive_meeting_still_changes :
  (isActive <$> firestore Scenario.endedByHost !! Scenario.room) = Some false
  /\ activeMeetings Scenario.endedByHost !! Scenario.room = None
  /\ (messages <$> firestore Scenario.endedByHost !! Scenario.room) = Some []
  /\ fst (addMessage Scenario.room Scenario.hello Scenario.endedByHost) = Ok tt
  /\ (messages <$>
        firestore (snd (addMessage Scenario.room Scenario.hello Scenario.endedByHost))
        !! Scenario.room) = Some [Scenario.hello]
  /\ (participants <$> firestore Scenario.endedByHost !! Scenario.room)
     = Some [Scenario.bob; Scenario.carol]
  /\ (participants <$>
        firestore (snd (leaveMeeting Scenario.room (lit "s1") Scenario.endedByHost))
        !! Scenario.room) = Some [Scenario.carol].
Proof. vm_compute. repeat split; reflexivity. Qed.

(** C2 does not hold as stated: once Bob, the last participant, has
    left, the meeting is inactive and out of the cache while its
    document exists; [addMessage] then does not fail: it reads the
    store, appends the message and writes the list back. *)
Lemma addMessage_requeries_store :
  activeMeetings Scenario.deserted !! Scenario.room = None
  /\ (isActive <$> firestore Scenario.deserted !! Scenario.room) = Some false
  /\ fst (addMessage Scenario.room Scenario.hello Scenario.deserted) = Ok tt
  /\ dbLog (snd (addMessage Scenario.room Scenario.hello Scenario.deserted))
     = DbUpdate Scenario.room (mkPatch None (Some [Scenario.hello]) None None)
       :: DbGet Scenario.room :: dbLog Scenario.deserted
  /\ (messages <$>
        firestore (snd (addMessage Scenario.room Scenario.hello Scenario.deserted))
        !! Scenario.room) = Some [Scenario.hello].
Proof. vm_compute. repeat split; reflexivity. Qed.

(** ** The [join-meeting] handler *)

Lemma joinMeeting_result (data : JoinMeetingData) (w : World) :
  (exists msg, fst (joinMeeting data w) = Ok (joinFailure msg))
  \/ (exists m, fst (joinMeeting data w) = Ok (mkJoinResult true (Some m) None)).
Proof.
  rewrite joinMeeting_unfold. cbv zeta.
  destruct (getMeetingById (jm_meetingId data) w) as [[[m|]|e] w1]; cbn; eauto.
  destruct (isActive m); cbn; eauto.
  destruct (List.find _ (participants m)).
  - split_update; cbn; eauto.
  - destruct (maxParticipants m <=? _)%Z; cbn; eauto.
    split_update; cbn; eauto.
Qed.



(** ** The theorems at work on the example session *)

Lemma session_healthy (ops : list Op) : storeHealthy (run ops Scenario.start).
Proof. apply run_healthy, initial_healthy. Qed.

Lemma endMeeting_outcomes_witness :
  endMeeting (lit "999999") Scenario.alice Scenario.bobAlone
  = (Ok (mkEndResult false (Some (lit "Meeting not found"))),
     snd (getMeetingById (lit "999999") Scenario.bobAlone))
  /\ endMeeting Scenario.room (lit "bob") Scenario.bobAlone
     = (Ok (mkEndResult false (Some (lit "Only the host can end the meeting"))),
        snd (getMeetingById Scenario.room Scenario.bobAlone))
  /\ fst (endMeeting Scenario.room Scenario.alice Scenario.bobAlone)
     = Ok (mkEndResult true None)
  /\ activeMeetings (snd (endMeeting Scenario.room Scenario.alice Scenario.bobAlone))
     !! Scenario.room = None.
Proof.
  split; [|split].
  - apply (proj1 (endMeeting_outcomes (lit "999999") Scenario.alice Scenario.bobAlone)).
    vm_compute. reflexivity.
  - apply (proj1 (proj2 (endMeeting_outcomes Scenario.room (lit "bob") Scenario.bobAlone))
                 (Scenario.meetingOf [Scenario.bob])).
    + vm_compute. reflexivity.
    + vm_compute. discriminate.
  - destruct (proj2 (proj2 (endMeeting_outcomes Scenario.room Scenario.alice
                                                Scenario.bobAlone))
                    (Scenario.meetingOf [Scenario.bob]))
      as (d & _ & Hr & Hc & _).
    + vm_compute. reflexivity.
    + reflexivity.
    + apply session_healthy.
    + split; assumption.
Defined.

Lemma addMessage_outcomes_witness :
  fst (addMessage (lit "999999") Scenario.hello Scenario.deserted)
  = Throw (JsError (lit "Meeting not found"))
  /\ dbLog (snd (getMeetingById Scenario.room Scenario.deserted))
     = DbGet Scenario.room :: dbLog Scenario.deserted
  /\ activeMeetings (snd (addMessage Scenario.room Scenario.hello Scenario.deserted))
     !! Scenario.room
     = Some (setMessages [Scenario.hello] (setIsActive false (Scenario.meetingOf [])))
  /\ fst (addMessage Scenario.room Scenario.hello Scenario.bobAlone) = Ok tt
  /\ activeMeetings (snd (addMessage Scenario.room Scenario.hello Scenario.bobAlone))
     !! Scenario.room
     = Some (setMessages [Scenario.hello] (Scenario.meetingOf [Scenario.bob])).
Proof.
  split; [|split; [|split]].
  - apply (proj2 (proj1 (proj2 (addMessage_outcomes (lit "999999") Scenario.hello
                                                    Scenario.deserted)))).
    vm_compute. reflexivity.
  - apply (proj1 (proj1 (proj2 (proj2 (proj2 (addMessage_outcomes
                                                Scenario.room Scenario.hello
                                                Scenario.deserted))))
                        ltac:(vm_compute; reflexivity) ltac:(vm_compute; reflexivity))).
  - apply (proj2 (proj1 (proj2 (proj2 (proj2 (addMessage_outcomes
                                                Scenario.room Scenario.hello
                                                Scenario.deserted))))
                        ltac:(vm_compute; reflexivity) ltac:(vm_compute; reflexivity))
                 (setIsActive false (Scenario.meetingOf []))).
    + vm_compute. reflexivity.
    + vm_compute. reflexivity.
  - destruct (proj2 (proj2 (proj2 (proj2 (addMessage_outcomes
                                            Scenario.room Scenario.hello
                                            Scenario.bobAlone))))
                    (Scenario.meetingOf [Scenario.bob]))
      as (Hc & Hok & _).
    + vm_compute. reflexivity.
    + split; [|exact Hc].
      apply (Hok (Scenario.meetingOf [Scenario.bob])); vm_compute; reflexivity.
Defined.

Lemma joinMeeting_full_or_reconnect_witness :
  joinMeeting (Scenario.guestJoins 10) Scenario.full
  = (Ok (joinFailure (lit "Meeting is full (max 10 participants)")),
     snd (getMeetingById Scenario.room Scenario.full))
  /\ exists pre p post,
       Scenario.guests = pre ++ p :: post
       /\ uid p = lit "guest3"
       /\ fst (joinMeeting Scenario.guestReturns Scenario.full)
          = Ok (mkJoinResult true
                  (Some (Scenario.meetingOf
                           (pre ++ mkParticipant (uid p) (name p) (lit "g3b") (joinedAt p)
                                :: post)))
                  None).
Proof.
  assert (fst (getMeetingById Scenario.room Scenario.full)
          = Ok (Some (Scenario.meetingOf Scenario.guests))) as Hfound.
  { vm_compute. reflexivity. }
  assert (storeHealthy Scenario.full) as Hh.
  { apply session_healthy. }
  split.
  - apply (proj1 (joinMeeting_full_or_reconnect (Scenario.guestJoins 10) Scenario.full
                    (Scenario.meetingOf Scenario.guests) Hfound eq_refl)).
    + reflexivity.
    + reflexivity.
    + intros p Hp. vm_compute in Hp.
      repeat (destruct Hp as [<-|Hp]; [vm_compute; discriminate|]). destruct Hp.
  - destruct (proj2 (joinMeeting_full_or_reconnect Scenario.guestReturns Scenario.full
                       (Scenario.meetingOf Scenario.guests) Hfound eq_refl))
      as (pre & p & post & d & Hps & Hu & _ & _ & Hr & _).
    + exists (Scenario.guest 3). split; [vm_compute; tauto|reflexivity].
    + exact Hh.
    + exists pre, p, post. split; [exact Hps|]. split; [exact Hu|exact Hr].
Defined.

Lemma leave_of_last_participant_closes_meeting_witness :
  activeMeetings Scenario.deserted !! Scenario.room = None
  /\ fst (joinMeeting Scenario.carolJoins
            (run [OpGetParticipants Scenario.room;
                  OpAddMessage Scenario.room Scenario.hello]
                 Scenario.deserted))
     = Ok (joinFailure (lit "Meeting is no longer active")).
Proof.
  destruct (leave_of_last_participant_closes_meeting
              Scenario.room (lit "s1") Scenario.bob (Scenario.meetingOf [Scenario.bob])
              Scenario.bobAlone) as (_ & Hc & _ & Hj).
  - apply session_healthy.
  - vm_compute. reflexivity.
  - reflexivity.
  - reflexivity.
  - split; [exact Hc|].
    exact (Hj [OpGetParticipants Scenario.room; OpAddMessage Scenario.room Scenario.hello]
              Scenario.carolJoins eq_refl).
Defined.

Lemma ended_meeting_admits_no_participant_witness :
  ended (run [OpAddMessage Scenario.room Scenario.hello;
              OpLeave Scenario.room (lit "s1")] Scenario.endedByHost) Scenario.room
  /\ fst (joinMeeting Scenario.carolJoins
            (run [OpAddMessage Scenario.room Scenario.hello;
                  OpLeave Scenario.room (lit "s1")] Scenario.endedByHost))
     = Ok (joinFailure (lit "Meeting is no longer active"))
  /\ keptMessages Scenario.room Scenario.endedByHost
       (run [OpLeave Scenario.room (lit "s1"); OpJoin Scenario.carolJoins]
            Scenario.endedByHost).
Proof.
  assert (faults Scenario.endedByHost = []) as Hf.
  { vm_compute. reflexivity. }
  assert (ended Scenario.endedByHost Scenario.room) as He.
  { split; [vm_compute; reflexivity|]. split; [vm_compute; eauto|].
    intros m [Hm|Hm]; vm_compute in Hm; [discriminate|].
    injection Hm as <-. reflexivity. }
  destruct (ended_meeting_admits_no_participant
              Scenario.room
              [OpAddMessage Scenario.room Scenario.hello; OpLeave Scenario.room (lit "s1")]
              Scenario.endedByHost Hf He) as (He' & _ & _ & Hj).
  destruct (ended_meeting_admits_no_participant
              Scenario.room
              [OpLeave Scenario.room (lit "s1"); OpJoin Scenario.carolJoins]
              Scenario.endedByHost Hf He) as (_ & _ & Hm & _).
  split; [exact He'|]. split; [exact (proj1 (Hj Scenario.carolJoins eq_refl))|].
  apply Hm. repeat constructor; discriminate.
Defined.

Lemma joinMeeting_changes_participants_only_witness :
  exists ps',
    activeMeetings (snd (joinMeeting Scenario.bobJoins Scenario.created)) !! Scenario.room
    = Some (Scenario.meetingOf ps')
    /\ ps' = [Scenario.bob].
Proof.
  destruct (proj1 (proj2 (joinMeeting_changes_participants_only
                            Scenario.bobJoins Scenario.created))
                  (Scenario.meetingOf []))
    as (_ & ps' & Hc & _ & [(_ & _ & [Hno|[_ Hfull]])|[(_ & _ & _ & Hps)|(_ & Hre)]]).
  - vm_compute. reflexivity.
  - discriminate Hno.
  - vm_compute in Hfull. destruct (Hfull eq_refl).
  - exists ps'. split; [exact Hc|exact Hps].
  - destruct Hre as (pre & p & post & Hps & _). destruct pre; discriminate Hps.
Defined.

(** * Further properties of the code *)

Import Evolution Handlers.

(** ** Validation and identifiers *)

Lemma trim_keeps_iff (s : jsstring) :
  (0 < length (trim s))%nat <-> exists c, In c s /\ isWhiteSpace c = false.
Proof.
  split.
  - intros Hlen. destruct (blank_or_not s) as [Hall|He]; [|exact He].
    apply trim_nil in Hall. rewrite Hall in Hlen. cbn in Hlen. lia.
  - intros (c & Hin & Hc).
    destruct (trim s) eqn:Ht; [|cbn; lia].
    apply trim_nil in Ht. rewrite List.Forall_forall in Ht.
    specialize (Ht c Hin). congruence.
Qed.

(** [isValidUserData] accepts a user identifier and a name exactly when
    each of them has a code unit that is not white space: an empty or
    blank identifier or name is refused. *)
Theorem isValidUserData_iff (u n : jsstring) :
  isValidUserData u n = true <->
  (exists c, In c u /\ isWhiteSpace c = false)
  /\ (exists c, In c n /\ isWhiteSpace c = false).
Proof.
  unfold isValidUserData.
  rewrite andb_true_iff, !Nat.ltb_lt, !trim_keeps_iff. reflexivity.
Qed.

Lemma pretty_N_char_digit (x : N) : 48 <= N_of_ascii (pretty_N_char x) <= 57.
Proof.
  unfold pretty_N_char.
  repeat match goal with
         | |- context [match ?y with _ => _ end] => destruct y
         end; vm_compute; split; discriminate.
Qed.

Lemma pretty_six_digits (n : N) :
  100000 <= n < 1000000 ->
  exists d1 d2 d3 d4 d5 d6,
    1 <= d1 <= 9
    /\ pretty n = String (pretty_N_char d1) (String (pretty_N_char d2)
                    (String (pretty_N_char d3) (String (pretty_N_char d4)
                       (String (pretty_N_char d5)
                          (String (pretty_N_char d6) EmptyString))))).
Proof.
  intros Hn. unfold pretty, pretty_N.
  destruct (decide (n = 0)) as [->|_]; [lia|].
  assert (forall a b, 0 < b -> b <= a -> 0 < a / b) as Hpos.
  { intros a b Hb Hab. apply N.div_str_pos. lia. }
  rewrite pretty_N_go_step by lia.
  rewrite pretty_N_go_step by (apply Hpos; lia).
  rewrite !N.Div0.div_div.
  rewrite pretty_N_go_step by (apply Hpos; lia).
  rewrite !N.Div0.div_div.
  rewrite pretty_N_go_step by (apply Hpos; lia).
  rewrite !N.Div0.div_div.
  rewrite pretty_N_go_step by (apply Hpos; lia).
  rewrite !N.Div0.div_div.
  rewrite pretty_N_go_step by (apply Hpos; lia).
  rewrite !N.Div0.div_div.
  replace (n / (10 * 10 * 10 * 10 * 10 * 10)) with 0
    by (symmetry; apply N.div_small; lia).
  rewrite pretty_N_go_0.
  exists ((n / (10 * 10 * 10 * 10 * 10)) `mod` 10). do 5 eexists. split; [|reflexivity].
  change (10 * 10 * 10 * 10 * 10) with 100000.
  assert (1 <= n / 100000) by (apply N.div_le_lower_bound; lia).
  assert (n / 100000 < 10) by (apply N.Div0.div_lt_upper_bound; lia).
  rewrite N.mod_small by assumption. lia.
Qed.

Lemma generateMeetingId_accepted (r : N) :
  isValidMeetingId (generateMeetingId r) = true.
Proof.
  unfold generateMeetingId, ofN.
  destruct (pretty_six_digits (100000 + r mod 900000))
    as (d1 & d2 & d3 & d4 & d5 & d6 & _ & ->).
  { assert (r mod 900000 < 900000) as Hr by (apply N.mod_upper_bound; discriminate).
    revert Hr. generalize (r mod 900000). intros x Hx. lia. }
  apply isValidMeetingId_iff. split; [reflexivity|].
  unfold lit. cbn [list_ascii_of_string map].
  repeat constructor; apply pretty_N_char_digit.
Qed.

Lemma lit_inj (a b : string) : lit a = lit b -> a = b.
Proof.
  unfold lit. revert b. induction a as [|c a IH]; intros [|d b]; cbn; try discriminate.
  - reflexivity.
  - intros [= Hc Hab]. f_equal.
    + rewrite <- (ascii_N_embedding c), <- (ascii_N_embedding d). congruence.
    + apply IH, Hab.
Qed.

(** Every identifier that [generateMeetingId] produces is accepted by
    [isValidMeetingId] and does not begin with the digit 0, and two
    identifiers are the same exactly when the numbers floored,
    [Math.floor(100000 + Math.random() * 900000)], are the same: there
    are 900000 identifiers. The number floored is 100000 + [r] with
    [r] reduced below 900000. *)
Theorem generateMeetingId_valid (r1 r2 : N) :
  isValidMeetingId (generateMeetingId r1) = true
  /\ (exists d ds, generateMeetingId r1 = d :: ds /\ 49 <= d <= 57)
  /\ (generateMeetingId r1 = generateMeetingId r2 <->
      100000 + r1 mod 900000 = 100000 + r2 mod 900000).
Proof.
  split; [apply generateMeetingId_accepted|]. unfold generateMeetingId, ofN. split.
  - destruct (pretty_six_digits (100000 + r1 mod 900000))
      as (d1 & d2 & d3 & d4 & d5 & d6 & Hd1 & ->).
    { assert (r1 mod 900000 < 900000) as Hr by (apply N.mod_upper_bound; discriminate).
      revert Hr. generalize (r1 mod 900000). intros x Hx. lia. }
    unfold lit. cbn [list_ascii_of_string map]. eexists _, _. split; [reflexivity|].
    unfold pretty_N_char.
    destruct d1 as [|[[[|[]|]|[[]|[]|]|]|[[[]|[]|]|[[]|[]|]|]|]]; try lia;
      vm_compute; split; discriminate.
  - split.
    + intros H. apply lit_inj in H. apply (inj pretty) in H. exact H.
    + intros ->. reflexivity.
Qed.

(** ** Where the copies of a meeting come from, whatever the store does *)

Section Provenance.

Lemma getMeetingById_serverTimes (k : jsstring) (w : World) :
  serverTimes (snd (getMeetingById k w)) = serverTimes w.
Proof.
  rewrite getMeetingById_unfold.
  destruct (isValidMeetingId k); [|reflexivity].
  destruct (activeMeetings w !! k); [reflexivity|].
  destruct (hd false (faults w)); [reflexivity|].
  destruct (firestore w !! k); reflexivity.
Qed.

Lemma getMeetingById_summaryJobs (k : jsstring) (w : World) :
  summaryJobs (snd (getMeetingById k w)) = summaryJobs w.
Proof.
  rewrite getMeetingById_unfold.
  destruct (isValidMeetingId k); [|reflexivity].
  destruct (activeMeetings w !! k); [reflexivity|].
  destruct (hd false (faults w)); [reflexivity|].
  destruct (firestore w !! k); reflexivity.
Qed.

(** The copies after a join, with the list of participants it wrote. *)
Lemma joinMeeting_provenance (data : JoinMeetingData) (k : jsstring) (w : World)
      (x : Meeting) :
  version (snd (joinMeeting data w)) k x ->
  version w k x
  \/ (k = jm_meetingId data /\ exists m ps,
        version w k m
        /\ isActive m = true
        /\ participantsStep (maxParticipants m) (participants m) ps
        /\ (x = setParticipants ps m
            \/ exists d,
                 version w k d
                 /\ x = applyPatch (mkPatch (Some ps) None None None) d)).
Proof.
  rewrite joinMeeting_unfold. cbv zeta.
  pose proof (getMeetingById_version (jm_meetingId data) k w) as Hv.
  pose proof (getMeetingById_total (jm_meetingId data) w) as [found Hfound].
  destruct found as [m|].
  2:{ destruct (getMeetingById _ w) as [o w1]. cbn in Hfound, Hv. subst o.
      intros H. left. apply Hv, H. }
  pose proof (getMeetingById_found_version _ _ _ Hfound) as Hm.
  destruct (getMeetingById _ w) as [o w1]. cbn in Hfound, Hv. subst o.
  destruct (isActive m) eqn:Ha; [|intros H; left; apply Hv, H].
  assert (forall ps (ok : Outcome JoinResult) (ko : Exn -> Outcome JoinResult),
            participantsStep (maxParticipants m) (participants m) ps ->
            version (snd (match dbUpdate (jm_meetingId data)
                                         (mkPatch (Some ps) None None None)
                                         (withCache (<[jm_meetingId data := setParticipants ps m]>
                                                       (activeMeetings w1)) w1) with
                          | (Ok _, w3) =>
                              (ok, withCache (<[jm_meetingId data := setParticipants ps m]>
                                                (activeMeetings w3)) w3)
                          | (Throw e, w3) => (ko e, w3)
                          end)) k x ->
            version w k x
            \/ (k = jm_meetingId data /\ exists m0 ps0,
                  version w k m0 /\ isActive m0 = true
                  /\ participantsStep (maxParticipants m0) (participants m0) ps0
                  /\ (x = setParticipants ps0 m0
                      \/ exists d, version w k d
                           /\ x = applyPatch (mkPatch (Some ps0) None None None) d)))
    as Hcommit.
  { intros ps ok ko Hps H.
    apply commit_versions in H as [H|(-> & [->|(d & Hd & ->)])].
    - left. apply Hv, H.
    - right. split; [reflexivity|]. exists m, ps. auto.
    - right. split; [reflexivity|]. exists m, ps. split; [assumption|].
      split; [assumption|]. split; [assumption|].
      right. exists d. split; [apply Hv, Hd|reflexivity]. }
  destruct (List.find _ (participants m)) eqn:Hfind.
  - apply (Hcommit _ _ (fun _ => _)). constructor.
  - destruct (maxParticipants m <=? _)%Z eqn:Hfull; [intros H; left; apply Hv, H|].
    apply (Hcommit _ _ (fun _ => _)). apply ps_append.
    + apply find_uid_none, Hfind.
    + apply Z.leb_gt, Hfull.
Qed.

Lemma retryMeetingId_any (fuel : nat) (k : jsstring) (found : option Meeting) (w : World) :
  let r := retryMeetingId fuel k found w in
  (forall k' m, version (snd r) k' m <-> version w k' m)
  /\ clock (snd r) = clock w
  /\ exists picked,
       fst r = Ok picked
       /\ (isValidMeetingId k = true ->
           forall k', picked = Some k' -> isValidMeetingId k' = true).
Proof.
  revert k found w. induction fuel as [|fuel IH]; intros k found w.
  - destruct found as [c|]; cbn.
    + split; [reflexivity|]. split; [reflexivity|]. exists None.
      split; [reflexivity|discriminate].
    + split; [reflexivity|]. split; [reflexivity|]. exists (Some k).
      split; [reflexivity|]. intros Hk k' [= <-]. exact Hk.
  - destruct found as [c|]; cbn.
    2:{ split; [reflexivity|]. split; [reflexivity|]. exists (Some k).
        split; [reflexivity|]. intros Hk k' [= <-]. exact Hk. }
    unfold bind.
    assert (exists r wr, random w = (Ok r, wr)
                         /\ activeMeetings wr = activeMeetings w
                         /\ firestore wr = firestore w
                         /\ clock wr = clock w) as (r & wr & -> & Hc & Hd & Ht).
    { unfold random. destruct (draws w); eauto 10. }
    pose proof (getMeetingById_total (generateMeetingId r) wr) as [found' Hfound].
    pose proof (fun k m => getMeetingById_version (generateMeetingId r) k wr m) as Hv.
    pose proof (getMeetingById_clock (generateMeetingId r) wr) as Ht'.
    destruct (getMeetingById (generateMeetingId r) wr) as [o wl].
    cbn in Hfound, Hv, Ht'. subst o.
    destruct (IH (generateMeetingId r) found' wl) as (IH1 & IH2 & picked & IH3 & IH4).
    split; [|split; [congruence|]].
    + intros k' m. rewrite IH1, Hv. unfold version. rewrite Hc, Hd. reflexivity.
    + exists picked. split; [assumption|]. intros _. apply IH4.
      apply generateMeetingId_accepted.
Qed.

Lemma retryMeetingId_serverTimes (fuel : nat) (k : jsstring) (found : option Meeting)
      (w : World) :
  serverTimes (snd (retryMeetingId fuel k found w)) = serverTimes w.
Proof.
  revert k found w. induction fuel as [|fuel IH]; intros k found w.
  - destruct found; reflexivity.
  - destruct found as [c|]; [|reflexivity]. cbn. unfold bind.
    assert (exists r wr, random w = (Ok r, wr) /\ serverTimes wr = serverTimes w)
      as (r & wr & -> & Hr).
    { unfold random. destruct (draws w); eauto. }
    pose proof (getMeetingById_serverTimes (generateMeetingId r) wr) as Hs.
    pose proof (getMeetingById_total (generateMeetingId r) wr) as [found' Hfound].
    destruct (getMeetingById (generateMeetingId r) wr) as [o wl].
    cbn in Hs, Hfound. subst o. rewrite IH. congruence.
Qed.

(** What a creation does: it looks candidates up, which makes no new
    copy; then it gives up, or fails to write the new meeting and
    throws, or writes it to the store, with the time of the store, and
    to the cache, with the local time. *)
Lemma createMeeting_cases (fuel : nat) (data : MeetingCreateData) (w : World) :
  exists wp,
    (forall k m, version wp k m <-> version w k m)
    /\ firestore wp = firestore w
    /\ (createMeeting fuel data w = (Ok None, wp)
        \/ exists k',
             isValidMeetingId k' = true
             /\ (faults w = [] -> faults wp = [] /\ forall m, ~ version wp k' m)
             /\ let meeting := freshMeeting k' (mc_createdBy data) (clock w) in
                let stored := freshMeeting k' (mc_createdBy data) (serverTime w) in
                let wq := withServerTimes (tail (serverTimes w)) wp in
                (hd false (faults wp) = true
                 /\ createMeeting fuel data w
                    = (Throw (JsError (lit "Failed to create meeting")),
                       afterCall (DbSet k' stored) wq))
                \/ (hd false (faults wp) = false
                    /\ createMeeting fuel data w
                       = (Ok (Some meeting),
                          withCache (<[k' := meeting]> (activeMeetings wp))
                            (withFirestore (<[k' := stored]> (firestore wp))
                               (afterCall (DbSet k' stored) wq))))).
Proof.
  remember (createMeeting fuel data w) as res eqn:Hres. revert Hres.
  unfold createMeeting, tryCatch. unfold bind at 1.
  assert (exists r wr, random w = (Ok r, wr)
                       /\ activeMeetings wr = activeMeetings w
                       /\ firestore wr = firestore w
                       /\ faults wr = faults w
                       /\ clock wr = clock w
                       /\ serverTimes wr = serverTimes w)
    as (r & wr & -> & Hc & Hd & Hfr & Ht & Hst).
  { unfold random. destruct (draws w); eauto 10. }
  unfold bind at 1.
  pose proof (getMeetingById_total (generateMeetingId r) wr) as [found' Hfound].
  pose proof (getMeetingById_faults (generateMeetingId r) wr) as Hf'.
  pose proof (fun k m => getMeetingById_version (generateMeetingId r) k wr m) as Hv.
  pose proof (getMeetingById_none_fresh (generateMeetingId r) wr) as Hn.
  pose proof (getMeetingById_firestore (generateMeetingId r) wr) as Hs.
  pose proof (getMeetingById_clock (generateMeetingId r) wr) as Ht'.
  pose proof (getMeetingById_serverTimes (generateMeetingId r) wr) as Hst'.
  destruct (getMeetingById (generateMeetingId r) wr) as [o wl].
  cbn in Hfound, Hf', Hv, Hn, Hs, Ht', Hst'. subst o.
  unfold bind at 1.
  pose proof (retryMeetingId_any fuel (generateMeetingId r) found' wl) as Hany.
  pose proof (retryMeetingId_fresh fuel (generateMeetingId r) found' wl) as Hfresh.
  pose proof (retryMeetingId_firestore fuel (generateMeetingId r) found' wl) as Hs2.
  pose proof (retryMeetingId_serverTimes fuel (generateMeetingId r) found' wl) as Hst2.
  cbv zeta in Hany, Hfresh.
  destruct Hany as (Hv2 & Ht2 & picked & Hp & Hvalid).
  destruct (retryMeetingId fuel (generateMeetingId r) found' wl) as [o wp].
  cbn in Hv2, Ht2, Hp, Hvalid, Hs2, Hfresh, Hst2. subst o.
  assert (forall k m, version wp k m <-> version w k m) as Hsame.
  { intros k m. rewrite Hv2, Hv. unfold version. rewrite Hc, Hd. reflexivity. }
  destruct picked as [k'|].
  2:{ cbn. intros ->. exists wp. split; [assumption|]. split; [congruence|].
      left. reflexivity. }
  svc_unfold. unfold dbSetStamped, dbSet, bind, storeCall, modifyWorld, serverTime.
  cbn [faults withServerTimes setCreatedAt meetingId createdBy createdAt participants
       messages summary isActive maxParticipants].
  replace (clock wp) with (clock w) by congruence.
  replace (serverTimes wp) with (serverTimes w) by congruence.
  fold (freshMeeting k' (mc_createdBy data) (clock w)).
  fold (freshMeeting k' (mc_createdBy data) (hd (clock w) (serverTimes w))).
  intros Hres. exists wp. split; [assumption|]. split; [congruence|]. right.
  exists k'. split; [exact (Hvalid (generateMeetingId_accepted r) k' eq_refl)|].
  split.
  - intros Hf. destruct Hfresh as (Hf2 & _ & picked & Hp & Hfr2).
    { apply Hf'. congruence. }
    { intros -> Hval m. apply Hn; [congruence|reflexivity|assumption]. }
    split; [assumption|]. injection Hp as <-. intros m.
    apply Hfr2; [reflexivity|].
    exact (Hvalid (generateMeetingId_accepted r) k' eq_refl).
  - cbv zeta. subst res. unfold serverTime.
    destruct (hd false (faults wp)); [left|right]; split; reflexivity.
Qed.


(** Every copy of a meeting after a step is a new meeting that a
    creation has just made (with the local time in the cache and the
    time of the store in the document), or has the identity of a copy
    [d] before
    the step and the participants of a copy [m] before it, rewritten in
    one of the ways of [participantsStep]. *)
Lemma step_provenance (o : Op) (k : jsstring) (w : World) (x : Meeting) :
  version (step o w) k x ->
  (exists creator, x = freshMeeting k creator (clock w)
                   \/ x = freshMeeting k creator (serverTime w))
  \/ exists m d,
       version w k m /\ version w k d
       /\ meetingId x = meetingId d
       /\ createdBy x = createdBy d
       /\ createdAt x = createdAt d
       /\ maxParticipants x = maxParticipants d
       /\ participantsStep (maxParticipants m) (participants m) (participants x)
       /\ (isActive x = true -> isActive m = true).
Proof.
  assert (forall y, version w k y ->
            (exists creator, y = freshMeeting k creator (clock w)
                             \/ y = freshMeeting k creator (serverTime w))
            \/ exists m d,
                 version w k m /\ version w k d
                 /\ meetingId y = meetingId d
                 /\ createdBy y = createdBy d
                 /\ createdAt y = createdAt d
                 /\ maxParticipants y = maxParticipants d
                 /\ participantsStep (maxParticipants m) (participants m) (participants y)
                 /\ (isActive y = true -> isActive m = true)) as Hold.
  { intros y Hy. right. exists y, y. repeat split; auto. constructor. }
  destruct o as [fuel data|k0|k0 u|data|k0 sid|k0 msg|k0|s|t]; cbn [step].
  - destruct (createMeeting_cases fuel data w) as (wp & Hsame & _ & [->|(k' & _ & _ & Hc)]).
    { cbn. intros Hx. apply Hold, Hsame, Hx. }
    cbv zeta in Hc. destruct Hc as [[_ ->]|[_ ->]]; cbn [snd].
    + intros Hx. apply Hold, Hsame, Hx.
    + unfold version. cbn. destruct (decide (k = k')) as [<-|Hk].
      * rewrite !lookup_insert_eq. intros [[= <-]|[= <-]]; left; eauto.
      * rewrite !lookup_insert_ne by congruence. intros Hx. apply Hold, Hsame, Hx.
  - rewrite getMeetingById_version. apply Hold.
  - intros Hx. apply endMeeting_versions in Hx as [Hx|(-> & d & Hd & ->)]; [auto|].
    right. exists d, d. repeat split; auto; [constructor|discriminate].
  - intros Hx.
    apply joinMeeting_provenance in Hx
      as [Hx|(-> & m & ps & Hm & Ha & Hps & [->|(d & Hd & ->)])]; [auto| |].
    + right. exists m, m. repeat split; auto.
    + right. exists m, d. repeat split; auto.
  - intros Hx.
    apply leaveMeeting_versions in Hx as [Hx|(-> & m & Hm & [->|(d & b & Hd & Hb & ->)])];
      [auto| |].
    + right. exists m, m. repeat split; auto. apply ps_filter.
    + right. exists m, d. repeat split; auto; [apply ps_filter|].
      cbn. destruct Hb as [->| ->]; [discriminate|auto].
  - intros Hx.
    apply addMessage_versions in Hx as [Hx|(-> & m & Hm & [->|(d & Hd & ->)])];
      [auto| |].
    + right. exists m, m. repeat split; auto. constructor.
    + right. exists d, d. repeat split; auto. constructor.
  - rewrite getParticipants_unfold, getMeetingById_version. apply Hold.
  - intros Hx. apply summaryReady_versions in Hx as [Hx|(d & Hd & ->)]; [auto|].
    right. exists d, d. repeat split; auto. constructor.
  - apply Hold.
Qed.

Lemma reconnect_uids (u s : jsstring) (ps : list Participant) :
  map uid (reconnect u s ps) = map uid ps.
Proof.
  induction ps as [|q ps IH]; cbn; [reflexivity|].
  destruct (bool_decide (uid q = u)); cbn; congruence.
Qed.

Lemma filter_uids_NoDup (f : Participant -> bool) (ps : list Participant) :
  NoDup (map uid ps) -> NoDup (map uid (List.filter f ps)).
Proof.
  induction ps as [|q ps IH]; cbn; [auto|].
  intros H. apply NoDup_cons in H as [Hq Hps].
  destruct (f q); cbn; [|auto].
  apply NoDup_cons. split; [|auto].
  intros Hin. apply Hq. apply list_elem_of_In in Hin. apply list_elem_of_In.
  apply in_map_iff in Hin as (p & Hp & Hin).
  apply in_map_iff. exists p. split; [assumption|].
  apply filter_In in Hin. tauto.
Qed.

Lemma filter_length_le {A : Type} (f : A -> bool) (l : list A) :
  (length (List.filter f l) <= length l)%nat.
Proof.
  induction l as [|a l IH]; cbn; [lia|]. destruct (f a); cbn; lia.
Qed.

End Provenance.

(** ** Invariants of the meetings *)

(** No sequence of calls, whatever the store does, brings a meeting
    above its maximum: if every copy of every meeting has the maximum
    of 10 and at most 10 participants, so it is after the calls. *)
Theorem run_keeps_capacity (ops : list Op) (w : World) :
  (forall k m, version w k m ->
     maxParticipants m = MAX_PARTICIPANTS /\ (length (participants m) <= 10)%nat) ->
  forall k m, version (run ops w) k m ->
    maxParticipants m = MAX_PARTICIPANTS /\ (length (participants m) <= 10)%nat.
Proof.
  revert w. induction ops as [|o ops IH]; intros w Hw; [exact Hw|].
  cbn. apply IH. intros k x Hx.
  apply step_provenance in Hx
    as [[creator [-> | ->]]|(m & d & Hm & Hd & _ & _ & _ & Hmax & Hps & _)].
  - cbn. split; [reflexivity|lia].
  - cbn. split; [reflexivity|lia].
  - destruct (Hw k m Hm) as [Hm1 Hm2]. destruct (Hw k d Hd) as [Hd1 _].
    split; [congruence|]. rewrite Hm1 in Hps. unfold MAX_PARTICIPANTS in Hps.
    destruct Hps as [|u s|p _ Hlt|f].
    + assumption.
    + rewrite reconnect_length. assumption.
    + rewrite length_app. cbn. lia.
    + pose proof (filter_length_le f (participants m)). lia.
Qed.

(** No sequence of calls, whatever the store does, lets a user be twice
    in a meeting: if the participants of every copy of every meeting
    have distinct user identifiers, so it is after the calls. *)
Theorem run_keeps_users_distinct (ops : list Op) (w : World) :
  (forall k m, version w k m -> NoDup (map uid (participants m))) ->
  forall k m, version (run ops w) k m -> NoDup (map uid (participants m)).
Proof.
  revert w. induction ops as [|o ops IH]; intros w Hw; [exact Hw|].
  cbn. apply IH. intros k x Hx.
  apply step_provenance in Hx
    as [[creator [-> | ->]]|(m & d & Hm & _ & _ & _ & _ & _ & Hps & _)].
  - cbn. constructor.
  - cbn. constructor.
  - specialize (Hw k m Hm). destruct Hps as [|u s|p Hnew _|f].
    + assumption.
    + rewrite reconnect_uids. assumption.
    + rewrite map_app. cbn. apply NoDup_app. split; [assumption|].
      split; [|apply NoDup_singleton].
      intros u Hu Hp. apply list_elem_of_In in Hu. apply in_map_iff in Hu as (q & Hq & Hin).
      apply list_elem_of_In in Hp. destruct Hp as [Hp|[]].
      apply (Hnew q Hin). congruence.
    + apply filter_uids_NoDup. assumption.
Qed.


Lemma commit_keeps_documents {A : Type} (k0 k : jsstring) (p : Patch) (m' : Meeting)
      (w1 : World) (ok : A) (ko : Exn -> A) :
  is_Some (firestore w1 !! k) ->
  is_Some (firestore
             (snd (match dbUpdate k0 p (withCache (<[k0 := m']> (activeMeetings w1)) w1) with
                   | (Ok _, w3) => (ok, withCache (<[k0 := m']> (activeMeetings w3)) w3)
                   | (Throw e, w3) => (ko e, w3)
                   end)) !! k).
Proof.
  intros Hk. pose proof (commit_world k0 p m' w1 ok ko) as (_ & Hd & _).
  cbv zeta in Hd. destruct Hd as [->|(d & Hd & ->)]; [assumption|].
  destruct (decide (k = k0)) as [->|Hne].
  - rewrite lookup_insert_eq. eauto.
  - rewrite lookup_insert_ne by congruence. assumption.
Qed.

Lemma step_keeps_document (o : Op) (k : jsstring) (w : World) :
  is_Some (firestore w !! k) -> is_Some (firestore (step o w) !! k).
Proof.
  intros Hk. destruct o as [fuel data|k0|k0 u|data|k0 sid|k0 msg|k0|s|t]; cbn [step].
  - destruct (createMeeting_cases fuel data w) as (wp & _ & Hs & [->|(k' & _ & _ & Hc)]).
    { cbn. rewrite Hs. exact Hk. }
    cbv zeta in Hc. destruct Hc as [[_ ->]|[_ ->]]; cbn.
    + rewrite Hs. exact Hk.
    + destruct (decide (k = k')) as [<-|Hne].
      * rewrite lookup_insert_eq. eauto.
      * rewrite lookup_insert_ne by congruence. rewrite Hs. exact Hk.
  - apply getMeetingById_keeps_documents, Hk.
  - rewrite endMeeting_unfold.
    pose proof (getMeetingById_keeps_documents k0 k w Hk) as Hk1.
    destruct (getMeetingById k0 w) as [[[m|]|e] w1]; cbn in Hk1; auto.
    destruct (bool_decide (createdBy m = u)); [|auto]. cbv zeta.
    match goal with
    | |- context [dbUpdate ?a ?b ?c] =>
        pose proof (dbUpdate_keeps_documents a k b c) as Hu;
          destruct (dbUpdate a b c) as [[[]|] ?]
    end; cbn in Hu |- *; apply Hu;
      destruct (0 <? length (messages m))%nat; cbn; assumption.
  - rewrite joinMeeting_unfold. cbv zeta.
    pose proof (getMeetingById_keeps_documents (jm_meetingId data) k w Hk) as Hk1.
    destruct (getMeetingById (jm_meetingId data) w) as [[[m|]|e] w1]; cbn in Hk1; auto.
    destruct (isActive m); [|auto].
    destruct (List.find _ (participants m)).
    + apply (commit_keeps_documents _ _ _ _ _ _ (fun _ => _)); assumption.
    + destruct (maxParticipants m <=? _)%Z; [auto|].
      apply (commit_keeps_documents _ _ _ _ _ _ (fun _ => _)); assumption.
  - rewrite leaveMeeting_unfold.
    pose proof (getMeetingById_keeps_documents k0 k w Hk) as Hk1.
    destruct (getMeetingById k0 w) as [[[m|]|e] w1]; cbn in Hk1; auto.
    cbv zeta. destruct (length _ =? 0)%nat; cbn [snd]; apply dbUpdate_keeps_documents;
      try assumption; destruct (0 <? length (messages m))%nat; cbn; assumption.
  - rewrite addMessage_unfold.
    pose proof (getMeetingById_keeps_documents k0 k w Hk) as Hk1.
    destruct (getMeetingById k0 w) as [[[m|]|e] w1]; cbn in Hk1; auto.
    cbv zeta. destruct (forallb definedMessage _); [|cbn; assumption].
    apply (commit_keeps_documents _ _ _ _ _ _ (fun e => Throw e)); assumption.
  - rewrite getParticipants_unfold. apply getMeetingById_keeps_documents, Hk.
  - rewrite summaryReady_unfold. destruct (summaryJobs w) as [|[k0 ms] rest]; [auto|].
    apply dbUpdate_keeps_documents. exact Hk.
  - exact Hk.
Qed.

(** A meeting that is cached after a step had a copy before it, or has
    its document now. *)
Lemma step_cached_origin (o : Op) (k : jsstring) (w : World) (x : Meeting) :
  activeMeetings (step o w) !! k = Some x ->
  (exists y, version w k y) \/ is_Some (firestore (step o w) !! k).
Proof.
  intros Hx. assert (version (step o w) k x) as Hv by (left; exact Hx). revert Hx Hv.
  destruct o as [fuel data|k0|k0 u|data|k0 sid|k0 msg|k0|s|t]; cbn [step]; intros Hx.
  - destruct (createMeeting_cases fuel data w) as (wp & Hsame & _ & [Hc|(k' & _ & _ & Hc)]).
    { rewrite Hc. cbn. intros Hv. left. exists x. apply Hsame, Hv. }
    cbv zeta in Hc. destruct Hc as [[_ Hc]|[_ Hc]]; rewrite Hc; cbn [snd].
    + intros Hv. left. exists x. apply Hsame, Hv.
    + unfold version. cbn. destruct (decide (k = k')) as [<-|Hk].
      * intros _. right. rewrite lookup_insert_eq. eauto.
      * rewrite !lookup_insert_ne by congruence. intros Hv. left. exists x.
        apply Hsame, Hv.
  - rewrite getMeetingById_version. eauto.
  - intros Hv. apply endMeeting_versions in Hv as [Hv|(-> & d & Hd & ->)]; eauto.
  - intros Hv. apply joinMeeting_versions in Hv as [Hv|(-> & m & ps & Hm & _)]; eauto.
  - intros Hv. apply leaveMeeting_versions in Hv as [Hv|(-> & m & Hm & _)]; eauto.
  - intros Hv. apply addMessage_versions in Hv as [Hv|(-> & m & Hm & _)]; eauto.
  - rewrite getParticipants_unfold, getMeetingById_version. eauto.
  - intros Hv. apply summaryReady_versions in Hv as [Hv|(d & Hd & ->)]; eauto.
  - eauto.
Qed.

(** The service never deletes a document and never caches a meeting
    that has none: whatever the calls and the failures of the store, a
    meeting that has its document keeps one, and if every cached
    meeting has its document, so it is after the calls. *)
Theorem run_keeps_documents (ops : list Op) (w : World) :
  (forall k, is_Some (firestore w !! k) -> is_Some (firestore (run ops w) !! k))
  /\ ((forall k, is_Some (activeMeetings w !! k) -> is_Some (firestore w !! k)) ->
      forall k, is_Some (activeMeetings (run ops w) !! k) ->
                is_Some (firestore (run ops w) !! k)).
Proof.
  revert w. induction ops as [|o ops IH]; intros w; [split; auto|].
  cbn. destruct (IH (step o w)) as [IH1 IH2]. split.
  - intros k Hk. apply IH1, step_keeps_document, Hk.
  - intros Hb. apply IH2. intros k [x Hx].
    destruct (step_cached_origin o k w x Hx) as [[y Hy]|Hd]; [|exact Hd].
    apply step_keeps_document.
    destruct Hy as [Hy|Hy]; [apply Hb|]; rewrite Hy; eauto.
Qed.

(** ** Joining, further *)

Lemma getMeetingById_cached (k : jsstring) (w : World) (m : Meeting) :
  isValidMeetingId k = true ->
  activeMeetings w !! k = Some m ->
  getMeetingById k w = (Ok (Some m), w).
Proof. intros Hv Hc. rewrite getMeetingById_unfold, Hv, Hc. reflexivity. Qed.

Lemma found_healthy (k : jsstring) (w : World) (m : Meeting) :
  storeHealthy w ->
  fst (getMeetingById k w) = Ok (Some m) ->
  exists d,
    firestore w !! k = Some d
    /\ faults (snd (getMeetingById k w)) = []
    /\ firestore (snd (getMeetingById k w)) = firestore w
    /\ activeMeetings (snd (getMeetingById k w)) !! k = Some m.
Proof.
  intros Hh Hf. destruct (getMeetingById_backed k w m Hh Hf) as [d Hd]. exists d.
  split; [assumption|]. split; [apply getMeetingById_faults, Hh|].
  split; [apply getMeetingById_firestore|]. apply (getMeetingById_found k w m Hf).
Qed.

(** A user who is not in an active meeting below its maximum is let in
    (the store not failing): the join succeeds and the meeting gets one
    more participant, last, with the user's identifier, name and
    session and the current time; the cache holds the new meeting and
    the document the new list. *)
Theorem joinMeeting_admits_new_user (data : JoinMeetingData) (w : World) (m : Meeting) :
  fst (getMeetingById (jm_meetingId data) w) = Ok (Some m) ->
  isActive m = true ->
  (forall q, In q (participants m) -> uid q <> jm_uid data) ->
  (Z.of_nat (length (participants m)) < maxParticipants m)%Z ->
  storeHealthy w ->
  exists d,
    firestore w !! jm_meetingId data = Some d
    /\ let ps' := participants m ++
                  [mkParticipant (jm_uid data) (jm_name data) (jm_socketId data) (clock w)] in
       fst (joinMeeting data w) = Ok (mkJoinResult true (Some (setParticipants ps' m)) None)
       /\ activeMeetings (snd (joinMeeting data w)) !! jm_meetingId data
          = Some (setParticipants ps' m)
       /\ firestore (snd (joinMeeting data w))
          = <[jm_meetingId data := setParticipants ps' d]> (firestore w).
Proof.
  intros Hf Ha Hnew Hroom Hh.
  destruct (found_healthy _ w m Hh Hf) as (d & Hd & Hfl & Hs & Hc). exists d.
  split; [assumption|]. cbv zeta. rewrite joinMeeting_unfold. cbv zeta.
  pose proof (getMeetingById_clock (jm_meetingId data) w) as Ht.
  destruct (getMeetingById (jm_meetingId data) w) as [o w1].
  cbn in Hf, Hfl, Hs, Hc, Ht. subst o. rewrite Ha.
  rewrite (proj2 (find_uid_none _ _) Hnew).
  rewrite (proj2 (Z.leb_gt _ _) Hroom).
  rewrite (dbUpdate_accepted _ _ _ d); [|assumption|cbn; congruence].
  cbn. rewrite Hs, Ht, lookup_insert_eq. auto.
Qed.

(** A join that does not succeed leaves the store as it was, whatever
    the reason and whatever the store does. *)
Theorem joinMeeting_failure_keeps_store (data : JoinMeetingData) (w : World)
        (r : JoinResult) :
  fst (joinMeeting data w) = Ok r ->
  success r = false ->
  firestore (snd (joinMeeting data w)) = firestore w.
Proof.
  rewrite joinMeeting_unfold. cbv zeta.
  pose proof (getMeetingById_firestore (jm_meetingId data) w) as Hs.
  destruct (getMeetingById (jm_meetingId data) w) as [[[m|]|e] w1]; cbn in Hs;
    try (intros; exact Hs).
  destruct (isActive m); [|intros; exact Hs].
  assert (forall m',
            fst (match dbUpdate (jm_meetingId data)
                                (mkPatch (Some (participants m')) None None None)
                                (withCache (<[jm_meetingId data := m']> (activeMeetings w1)) w1)
                 with
                 | (Ok _, w3) =>
                     (Ok (mkJoinResult true (Some m') None),
                      withCache (<[jm_meetingId data := m']> (activeMeetings w3)) w3)
                 | (Throw _, w3) => (Ok (joinFailure (lit "Failed to join meeting")), w3)
                 end) = Ok r ->
            success r = false ->
            firestore
              (snd (match dbUpdate (jm_meetingId data)
                                   (mkPatch (Some (participants m')) None None None)
                                   (withCache (<[jm_meetingId data := m']> (activeMeetings w1))
                                              w1)
                    with
                    | (Ok _, w3) =>
                        (Ok (mkJoinResult true (Some m') None),
                         withCache (<[jm_meetingId data := m']> (activeMeetings w3)) w3)
                    | (Throw _, w3) => (Ok (joinFailure (lit "Failed to join meeting")), w3)
                    end)) = firestore w) as Hcommit.
  { intros m'. rewrite dbUpdate_unfold. cbn.
    destruct (hd false (faults w1)); cbn; [intros; exact Hs|].
    destruct (firestore w1 !! jm_meetingId data); cbn; [|intros; exact Hs].
    intros [= <-]. discriminate. }
  destruct (List.find _ (participants m)); [apply Hcommit|].
  destruct (maxParticipants m <=? _)%Z; [intros; exact Hs|apply Hcommit].
Qed.

(** When the store refuses the write of a join, the join reports
    "Failed to join meeting" and the store is as it was, but the cached
    meeting has the new participant already. *)
Theorem joinMeeting_store_failure_leaves_cache_ahead
        (data : JoinMeetingData) (w : World) (m : Meeting) :
  fst (getMeetingById (jm_meetingId data) w) = Ok (Some m) ->
  isActive m = true ->
  (forall q, In q (participants m) -> uid q <> jm_uid data) ->
  (Z.of_nat (length (participants m)) < maxParticipants m)%Z ->
  hd false (faults (snd (getMeetingById (jm_meetingId data) w))) = true ->
  fst (joinMeeting data w) = Ok (joinFailure (lit "Failed to join meeting"))
  /\ firestore (snd (joinMeeting data w)) = firestore w
  /\ activeMeetings (snd (joinMeeting data w)) !! jm_meetingId data
     = Some (setParticipants
               (participants m ++
                [mkParticipant (jm_uid data) (jm_name data) (jm_socketId data) (clock w)])
               m).
Proof.
  intros Hf Ha Hnew Hroom Hfault.
  rewrite joinMeeting_unfold. cbv zeta.
  pose proof (getMeetingById_clock (jm_meetingId data) w) as Ht.
  pose proof (getMeetingById_firestore (jm_meetingId data) w) as Hs.
  destruct (getMeetingById (jm_meetingId data) w) as [o w1].
  cbn in Hf, Hfault, Hs, Ht. subst o. rewrite Ha.
  rewrite (proj2 (find_uid_none _ _) Hnew).
  rewrite (proj2 (Z.leb_gt _ _) Hroom).
  rewrite dbUpdate_unfold. cbn. rewrite Hfault. cbn.
  rewrite Ht, lookup_insert_eq. auto.
Qed.

(** A join that succeeds: the identifier is well formed, the cache
    holds the meeting returned, and the joining user is in it with the
    session of this join. *)
Lemma joinMeeting_success_cached (data : JoinMeetingData) (w : World) (m' : Meeting) :
  fst (joinMeeting data w) = Ok (mkJoinResult true (Some m') None) ->
  isValidMeetingId (jm_meetingId data) = true
  /\ activeMeetings (snd (joinMeeting data w)) !! jm_meetingId data = Some m'
  /\ exists p, In p (participants m')
               /\ uid p = jm_uid data /\ socketId p = jm_socketId data.
Proof.
  rewrite joinMeeting_unfold. cbv zeta.
  pose proof (getMeetingById_total (jm_meetingId data) w) as [found Hfound].
  destruct found as [m|].
  2:{ destruct (getMeetingById _ w) as [o w1]. cbn in Hfound. subst o. discriminate. }
  pose proof (getMeetingById_found _ _ _ Hfound) as (Hvalid & _).
  destruct (getMeetingById _ w) as [o w1]. cbn in Hfound. subst o.
  destruct (isActive m); [|discriminate].
  assert (forall ps,
            (exists p, In p ps /\ uid p = jm_uid data /\ socketId p = jm_socketId data) ->
            let r := match dbUpdate (jm_meetingId data)
                                    (mkPatch (Some (participants (setParticipants ps m)))
                                             None None None)
                                    (withCache (<[jm_meetingId data := setParticipants ps m]>
                                                  (activeMeetings w1)) w1)
                     with
                     | (Ok _, w3) =>
                         (Ok (mkJoinResult true (Some (setParticipants ps m)) None),
                          withCache (<[jm_meetingId data := setParticipants ps m]>
                                       (activeMeetings w3)) w3)
                     | (Throw _, w3) => (Ok (joinFailure (lit "Failed to join meeting")), w3)
                     end in
            fst r = Ok (mkJoinResult true (Some m') None) ->
            isValidMeetingId (jm_meetingId data) = true
            /\ activeMeetings (snd r) !! jm_meetingId data = Some m'
            /\ exists p, In p (participants m')
                         /\ uid p = jm_uid data /\ socketId p = jm_socketId data)
    as Hcommit.
  { intros ps Hps. cbv zeta.
    destruct (dbUpdate _ _ _) as [[[]|e] w3]; cbn [fst snd]; [|discriminate].
    intros [= <-]. split; [exact Hvalid|]. split; [|exact Hps].
    cbn. apply lookup_insert_eq. }
  destruct (List.find _ (participants m)) as [q|] eqn:Hfind.
  - apply Hcommit.
    destruct (reconnect_first (jm_uid data) (jm_socketId data) (participants m))
      as (pre & p & post & _ & Hp & _ & ->).
    { apply find_some in Hfind as [Hin Hq]. exists q. split; [assumption|].
      apply bool_decide_eq_true in Hq. exact Hq. }
    exists (setSocketId (jm_socketId data) p). split; [|auto].
    apply in_or_app. right. left. reflexivity.
  - destruct (maxParticipants m <=? _)%Z; [discriminate|].
    apply Hcommit. eexists. split; [apply in_or_app; right; left; reflexivity|auto].
Qed.

(** What a successful join returns can be read back: the participants
    that [getParticipants] answers right after it are those of the
    meeting returned, among them the user with the session just given,
    and the answer comes from the cache, the world staying as it is. *)
Theorem getParticipants_after_join (data : JoinMeetingData) (w : World) (m' : Meeting) :
  fst (joinMeeting data w) = Ok (mkJoinResult true (Some m') None) ->
  getParticipants (jm_meetingId data) (snd (joinMeeting data w))
  = (Ok (participants m'), snd (joinMeeting data w))
  /\ exists p, In p (participants m')
               /\ uid p = jm_uid data /\ socketId p = jm_socketId data.
Proof.
  intros Hr. destruct (joinMeeting_success_cached data w m' Hr) as (Hvalid & Hc & Hp).
  split; [|exact Hp].
  unfold getParticipants, bind, ret.
  rewrite (getMeetingById_cached _ _ _ Hvalid Hc). reflexivity.
Qed.

(** ** Leaving and ending, further *)

Lemma dbUpdate_summaryJobs (k0 : jsstring) (p : Patch) (w : World) :
  summaryJobs (snd (dbUpdate k0 p w)) = summaryJobs w.
Proof.
  rewrite dbUpdate_unfold. destruct (hd false (faults w)); [reflexivity|].
  destruct (firestore w !! k0); reflexivity.
Qed.

(** What a leave does (the store not failing). When no meeting is
    found it writes nothing. When one is found, the participants with
    the leaving session are removed and the others kept in their order,
    in the document and in the cache; if some remain, the meeting stays
    cached with [isActive] as it was; if none remains, the document gets
    [isActive] false and the meeting is taken out of the cache. *)
Theorem leaveMeeting_outcomes (k sid : jsstring) (w : World) :
  (fst (getMeetingById k w) = Ok None ->
   leaveMeeting k sid w = (Ok tt, snd (getMeetingById k w))
   /\ firestore (snd (leaveMeeting k sid w)) = firestore w)
  /\ (forall m,
        fst (getMeetingById k w) = Ok (Some m) ->
        storeHealthy w ->
        let ps := List.filter (fun p => negb (bool_decide (socketId p = sid)))
                              (participants m) in
        exists d,
          firestore w !! k = Some d
          /\ fst (leaveMeeting k sid w) = Ok tt
          /\ (ps <> [] ->
              activeMeetings (snd (leaveMeeting k sid w)) !! k = Some (setParticipants ps m)
              /\ firestore (snd (leaveMeeting k sid w))
                 = <[k := setIsActive (isActive m) (setParticipants ps d)]> (firestore w))
          /\ (ps = [] ->
              activeMeetings (snd (leaveMeeting k sid w)) !! k = None
              /\ firestore (snd (leaveMeeting k sid w))
                 = <[k := setIsActive false (setParticipants [] d)]> (firestore w))).
Proof.
  split.
  - intros Hf. rewrite leaveMeeting_unfold.
    pose proof (getMeetingById_firestore k w) as Hs.
    destruct (getMeetingById k w) as [o w1]. cbn in Hf, Hs. subst o. auto.
  - intros m Hf Hh. cbv zeta.
    destruct (found_healthy k w m Hh Hf) as (d & Hd & Hfl & Hs & Hc). exists d.
    split; [assumption|]. rewrite leaveMeeting_unfold.
    destruct (getMeetingById k w) as [o w1]. cbn in Hf, Hfl, Hs, Hc. subst o.
    cbv zeta.
    destruct (List.filter _ (participants m)) as [|p ps] eqn:Hps; cbn [length].
    + change (0 =? 0)%nat with true. cbv iota.
      split; [reflexivity|]. split; [congruence|]. intros _.
      rewrite (dbUpdate_accepted _ _ _ d);
        [|destruct (0 <? length (messages m))%nat; cbn; assumption
         |destruct (0 <? length (messages m))%nat; cbn; congruence].
      cbn. destruct (0 <? length (messages m))%nat; cbn;
        rewrite lookup_delete_eq, Hs; auto.
    + change (S (length ps) =? 0)%nat with false. cbv iota.
      split; [reflexivity|]. split; [|discriminate]. intros _.
      rewrite (dbUpdate_accepted _ _ _ d); [|assumption|cbn; congruence].
      cbn. rewrite lookup_insert_eq, Hs. auto.
Qed.

(** A summary is requested exactly when a meeting that has messages is
    ended by its creator or left by its last participant, with the
    messages it has then; this does not depend on the store accepting
    the write that follows. *)
Theorem summary_requested_when_meeting_closes (k a : jsstring) (w : World) (m : Meeting) :
  fst (getMeetingById k w) = Ok (Some m) ->
  summaryJobs (snd (endMeeting k a w))
  = summaryJobs w ++
    (if bool_decide (createdBy m = a) && (0 <? length (messages m))%nat
     then [(k, messages m)] else [])
  /\ summaryJobs (snd (leaveMeeting k a w))
     = summaryJobs w ++
       (if (length (List.filter (fun p => negb (bool_decide (socketId p = a)))
                                (participants m)) =? 0)%nat
           && (0 <? length (messages m))%nat
        then [(k, messages m)] else []).
Proof.
  intros Hf. rewrite endMeeting_unfold, leaveMeeting_unfold.
  pose proof (getMeetingById_summaryJobs k w) as Hj.
  destruct (getMeetingById k w) as [o w1]. cbn in Hf, Hj. subst o. split.
  - destruct (bool_decide (createdBy m = a)); cbn [andb];
      [|cbn; rewrite app_nil_r; exact Hj].
    cbv zeta.
    match goal with
    | |- context [dbUpdate ?x ?y ?z] =>
        pose proof (dbUpdate_summaryJobs x y z) as Hu; destruct (dbUpdate x y z) as [[[]|] ?]
    end; cbn in Hu |- *; rewrite Hu;
      destruct (0 <? length (messages m))%nat; cbn; rewrite ?app_nil_r; congruence.
  - cbv zeta. destruct (length _ =? 0)%nat; cbn [andb snd];
      rewrite dbUpdate_summaryJobs.
    + destruct (0 <? length (messages m))%nat; cbn; rewrite ?app_nil_r; congruence.
    + cbn. rewrite app_nil_r. exact Hj.
Qed.

(** Once its creator has ended a meeting (the store not failing), no
    one joins it any more: after any further calls, every join to it is
    refused with "Meeting is no longer active". *)
Theorem endMeeting_closes_meeting (k u : jsstring) (m : Meeting) (w : World)
        (ops : list Op) (data : JoinMeetingData) :
  storeHealthy w ->
  fst (getMeetingById k w) = Ok (Some m) ->
  createdBy m = u ->
  jm_meetingId data = k ->
  fst (joinMeeting data (run ops (snd (endMeeting k u w))))
  = Ok (joinFailure (lit "Meeting is no longer active")).
Proof.
  intros Hh Hf Hu <-.
  destruct (found_healthy _ w m Hh Hf) as (d & Hd & Hfl & Hs & Hc).
  pose proof (getMeetingById_found _ w m Hf) as (Hvalid & _).
  assert (faults (snd (endMeeting (jm_meetingId data) u w)) = []) as Hf'.
  { apply (step_faults (OpEnd (jm_meetingId data) u) w), Hh. }
  assert (ended (snd (endMeeting (jm_meetingId data) u w)) (jm_meetingId data)) as He.
  { clear Hf'. rewrite endMeeting_unfold.
    destruct (getMeetingById (jm_meetingId data) w) as [o w1].
    cbn in Hf, Hfl, Hs, Hc. subst o.
    rewrite bool_decide_true by assumption. cbv zeta.
    rewrite (dbUpdate_accepted _ _ _ d);
      [|destruct (0 <? length (messages m))%nat; cbn; assumption
       |destruct (0 <? length (messages m))%nat; cbn; congruence].
    split; [assumption|]. cbn [snd]. split.
    - cbn. rewrite lookup_insert_eq. eauto.
    - intros x [Hx|Hx]; cbn in Hx.
      + destruct (0 <? length (messages m))%nat; cbn in Hx;
          rewrite lookup_delete_eq in Hx; discriminate.
      + rewrite lookup_insert_eq in Hx. injection Hx as <-. reflexivity. }
  destruct (run_ended ops _ _ Hf' He) as (Hf2 & He2 & _).
  rewrite (joinMeeting_ended data _ Hf2 He2). reflexivity.
Qed.

(** When a summary comes back it is written on the document of the
    meeting whose request is the oldest one pending, and on nothing
    else; the request is consumed whether or not the store accepts the
    write, so a summary that could not be written is not written
    later; with no request pending nothing happens. *)
Theorem summaryReady_outcomes (s : jsstring) (w : World) :
  (summaryJobs w = [] -> snd (summaryReady s w) = w)
  /\ (forall k ms rest,
        summaryJobs w = (k, ms) :: rest ->
        summaryJobs (snd (summaryReady s w)) = rest
        /\ activeMeetings (snd (summaryReady s w)) = activeMeetings w
        /\ (forall d,
              hd false (faults w) = false ->
              firestore w !! k = Some d ->
              firestore (snd (summaryReady s w))
              = <[k := setSummary (Some s) d]> (firestore w))
        /\ (hd false (faults w) = true \/ firestore w !! k = None ->
            firestore (snd (summaryReady s w)) = firestore w)).
Proof.
  rewrite summaryReady_unfold. split.
  - intros ->. reflexivity.
  - intros k ms rest ->. rewrite dbUpdate_summaryJobs, dbUpdate_cache.
    split; [reflexivity|]. split; [reflexivity|].
    rewrite dbUpdate_unfold. cbn. split.
    + intros d -> ->. reflexivity.
    + intros [->| ->]; [reflexivity|]. destruct (hd false (faults w)); reflexivity.
Qed.

(** ** Creating, further *)

(** A creation that returns a meeting (no store call failing) has made
    a new one: its identifier is well formed and no meeting had it, it
    has the given creator and the current local time, no participant,
    no message, no summary, and is active with a maximum of 10; the
    cache holds it, the store holds it with the time of the store as
    [createdAt], and the copies of every other meeting are as they
    were. *)
Theorem createMeeting_makes_new_meeting
        (fuel : nat) (data : MeetingCreateData) (w : World) (created : Meeting) :
  faults w = [] ->
  fst (createMeeting fuel data w) = Ok (Some created) ->
  let k := meetingId created in
  created = freshMeeting k (mc_createdBy data) (clock w)
  /\ isValidMeetingId k = true
  /\ (forall m, ~ version w k m)
  /\ activeMeetings (snd (createMeeting fuel data w)) !! k = Some created
  /\ firestore (snd (createMeeting fuel data w)) !! k
     = Some (setCreatedAt (serverTime w) created)
  /\ (forall k' m, k' <> k ->
        version (snd (createMeeting fuel data w)) k' m <-> version w k' m).
Proof.
  intros Hf. cbv zeta.
  destruct (createMeeting_cases fuel data w)
    as (wp & Hsame & _ & [-> | (k' & Hvalid & Hfresh & Hc)]); [discriminate|].
  cbv zeta in Hc. destruct Hc as [[_ ->]|[_ ->]]; [discriminate|].
  cbn [fst snd]. intros [= <-]. cbn [meetingId freshMeeting].
  split; [reflexivity|]. split; [assumption|]. split.
  - intros m Hm. apply (proj2 (Hfresh Hf) m), Hsame, Hm.
  - cbn. rewrite !lookup_insert_eq. split; [reflexivity|]. split; [reflexivity|].
    intros k m Hk. rewrite <- Hsame. unfold version. cbn.
    rewrite !lookup_insert_ne by congruence. reflexivity.
Qed.

(** A creation that returns no meeting has created none: it throws
    nothing but "Failed to create meeting", and unless it returns a
    meeting the store and the copies of every meeting are as they
    were. *)
Theorem createMeeting_failure_creates_nothing
        (fuel : nat) (data : MeetingCreateData) (w : World) :
  (forall e, fst (createMeeting fuel data w) = Throw e ->
             e = JsError (lit "Failed to create meeting"))
  /\ ((forall created, fst (createMeeting fuel data w) <> Ok (Some created)) ->
      firestore (snd (createMeeting fuel data w)) = firestore w
      /\ forall k m, version (snd (createMeeting fuel data w)) k m <-> version w k m).
Proof.
  destruct (createMeeting_cases fuel data w)
    as (wp & Hsame & Hs & [->|(k' & _ & _ & Hc)]).
  { cbn. split; [discriminate|]. auto. }
  cbv zeta in Hc. destruct Hc as [[_ ->]|[_ ->]]; cbn [fst snd].
  - split; [intros e [= <-]; reflexivity|]. intros _. split; [exact Hs|exact Hsame].
  - split; [discriminate|]. intros Hno. exfalso. exact (Hno _ eq_refl).
Qed.

(** The check that an identifier is free takes a failed read for a
    free identifier: when the first candidate is not cached and its
    read from the store fails, the creation does not draw again; if the
    write then succeeds, the new meeting is stored under that
    identifier (with the time of the store as [createdAt]), in place of
    the document that was there. *)
Theorem createMeeting_overwrites_after_failed_read
        (fuel : nat) (data : MeetingCreateData) (w : World)
        (r : N) (rs : list N) (fs : list bool) (old : Meeting) :
  draws w = r :: rs ->
  activeMeetings w !! generateMeetingId r = None ->
  firestore w !! generateMeetingId r = Some old ->
  faults w = true :: fs ->
  hd false fs = false ->
  let created := freshMeeting (generateMeetingId r) (mc_createdBy data) (clock w) in
  fst (createMeeting fuel data w) = Ok (Some created)
  /\ firestore (snd (createMeeting fuel data w)) !! generateMeetingId r
     = Some (setCreatedAt (serverTime w) created)
  /\ activeMeetings (snd (createMeeting fuel data w)) !! generateMeetingId r = Some created.
Proof.
  intros Hr Hc Hd Hf Hfs. cbv zeta.
  unfold createMeeting, tryCatch, bind, random. rewrite Hr.
  rewrite getMeetingById_unfold, generateMeetingId_accepted. cbn.
  rewrite Hc, Hf. cbn.
  assert (forall w', retryMeetingId fuel (generateMeetingId r) None w'
                     = (Ok (Some (generateMeetingId r)), w')) as ->.
  { intros w'. destruct fuel; reflexivity. }
  svc_unfold. unfold dbSetStamped, dbSet, bind, storeCall, modifyWorld. cbn. rewrite Hf. cbn.
  rewrite Hfs. cbn. rewrite !lookup_insert_eq. auto.
Qed.

(** ** Messages, further *)

Lemma addMessage_healthy (k : jsstring) (msg : ChatMessage) (w : World) (m : Meeting) :
  storeHealthy w ->
  fst (getMeetingById k w) = Ok (Some m) ->
  forallb definedMessage (messages m ++ [msg]) = true ->
  exists d,
    firestore w !! k = Some d
    /\ fst (addMessage k msg w) = Ok tt
    /\ activeMeetings (snd (addMessage k msg w)) !! k
       = Some (setMessages (messages m ++ [msg]) m)
    /\ firestore (snd (addMessage k msg w))
       = <[k := setMessages (messages m ++ [msg]) d]> (firestore w).
Proof.
  intros Hh Hf Hdef.
  destruct (found_healthy k w m Hh Hf) as (d & Hd & Hfl & _ & _). exists d.
  destruct (addMessage_found k msg w m Hf) as (Hc & Hok & _).
  destruct (Hok d Hdef) as [Hr Hs]; [rewrite Hfl; reflexivity|assumption|].
  auto.
Qed.

(** Messages are kept in the order in which they are added: after two
    calls of [addMessage] on a meeting, the messages of the cached
    meeting are those it had, then the first message, then the second;
    and when the store does not fail and no message has a sender that
    is [undefined], both calls succeed and the document holds the
    same list. *)
Theorem addMessage_keeps_order (k : jsstring) (a b : ChatMessage) (w : World) (m : Meeting) :
  storeHealthy w ->
  fst (getMeetingById k w) = Ok (Some m) ->
  let w2 := snd (addMessage k b (snd (addMessage k a w))) in
  (messages <$> activeMeetings w2 !! k) = Some (messages m ++ [a; b])
  /\ (forallb definedMessage (messages m ++ [a; b]) = true ->
      fst (addMessage k a w) = Ok tt
      /\ fst (addMessage k b (snd (addMessage k a w))) = Ok tt
      /\ (messages <$> firestore w2 !! k) = Some (messages m ++ [a; b])).
Proof.
  intros Hh Hf. cbv zeta.
  pose proof (getMeetingById_found k w m Hf) as (Hvalid & _).
  destruct (addMessage_found k a w m Hf) as (Hc1 & _).
  assert (fst (getMeetingById k (snd (addMessage k a w)))
          = Ok (Some (setMessages (messages m ++ [a]) m))) as Hf1.
  { rewrite (getMeetingById_cached _ _ _ Hvalid Hc1). reflexivity. }
  split.
  - destruct (addMessage_found k b _ _ Hf1) as (Hc2 & _).
    rewrite Hc2. cbn. rewrite <- app_assoc. reflexivity.
  - intros Hdef.
    assert (forallb definedMessage (messages m ++ [a]) = true
            /\ forallb definedMessage ((messages m ++ [a]) ++ [b]) = true) as [Hda Hdb].
    { rewrite <- app_assoc. split; [|exact Hdef].
      rewrite forallb_app in Hdef |- *. cbn in Hdef |- *.
      destruct (forallb definedMessage (messages m)); [|discriminate].
      destruct (definedMessage a); [reflexivity|discriminate]. }
    destruct (addMessage_healthy k a w m Hh Hf Hda) as (d & Hd & Hr1 & _ & Hs1).
    pose proof (step_healthy (OpAddMessage k a) w Hh) as Hh1. cbn [step] in Hh1.
    destruct (addMessage_healthy k b _ _ Hh1 Hf1 Hdb) as (d1 & Hd1 & Hr2 & _ & Hs2).
    split; [assumption|]. split; [assumption|].
    rewrite Hs2, lookup_insert_eq. cbn.
    rewrite Hs1, lookup_insert_eq in Hd1. injection Hd1 as <-. cbn.
    rewrite <- !app_assoc. reflexivity.
Qed.

(** When the store refuses the write of a message, [addMessage] throws
    the store's error and the document is as it was, but the cached
    meeting has the message already. *)
Theorem addMessage_store_failure_leaves_cache_ahead
        (k : jsstring) (msg : ChatMessage) (w : World) (m : Meeting) :
  fst (getMeetingById k w) = Ok (Some m) ->
  hd false (faults (snd (getMeetingById k w))) = true ->
  fst (addMessage k msg w) = Throw FirestoreError
  /\ firestore (snd (addMessage k msg w)) = firestore w
  /\ activeMeetings (snd (addMessage k msg w)) !! k
     = Some (setMessages (messages m ++ [msg]) m).
Proof.
  intros Hf Hfault.
  destruct (addMessage_found k msg w m Hf) as (Hc & _ & Hko).
  destruct (Hko (or_intror (or_introl Hfault))) as [Hr Hs]. auto.
Qed.

(** A message whose sender is [undefined] blocks the chat of the
    meeting: while the cached meeting holds such a message, every
    [addMessage] on it, whatever the message and whatever the store
    does, throws and writes nothing, and the message is pushed onto
    the cached list all the same, so that the next call fails as
    well. *)
Lemma addMessage_blocked_by_undefined_sender
        (k : jsstring) (msg : ChatMessage) (w : World) (m : Meeting) :
  isValidMeetingId k = true ->
  activeMeetings w !! k = Some m ->
  forallb definedMessage (messages m) = false ->
  let w' := snd (addMessage k msg w) in
  fst (addMessage k msg w) = Throw FirestoreError
  /\ firestore w' = firestore w
  /\ dbLog w' = dbLog w
  /\ activeMeetings w' !! k = Some (setMessages (messages m ++ [msg]) m)
  /\ forallb definedMessage (messages m ++ [msg]) = false.
Proof.
  intros Hvalid Hc Hbad. cbv zeta.
  assert (forallb definedMessage (messages m ++ [msg]) = false) as Hbad'.
  { rewrite forallb_app, Hbad. reflexivity. }
  rewrite addMessage_unfold, (getMeetingById_cached k w m Hvalid Hc). cbv zeta.
  rewrite Hbad'. cbn. rewrite lookup_insert_eq. auto.
Qed.

(** ** Trimming *)

Section TrimFacts.

Lemma trimStart_head (s : jsstring) :
  trimStart s = []
  \/ exists c r, trimStart s = c :: r /\ isWhiteSpace c = false.
Proof.
  induction s as [|c r IH]; cbn; [auto|].
  destruct (isWhiteSpace c) eqn:Hc; [exact IH|eauto].
Qed.

Lemma trimStart_fixed (s : jsstring) :
  s = [] \/ (exists c r, s = c :: r /\ isWhiteSpace c = false) -> trimStart s = s.
Proof. intros [->|(c & r & -> & Hc)]; cbn; [reflexivity|rewrite Hc; reflexivity]. Qed.

Lemma trimStart_length (s : jsstring) : (length (trimStart s) <= length s)%nat.
Proof.
  destruct (trimStart_suffix s) as (pre & Hs & _).
  rewrite Hs at 2. rewrite length_app. lia.
Qed.

Lemma trim_length (s : jsstring) : (length (trim s) <= length s)%nat.
Proof.
  unfold trim, trimEnd. rewrite length_rev.
  pose proof (trimStart_length (rev (trimStart s))) as H1.
  rewrite length_rev in H1. pose proof (trimStart_length s). lia.
Qed.

(** What [trim] returns has no white space at either end: trimming it
    again changes nothing. *)
Lemma trim_idempotent (s : jsstring) : trim (trim s) = trim s.
Proof.
  unfold trim, trimEnd.
  set (t := trimStart s). set (u := trimStart (rev t)).
  assert (trimStart (rev u) = rev u) as Hu.
  { apply trimStart_fixed.
    destruct (trimStart_suffix (rev t)) as (pre & Hpre & _). fold u in Hpre.
    assert (t = rev u ++ rev pre) as Ht.
    { rewrite <- rev_app_distr, <- Hpre, rev_involutive. reflexivity. }
    destruct (rev u) as [|c r] eqn:Hr; [auto|]. right. exists c, r. split; [reflexivity|].
    destruct (trimStart_head s) as [He|(c' & r' & He & Hc')]; fold t in He.
    - rewrite He in Ht. discriminate.
    - rewrite He in Ht. cbn in Ht. injection Ht as -> _. exact Hc'. }
  rewrite Hu, rev_involutive.
  assert (trimStart u = u) as ->; [|reflexivity].
  apply trimStart_fixed. apply trimStart_head.
Qed.

End TrimFacts.

(** ** The handlers *)

(** An [addMessage] that returns has appended the message to the
    cached meeting and written the new list to the document; no
    message of the list has a sender that is [undefined]. *)
Lemma addMessage_done (k : jsstring) (msg : ChatMessage) (w : World) :
  fst (addMessage k msg w) = Ok tt ->
  exists m d,
    fst (getMeetingById k w) = Ok (Some m)
    /\ firestore w !! k = Some d
    /\ forallb definedMessage (messages m ++ [msg]) = true
    /\ activeMeetings (snd (addMessage k msg w)) !! k
       = Some (setMessages (messages m ++ [msg]) m)
    /\ firestore (snd (addMessage k msg w))
       = <[k := setMessages (messages m ++ [msg]) d]> (firestore w).
Proof.
  rewrite addMessage_unfold.
  pose proof (getMeetingById_firestore k w) as Hs.
  destruct (getMeetingById k w) as [[[m|]|e] w1]; try discriminate.
  cbn in Hs. cbv zeta.
  destruct (forallb definedMessage (messages m ++ [msg])) eqn:Hdef; [|discriminate].
  rewrite dbUpdate_unfold. cbn.
  destruct (hd false (faults w1)); [discriminate|].
  destruct (firestore w1 !! k) as [d|] eqn:Hd; [|discriminate].
  cbn. intros _. exists m, d. rewrite lookup_insert_eq, <- Hs. repeat split; auto.
Qed.

(** An [addMessage] that throws has written nothing to the store. *)
Lemma addMessage_thrown (k : jsstring) (msg : ChatMessage) (w : World) (e : Exn) :
  fst (addMessage k msg w) = Throw e ->
  firestore (snd (addMessage k msg w)) = firestore w.
Proof.
  rewrite addMessage_unfold.
  pose proof (getMeetingById_firestore k w) as Hs.
  destruct (getMeetingById k w) as [[[m|]|e'] w1]; cbn in Hs; try (intros; exact Hs).
  cbv zeta. destruct (forallb definedMessage (messages m ++ [msg])); [|intros; exact Hs].
  rewrite dbUpdate_unfold. cbn.
  destruct (hd false (faults w1)); [intros; exact Hs|].
  destruct (firestore w1 !! k) as [d|] eqn:Hd; [discriminate|intros; exact Hs].
Qed.

(** The [send-message] handler sends one event: [new-message] to the
    room, or [error] to the sender. *)
Lemma onSendMessageEvent_cases (socket : Socket) (payload : option SendMessagePayload)
      (w : World) :
  let r := onSendMessageEvent socket payload w in
  (exists reason,
     fst r = [SocketEmit (socket_id socket) (lit "error") (NMessage reason)]
     /\ (reason = lit "Invalid message" /\ snd r = w
         \/ reason = lit "Failed to send message" /\ firestore (snd r) = firestore w))
  \/ (exists k text,
        payload = Some (mkSendMessagePayload (VString k) (VString text))
        /\ isValidMessage text = true
        /\ fst (addMessage k (outgoing socket text w) w) = Ok tt
        /\ r = ([RoomEmit k (lit "new-message") (NNewMessage (outgoing socket text w))],
                snd (addMessage k (outgoing socket text w) w))).
Proof.
  cbv zeta. unfold onSendMessageEvent.
  destruct payload as [[[k|] [text|]]|]; cbn; eauto 10.
  - unfold onSendMessage. cbn.
    destruct (isValidMessage text) eqn:Hvalid; cbn; [|eauto 10].
    pose proof (addMessage_thrown k (outgoing socket text w) w) as Hthrown.
    destruct (addMessage k (outgoing socket text w) w) as [[[]|e] w1] eqn:Hadd; cbn.
    + right. exists k, text. rewrite Hadd. auto.
    + left. eexists. split; [reflexivity|]. right. split; [reflexivity|].
      exact (Hthrown e eq_refl).
  - destruct (isValidMessage text); cbn; eauto 10.
Qed.

(** A message is broadcast only once it is stored: when the
    [send-message] handler emits to the room, what it emits is one
    [new-message] and nothing else; the event came with a room and a
    text, the connection holds a user identifier and a name, and the
    message carries them, the current time and the text trimmed, which
    has 1 to 1000 code units and no white space at either end; the
    message is the last one of the meeting in the cache and in the
    document. *)
Theorem onSendMessage_broadcasts_stored_message
        (socket : Socket) (payload : option SendMessagePayload) (w w' : World)
        (out : list Emission) (room ev : jsstring) (p : Notice) :
  onSendMessageEvent socket payload w = (out, w') ->
  In (RoomEmit room ev p) out ->
  exists text u n,
    payload = Some (mkSendMessagePayload (VString room) (VString text))
    /\ data_uid socket = Some u
    /\ data_name socket = Some n
    /\ let msg :=
         mkChatMessage (ofZ (clock w) ++ lit "-" ++ u) (Some u) (Some n) (trim text)
                       (clock w) in
       out = [RoomEmit room (lit "new-message") (NNewMessage msg)]
       /\ trim (trim text) = trim text
       /\ (1 <= length (trim text) <= 1000)%nat
       /\ (exists m' before,
             activeMeetings w' !! room = Some m' /\ messages m' = before ++ [msg])
       /\ (exists d' before,
             firestore w' !! room = Some d' /\ messages d' = before ++ [msg]).
Proof.
  intros Hr Hin.
  destruct (onSendMessageEvent_cases socket payload w)
    as [(reason & Hout & _)|(k & text & -> & Hvalid & Hok & Hcase)].
  { rewrite Hr in Hout. cbn in Hout. subst out. destruct Hin as [H|[]]. discriminate H. }
  cbv zeta in Hcase. rewrite Hr in Hcase. injection Hcase as -> ->.
  destruct Hin as [H|[]]. injection H as <- <- <-.
  destruct (addMessage_done k _ w Hok) as (m & d & _ & _ & Hdef & Hc & Hs).
  rewrite forallb_app in Hdef. apply andb_true_iff in Hdef as [_ Hdef].
  cbn in Hdef. unfold definedMessage, outgoing in Hdef. cbn in Hdef.
  destruct (data_uid socket) as [u|] eqn:Hu; [|discriminate].
  destruct (data_name socket) as [n|] eqn:Hn; [|discriminate].
  exists text, u, n. split; [reflexivity|]. split; [reflexivity|].
  split; [reflexivity|]. cbv zeta.
  assert (outgoing socket text w
          = mkChatMessage (ofZ (clock w) ++ lit "-" ++ u) (Some u) (Some n) (trim text)
                          (clock w)) as Hmsg.
  { unfold outgoing. rewrite Hu, Hn. reflexivity. }
  rewrite Hmsg in Hc, Hs |- *.
  split; [reflexivity|]. split; [apply trim_idempotent|]. split.
  - unfold isValidMessage in Hvalid. apply andb_true_iff in Hvalid as [H1 H2].
    apply Nat.ltb_lt in H1. apply Nat.leb_le in H2.
    pose proof (trim_length text). lia.
  - split.
    + eexists _, (messages m). split; [exact Hc|reflexivity].
    + eexists _, (messages m). rewrite Hs, lookup_insert_eq. split; reflexivity.
Qed.

(** A message that is not broadcast is not stored: when the handler
    emits nothing to the room, all it emits is one [error] event to
    the sender, "Invalid message" or "Failed to send message", and the
    store is as it was; with "Invalid message" the whole world is as
    it was. This holds of every event and every connection, with or
    without an object, a text, a room, a user. *)
Theorem onSendMessage_failure_is_private
        (socket : Socket) (payload : option SendMessagePayload) (w w' : World)
        (out : list Emission) :
  onSendMessageEvent socket payload w = (out, w') ->
  (forall room ev p, ~ In (RoomEmit room ev p) out) ->
  (exists reason,
     out = [SocketEmit (socket_id socket) (lit "error") (NMessage reason)]
     /\ (reason = lit "Invalid message" \/ reason = lit "Failed to send message")
     /\ (reason = lit "Invalid message" -> w' = w))
  /\ firestore w' = firestore w.
Proof.
  intros Hr Hno.
  destruct (onSendMessageEvent_cases socket payload w)
    as [(reason & Hout & Hcase)|(k & text & _ & _ & _ & Hcase)].
  - rewrite Hr in Hout, Hcase. cbn in Hout, Hcase. subst out.
    destruct Hcase as [[-> ->]|[-> Hs]].
    + split; [|reflexivity]. eexists. split; [reflexivity|]. auto.
    + split; [|exact Hs]. eexists. split; [reflexivity|]. split; [auto|].
      intros H. vm_compute in H. discriminate H.
  - exfalso. cbv zeta in Hcase. rewrite Hr in Hcase. injection Hcase as -> _.
    eapply Hno. left. reflexivity.
Qed.

(** While the cached meeting holds a message whose sender is
    [undefined], [send-message] events with a valid text for it are
    all answered by "Failed to send message" and the store is as it
    was. *)
Lemma onSendMessages_blocked
      (k : jsstring) (events : list (Socket * option SendMessagePayload)) :
  isValidMeetingId k = true ->
  Forall (fun e => exists text,
                     snd e = Some (mkSendMessagePayload (VString k) (VString text))
                     /\ isValidMessage text = true) events ->
  forall (w : World) (m : Meeting),
    activeMeetings w !! k = Some m ->
    forallb definedMessage (messages m) = false ->
    fst (onSendMessages events w)
    = map (fun e => [SocketEmit (socket_id (fst e)) (lit "error")
                                (NMessage (lit "Failed to send message"))]) events
    /\ firestore (snd (onSendMessages events w)) = firestore w.
Proof.
  intros Hk Hall. induction Hall as [|[socket payload] rest (text & Hp & Hvalid) _ IH];
    intros w m Hc Hbad; [split; reflexivity|].
  cbn [snd] in Hp. subst payload. cbn [onSendMessages fst snd map].
  unfold onSendMessageEvent at 1 2 3, onSendMessage.
  cbn [raw_sm_text raw_sm_meetingId sm_meetingId sm_text]. rewrite Hvalid. cbn [negb].
  destruct (addMessage_blocked_by_undefined_sender k (outgoing socket text w) w m Hk Hc Hbad)
    as (Hr & Hs & _ & Hc' & Hbad').
  destruct (addMessage k (outgoing socket text w) w) as [o w1]. cbn [fst snd] in *.
  subst o. cbn [fst snd].
  destruct (IH w1 _ Hc' Hbad') as [Houts Hstore].
  rewrite Houts, Hstore, Hs. split; reflexivity.
Qed.

(** A [send-message] on a connection that has not joined (its data
    hold no user or no name) is answered by "Failed to send message"
    and writes nothing to the store; but when its text is valid and
    its meeting is found, the message, whose sender is [undefined],
    stays in the cached meeting, and the [send-message] events with a
    valid text that follow for that meeting, however many and from
    whichever connections, all fail in the same way and write
    nothing. *)
Theorem onSendMessage_without_sender_blocks_chat
        (socket : Socket) (k text : jsstring) (m : Meeting) (w : World) :
  data_uid socket = None \/ data_name socket = None ->
  isValidMessage text = true ->
  fst (getMeetingById k w) = Ok (Some m) ->
  let failed (s : Socket) :=
    [SocketEmit (socket_id s) (lit "error") (NMessage (lit "Failed to send message"))] in
  let r :=
    onSendMessageEvent socket (Some (mkSendMessagePayload (VString k) (VString text))) w in
  fst r = failed socket
  /\ firestore (snd r) = firestore w
  /\ activeMeetings (snd r) !! k
     = Some (setMessages (messages m ++ [outgoing socket text w]) m)
  /\ forall events,
       Forall (fun e => exists text',
                          snd e = Some (mkSendMessagePayload (VString k) (VString text'))
                          /\ isValidMessage text' = true) events ->
       fst (onSendMessages events (snd r)) = map (fun e => failed (fst e)) events
       /\ firestore (snd (onSendMessages events (snd r))) = firestore w.
Proof.
  intros Hnone Hvalid Hf. cbv zeta.
  unfold onSendMessageEvent, onSendMessage.
  cbn [raw_sm_text raw_sm_meetingId sm_meetingId sm_text]. rewrite Hvalid. cbn [negb].
  assert (definedMessage (outgoing socket text w) = false) as Hbad.
  { unfold definedMessage, outgoing. cbn.
    destruct Hnone as [-> | ->]; [reflexivity|]. destruct (data_uid socket); reflexivity. }
  assert (forallb definedMessage (messages m ++ [outgoing socket text w]) = false) as Hbad'.
  { rewrite forallb_app. cbn. rewrite Hbad. apply andb_false_iff. right. reflexivity. }
  destruct (addMessage_found k (outgoing socket text w) w m Hf) as (Hc & _ & Hko).
  destruct (Hko (or_introl Hbad')) as [Hr Hs].
  destruct (getMeetingById_found k w m Hf) as (Hk & _).
  destruct (addMessage k (outgoing socket text w) w) as [o w1]. cbn [fst snd] in Hr, Hs, Hc.
  subst o. cbn [fst snd].
  split; [reflexivity|]. split; [exact Hs|]. split; [exact Hc|].
  intros events Hall.
  destruct (onSendMessages_blocked k events Hk Hall w1 _ Hc Hbad') as [Houts Hstore].
  split; [exact Houts|congruence].
Qed.

Lemma getParticipants_eq (k : jsstring) (w : World) (found : option Meeting) :
  fst (getMeetingById k w) = Ok found ->
  getParticipants k w
  = (Ok (match found with Some m => participants m | None => [] end),
     snd (getMeetingById k w)).
Proof.
  unfold getParticipants, bind, ret.
  destruct (getMeetingById k w) as [o w1]. cbn. intros ->. reflexivity.
Qed.

Lemma isValidMeetingId_nonempty (k : jsstring) :
  isValidMeetingId k = true -> exists c r, k = c :: r.
Proof.
  intros H. apply isValidMeetingId_iff in H as [Hl _].
  destruct k as [|c r]; [discriminate|eauto].
Qed.

(** When a connection that is in a meeting goes away (the store not
    failing), the others in the room are told how many participants
    are left: [user-left] carries the name of the connection and the
    number of participants of the meeting whose session is another
    one, and nothing else is emitted. The count is read back through
    [getParticipants], so the meeting is cached afterwards, also when
    the last participant has left and it has become inactive. *)
Theorem onDisconnect_announces_who_is_left (socket : Socket) (k : jsstring)
        (m : Meeting) (w : World) :
  storeHealthy w ->
  data_meetingId socket = Some k ->
  fst (getMeetingById k w) = Ok (Some m) ->
  let ps := List.filter (fun p => negb (bool_decide (socketId p = socket_id socket)))
                        (participants m) in
  fst (onDisconnect socket w)
  = [OthersEmit k (socket_id socket) (lit "user-left")
                (NUserLeft (data_name socket) (length ps))]
  /\ exists m',
       activeMeetings (snd (onDisconnect socket w)) !! k = Some m'
       /\ participants m' = ps
       /\ isActive m' = (if (length ps =? 0)%nat then false else isActive m).
Proof.
  intros Hh Hk Hf. cbv zeta.
  pose proof (getMeetingById_found k w m Hf) as (Hvalid & _).
  destruct (isValidMeetingId_nonempty k Hvalid) as (c & r & Hkk).
  unfold onDisconnect. rewrite Hk, Hkk. cbv zeta. rewrite <- Hkk.
  pose proof (step_healthy (OpLeave k (socket_id socket)) w Hh) as Hh1. cbn [step] in Hh1.
  destruct (found_healthy k w m Hh Hf) as (d & Hd & Hfl & Hs & Hc).
  assert (exists m',
            fst (leaveMeeting k (socket_id socket) w) = Ok tt
            /\ participants m'
               = List.filter (fun p => negb (bool_decide (socketId p = socket_id socket)))
                             (participants m)
            /\ isActive m'
               = (if (length (List.filter
                                (fun p => negb (bool_decide (socketId p = socket_id socket)))
                                (participants m)) =? 0)%nat
                  then false else isActive m)
            /\ fst (getMeetingById k (snd (leaveMeeting k (socket_id socket) w)))
               = Ok (Some m')) as (m' & Hr & Hps & Hact & Hfound).
  { rewrite leaveMeeting_unfold.
    destruct (getMeetingById k w) as [o w1]. cbn in Hf, Hfl, Hs, Hc. subst o.
    cbv zeta.
    destruct (List.filter _ (participants m)) as [|p ps] eqn:Hfil; cbn [length].
    - change (0 =? 0)%nat with true. cbv iota.
      rewrite (dbUpdate_accepted _ _ _ d);
        [|destruct (0 <? length (messages m))%nat; cbn; assumption
         |destruct (0 <? length (messages m))%nat; cbn; congruence].
      exists (applyPatch (mkPatch (Some []) None (Some false) None) d).
      split; [reflexivity|]. split; [reflexivity|]. split; [reflexivity|].
      cbn [snd]. rewrite getMeetingById_unfold, Hvalid. cbn.
      destruct (0 <? length (messages m))%nat; cbn;
        rewrite lookup_delete_eq, Hfl, lookup_insert_eq; reflexivity.
    - change (S (length ps) =? 0)%nat with false. cbv iota.
      rewrite (dbUpdate_accepted _ _ _ d); [|assumption|cbn; congruence].
      exists (setParticipants (p :: ps) m).
      split; [reflexivity|]. split; [reflexivity|]. split; [reflexivity|].
      cbn [snd]. rewrite getMeetingById_unfold, Hvalid. cbn.
      rewrite lookup_insert_eq. reflexivity. }
  pose proof (getParticipants_eq k _ _ Hfound) as Hgp.
  pose proof (getMeetingById_found k _ m' Hfound) as (_ & Hc' & _).
  destruct (leaveMeeting k (socket_id socket) w) as [o w1]. cbn in Hr, Hfound, Hgp, Hc'.
  subst o. rewrite Hgp. cbn. rewrite Hps. split; [reflexivity|].
  exists m'. auto.
Qed.

(** An [endMeeting] that succeeds was asked by the creator of the
    meeting found, has marked the document inactive and has taken the
    meeting out of the cache; one that does not succeed has left the
    store as it was. *)
Lemma endMeeting_result (k u : jsstring) (w : World) :
  exists r,
    fst (endMeeting k u w) = Ok r
    /\ (er_success r = true ->
        activeMeetings (snd (endMeeting k u w)) !! k = None
        /\ (exists d, firestore (snd (endMeeting k u w)) !! k = Some d
                      /\ isActive d = false)
        /\ exists m, fst (getMeetingById k w) = Ok (Some m) /\ createdBy m = u)
    /\ (er_success r = false -> firestore (snd (endMeeting k u w)) = firestore w).
Proof.
  rewrite endMeeting_unfold.
  pose proof (getMeetingById_firestore k w) as Hs.
  destruct (getMeetingById k w) as [[[m|]|e] w1]; cbn in Hs;
    try (eexists; split; [reflexivity|]; split; [discriminate|intros _; exact Hs]).
  destruct (bool_decide_reflect (createdBy m = u)) as [Hu|Hu];
    [|eexists; split; [reflexivity|]; split; [discriminate|intros _; exact Hs]].
  cbv zeta.
  match goal with
  | |- context [dbUpdate k ?p ?w3] => remember w3 as w3' eqn:Hw3
  end.
  assert (firestore w3' = firestore w /\ activeMeetings w3' !! k = None) as [Hs3 Hc3].
  { subst w3'. destruct (0 <? length (messages m))%nat; cbn;
      (split; [assumption|apply lookup_delete_eq]). }
  clear Hw3. rewrite dbUpdate_unfold.
  destruct (hd false (faults w3'));
    [eexists; split; [reflexivity|]; split; [discriminate|intros _; exact Hs3]|].
  destruct (firestore w3' !! k) as [d|] eqn:Hd;
    [|eexists; split; [reflexivity|]; split; [discriminate|intros _; exact Hs3]].
  eexists. split; [reflexivity|]. split; [|discriminate].
  intros _. cbn. split; [assumption|]. split; [|eauto].
  eexists. rewrite lookup_insert_eq. split; reflexivity.
Qed.

(** [meeting-ended] is announced only for a meeting that has been
    ended: when [POST /api/meetings/end] emits it, the answer is 200,
    the request came from the creator of the meeting found, the
    document has [isActive] false and the meeting is out of the cache;
    with any other answer nothing is emitted and the store is as it
    was. *)
Theorem postEnd_announces_only_ended_meetings
        (meetingId uid : option jsstring) (w w' : World)
        (resp : Response) (out : list Emission) :
  postEnd meetingId uid w = (resp, out, w') ->
  (forall room ev p,
     In (RoomEmit room ev p) out ->
     status resp = 200%nat
     /\ meetingId = Some room /\ ev = lit "meeting-ended" /\ p = NNone
     /\ activeMeetings w' !! room = None
     /\ (exists d, firestore w' !! room = Some d /\ isActive d = false)
     /\ exists m u, uid = Some u
                    /\ fst (getMeetingById room w) = Ok (Some m) /\ createdBy m = u)
  /\ (status resp <> 200%nat -> out = [] /\ firestore w' = firestore w).
Proof.
  unfold postEnd.
  destruct meetingId as [[|c r]|]; try (intros [= <- <- <-]; split; [intros ? ? ? []|auto]).
  destruct uid as [[|c' r']|]; try (intros [= <- <- <-]; split; [intros ? ? ? []|auto]).
  destruct (endMeeting_result (c :: r) (c' :: r') w) as (res & Hr & Hok & Hko).
  destruct (endMeeting (c :: r) (c' :: r') w) as [o w1]. cbn in Hr, Hok, Hko. subst o.
  destruct (er_success res); cbn [negb]; intros [= <- <- <-].
  - split; [|intros H; exfalso; apply H; reflexivity].
    intros room ev p [H|[]]. injection H as <- <- <-.
    destruct (Hok eq_refl) as (Hc & Hd & m & Hm & Hu).
    split; [reflexivity|]. split; [reflexivity|]. split; [reflexivity|].
    split; [reflexivity|]. split; [assumption|]. split; [assumption|]. eauto.
  - split; [intros ? ? ? []|]. intros _. split; [reflexivity|]. apply Hko. reflexivity.
Qed.

(** [GET /api/meetings/:meetingId] answers 400 to a malformed
    identifier and leaves the world as it is; to a well-formed one it
    always answers 200 with the participants that the lookup yields
    and their number: a meeting that does not exist, or that could not
    be read, is answered like one without participants. *)
Theorem getMeetingInfo_outcomes (k : jsstring) (w : World) :
  (isValidMeetingId k = false ->
   getMeetingInfo k w = (mkResponse 400 (BError (Some (lit "Invalid meeting ID"))), w))
  /\ (isValidMeetingId k = true ->
      (forall m,
         fst (getMeetingById k w) = Ok (Some m) ->
         fst (getMeetingInfo k w)
         = mkResponse 200 (BMeetingInfo (length (participants m)) (participants m)))
      /\ (fst (getMeetingById k w) = Ok None ->
          fst (getMeetingInfo k w) = mkResponse 200 (BMeetingInfo 0 []))
      /\ snd (getMeetingInfo k w) = snd (getMeetingById k w)).
Proof.
  unfold getMeetingInfo. split.
  - intros ->. reflexivity.
  - intros ->. cbn [negb].
    destruct (getMeetingById_total k w) as [found Hfound].
    rewrite (getParticipants_eq k w found Hfound). cbn [fst snd].
    split; [|split; [|reflexivity]].
    + intros m Hm. rewrite Hm in Hfound. injection Hfound as <-. reflexivity.
    + intros Hn. rewrite Hn in Hfound. injection Hfound as <-. reflexivity.
Qed.

(** [POST /api/meetings/create] refuses a body whose [createdBy] or
    [creatorName] is absent or empty with 400, before anything is
    done; otherwise (no store call failing) an answer is 201 and
    carries a meeting that is new, has a well-formed identifier and the
    given creator, and is cached; the store holds it with the time of
    the store as [createdAt], which the answer does not show. *)
Theorem postCreate_outcomes (fuel : nat) (cb cn : option jsstring) (w : World) :
  (cb = None \/ cb = Some [] \/ cn = None \/ cn = Some [] ->
   postCreate fuel cb cn w
   = Some (mkResponse 400 (BError (Some (lit "Missing required fields"))), w))
  /\ (forall creator name resp w',
        cb = Some creator -> creator <> [] ->
        cn = Some name -> name <> [] ->
        faults w = [] ->
        postCreate fuel cb cn w = Some (resp, w') ->
        exists created,
          resp = mkResponse 201 (BCreated (Model.meetingId created) created)
          /\ createdBy created = creator
          /\ isValidMeetingId (Model.meetingId created) = true
          /\ (forall m, ~ version w (Model.meetingId created) m)
          /\ activeMeetings w' !! Model.meetingId created = Some created
          /\ firestore w' !! Model.meetingId created
             = Some (setCreatedAt (serverTime w) created)).
Proof.
  split.
  - unfold postCreate. intros [-> | [-> | [-> | ->]]]; try reflexivity;
      destruct cb as [[|c r]|]; reflexivity.
  - intros creator name resp w' -> Hcb -> Hcn Hf. unfold postCreate.
    destruct creator as [|c r]; [congruence|]. destruct name as [|c' r']; [congruence|].
    destruct (createMeeting_cases fuel (mkMeetingCreateData (c :: r) (c' :: r')) w)
      as (wp & Hsame & _ & [-> | (k' & Hvalid & Hfresh & Hc)]); [discriminate|].
    destruct (Hfresh Hf) as [Hfp Hnew].
    cbv zeta in Hc. rewrite Hfp in Hc. destruct Hc as [[Hc _]|[_ ->]]; [discriminate|].
    intros [= <- <-]. exists (freshMeeting k' (c :: r) (clock w)).
    split; [reflexivity|]. cbn.
    split; [reflexivity|]. split; [assumption|]. split; [|split].
    + intros m Hm. apply (Hnew m), Hsame, Hm.
    + apply lookup_insert_eq.
    + apply lookup_insert_eq.
Qed.

(** ** A join undone by a leave *)

Lemma filter_all {A : Type} (f : A -> bool) (l : list A) :
  (forall x, In x l -> f x = true) -> List.filter f l = l.
Proof.
  induction l as [|a l IH]; intros H; [reflexivity|]. cbn.
  rewrite (H a (or_introl eq_refl)), IH; [reflexivity|].
  intros x Hx. apply H. right. exact Hx.
Qed.

(** A new user who joins and then leaves on a connection that no
    other participant uses (the store not failing): if the meeting had
    participants, the cache holds the meeting as it was found and the
    document has the participants as they were and is active; if it
    had none, this leave was that of the last participant, and the
    meeting is out of the cache with a document that is inactive. *)
Theorem join_then_leave_restores_or_closes
        (data : JoinMeetingData) (w : World) (m : Meeting) :
  storeHealthy w ->
  fst (getMeetingById (jm_meetingId data) w) = Ok (Some m) ->
  isActive m = true ->
  (forall q, In q (participants m) ->
             uid q <> jm_uid data /\ socketId q <> jm_socketId data) ->
  (Z.of_nat (length (participants m)) < maxParticipants m)%Z ->
  let k := jm_meetingId data in
  let w2 := snd (leaveMeeting k (jm_socketId data) (snd (joinMeeting data w))) in
  exists d,
    firestore w !! k = Some d
    /\ (participants m <> [] ->
        activeMeetings w2 !! k = Some m
        /\ firestore w2
           = <[k := setIsActive true (setParticipants (participants m) d)]> (firestore w))
    /\ (participants m = [] ->
        activeMeetings w2 !! k = None
        /\ firestore w2
           = <[k := setIsActive false (setParticipants [] d)]> (firestore w)).
Proof.
  intros Hh Hf Ha Hnew Hroom. cbv zeta.
  destruct (found_healthy _ w m Hh Hf) as (d & Hd & Hfl & Hs & Hc). exists d.
  split; [assumption|].
  pose proof (proj1 (getMeetingById_found _ w m Hf)) as Hvalid.
  pose proof (step_healthy (OpJoin data) w Hh) as Hhj. cbn [step] in Hhj.
  set (p := mkParticipant (jm_uid data) (jm_name data) (jm_socketId data) (clock w)).
  assert (activeMeetings (snd (joinMeeting data w)) !! jm_meetingId data
          = Some (setParticipants (participants m ++ [p]) m)
          /\ firestore (snd (joinMeeting data w))
             = <[jm_meetingId data := setParticipants (participants m ++ [p]) d]>
                 (firestore w)) as [Hcj Hsj].
  { rewrite joinMeeting_unfold. cbv zeta.
    pose proof (getMeetingById_clock (jm_meetingId data) w) as Ht.
    destruct (getMeetingById (jm_meetingId data) w) as [o w1].
    cbn in Hf, Hfl, Hs, Hc, Ht. subst o. rewrite Ha.
    rewrite (proj2 (find_uid_none _ _) (fun q Hq => proj1 (Hnew q Hq))).
    rewrite (proj2 (Z.leb_gt _ _) Hroom).
    rewrite (dbUpdate_accepted _ _ _ d); [|assumption|cbn; congruence].
    cbn. rewrite Hs, Ht, lookup_insert_eq. auto. }
  destruct Hhj as [Hfj _].
  remember (snd (joinMeeting data w)) as wj eqn:Hwj in *. clear Hwj.
  rewrite leaveMeeting_unfold, (getMeetingById_cached _ wj _ Hvalid Hcj). cbv zeta.
  cbn [participants messages isActive setParticipants].
  rewrite List.filter_app.
  rewrite (filter_all _ (participants m)).
  2:{ intros q Hq. destruct (bool_decide_reflect (socketId q = jm_socketId data)) as [E|E];
        [destruct (proj2 (Hnew q Hq) E)|reflexivity]. }
  cbn [List.filter p socketId]. rewrite bool_decide_eq_true_2 by reflexivity.
  cbn [negb]. rewrite app_nil_r.
  destruct (participants m) as [|q qs] eqn:Hps; cbn [length].
  - change (0 =? 0)%nat with true. cbv iota.
    split; [congruence|]. intros _.
    rewrite (dbUpdate_accepted _ _ _ (setParticipants [p] d));
      [|destruct (0 <? length (messages m))%nat; cbn; assumption
       |destruct (0 <? length (messages m))%nat; cbn; rewrite Hsj; apply lookup_insert_eq].
    cbn. destruct (0 <? length (messages m))%nat; cbn;
      rewrite lookup_delete_eq, Hsj, insert_insert_eq; auto.
  - change (S (length qs) =? 0)%nat with false. cbv iota.
    split; [|discriminate]. intros _.
    rewrite (dbUpdate_accepted _ _ _ (setParticipants ((q :: qs) ++ [p]) d));
      [|assumption|cbn; rewrite Hsj; apply lookup_insert_eq].
    cbn. rewrite lookup_insert_eq, Hsj, insert_insert_eq, Ha.
    split; [|reflexivity]. rewrite <- Hps. destruct m; reflexivity.
Qed.

(** ** The connection of a participant *)

(** The [try] block of the [join-meeting] handler, given three
    strings: the connection is changed exactly when [joined-meeting] is
    answered. *)
Lemma onJoinMeeting_binds (socket : Socket) (data : JoinMeetingEvent) (w : World) :
  let out := fst (fst (onJoinMeeting socket data w)) in
  let socket' := snd (fst (onJoinMeeting socket data w)) in
  let w' := snd (onJoinMeeting socket data w) in
  (forall p,
     In (ToSocket (socket_id socket) (lit "joined-meeting") p) out ->
     socket' = mkSocket (socket_id socket) (ev_meetingId data :: rooms socket)
                        (Some (ev_meetingId data)) (Some (ev_uid data))
                        (Some (ev_name data))
     /\ exists m',
          activeMeetings w' !! ev_meetingId data = Some m'
          /\ p = PJoinedMeeting (ev_meetingId data) (participants m') (messages m')
                                (createdBy m')
          /\ exists q, In q (participants m')
                       /\ uid q = ev_uid data /\ socketId q = socket_id socket)
  /\ ((forall p, ~ In (ToSocket (socket_id socket) (lit "joined-meeting") p) out) ->
      socket' = socket).
Proof.
  cbv zeta. unfold onJoinMeeting.
  pose (event := fun e => match e with ToSocket _ ev _ | ToOthers _ _ ev _ => ev end).
  pose (payload := fun e => match e with ToSocket _ _ p | ToOthers _ _ _ p => p end).
  assert (lit "error" <> lit "joined-meeting") as Herr by (vm_compute; discriminate).
  assert (lit "join-error" <> lit "joined-meeting") as Hjerr by (vm_compute; discriminate).
  assert (lit "user-joined" <> lit "joined-meeting") as Huj by (vm_compute; discriminate).
  destruct (negb (isValidMeetingId (ev_meetingId data))
            || negb (isValidUserData (ev_uid data) (ev_name data))); cbn [fst snd].
  { split; [|reflexivity]. intros p [H|[]]. destruct (Herr (f_equal event H)). }
  set (request := mkJoinMeetingData (ev_meetingId data) (ev_uid data) (ev_name data)
                                    (socket_id socket)).
  pose proof (joinMeeting_success_cached request w) as Hs.
  destruct (joinMeeting_result request w) as [[msg Hr]|[m Hr]];
    destruct (joinMeeting request w) as [o w1]; cbn [fst snd] in Hr, Hs; subst o;
    cbn [success meeting error joinFailure negb fst snd].
  - split; [|reflexivity]. intros p [H|[]]. destruct (Hjerr (f_equal event H)).
  - destruct (Hs m eq_refl) as (_ & Hc & Hq). split.
    + intros p [H|[H|[]]]; [|discriminate H]. apply (f_equal payload) in H. cbn in H.
      subst p.
      split; [reflexivity|].
      exists m. split; [exact Hc|]. split; [reflexivity|exact Hq].
    + intros Hno. destruct (Hno _ (or_introl eq_refl)).
Qed.

(** The [join-meeting] handler binds the connection exactly when it
    answers [joined-meeting]: then the event carried a meeting, a user
    and a name, the connection is in the room and its data hold them,
    so that every message that a later [send-message] builds on it
    carries this user and this name; the answer shows the meeting that
    the cache holds, and in it the user is a participant with this
    connection. With any other answer, and so for an event without an
    object or with a field missing, the connection is as it was. *)
Theorem onJoinMeeting_binds_connection
        (socket : Socket) (payload : option JoinMeetingPayload) (w : World) :
  let out := fst (fst (onJoinMeetingEvent socket payload w)) in
  let socket' := snd (fst (onJoinMeetingEvent socket payload w)) in
  let w' := snd (onJoinMeetingEvent socket payload w) in
  (forall p,
     In (ToSocket (socket_id socket) (lit "joined-meeting") p) out ->
     exists k u n,
       payload = Some (mkJoinMeetingPayload (VString k) (VString u) (VString n))
       /\ socket' = mkSocket (socket_id socket) (k :: rooms socket)
                             (Some k) (Some u) (Some n)
       /\ (forall text w'',
             userId (outgoing socket' text w'') = Some u
             /\ userName (outgoing socket' text w'') = Some n)
       /\ exists m',
            activeMeetings w' !! k = Some m'
            /\ p = PJoinedMeeting k (participants m') (messages m') (createdBy m')
            /\ exists q, In q (participants m')
                         /\ uid q = u /\ socketId q = socket_id socket)
  /\ ((forall p, ~ In (ToSocket (socket_id socket) (lit "joined-meeting") p) out) ->
      socket' = socket).
Proof.
  cbv zeta. unfold onJoinMeetingEvent.
  pose (event := fun e => match e with ToSocket _ ev _ | ToOthers _ _ ev _ => ev end).
  assert (lit "error" <> lit "joined-meeting") as Herr by (vm_compute; discriminate).
  assert (forall s msg p,
            ~ In (ToSocket s (lit "joined-meeting") p)
                 [ToSocket s (lit "error") (PMessage msg)]) as Hno.
  { intros s msg p [H|[]]. destruct (Herr (f_equal event H)). }
  assert (lit "join-error" <> lit "joined-meeting") as Hrefused
      by (vm_compute; discriminate).
  destruct payload as [[[k|ck] [u|cu] [n|cn]]|];
    cbn [raw_meetingId raw_uid raw_name fst snd];
    try (split; [intros p Hp; destruct (Hno _ _ _ Hp)|reflexivity]);
    [|destruct (negb (isValidMeetingId ck) || negb (isValidUserData u n));
      (split; [intros p Hp|reflexivity]);
      [destruct (Hno _ _ _ Hp)|destruct Hp as [H|[]]; destruct (Hrefused (f_equal event H))]].
  destruct (onJoinMeeting_binds socket (mkJoinMeetingEvent k u n) w) as [Hyes Hnot].
  cbn [ev_meetingId ev_uid ev_name] in Hyes. split; [|exact Hnot].
  intros p Hp. destruct (Hyes p Hp) as (Hs & Hm). exists k, u, n.
  split; [reflexivity|]. split; [exact Hs|]. split; [|exact Hm].
  intros text w''. rewrite Hs. split; reflexivity.
Qed.

(** ** Lookups, further *)

(** A meeting that a lookup finds is served from the cache from then
    on: the same lookup again answers the same meeting and leaves the
    world, the log of store calls included, as it is. The first lookup
    reads the store only when the cache does not have the meeting, once,
    and caches the document it reads whether the meeting is active or
    not. *)
Theorem getMeetingById_caches_what_it_finds (k : jsstring) (w : World) (m : Meeting) :
  fst (getMeetingById k w) = Ok (Some m) ->
  getMeetingById k (snd (getMeetingById k w)) = (Ok (Some m), snd (getMeetingById k w))
  /\ (activeMeetings w !! k = Some m /\ snd (getMeetingById k w) = w
      \/ activeMeetings w !! k = None
         /\ firestore w !! k = Some m
         /\ dbLog (snd (getMeetingById k w)) = DbGet k :: dbLog w).
Proof.
  intros Hf. destruct (getMeetingById_found k w m Hf) as (Hvalid & Hc & _ & Hwhere).
  split; [apply getMeetingById_cached; assumption|].
  revert Hf. rewrite getMeetingById_unfold, Hvalid.
  destruct Hwhere as [Hw|[Hw Hd]]; rewrite Hw; intros Hf.
  - left. auto.
  - right. split; [reflexivity|]. split; [assumption|].
    destruct (hd false (faults w)); [discriminate|]. rewrite Hd. reflexivity.
Qed.

(** ** The further properties at work on the example sessions *)

Lemma initial_no_version (fs : list bool) (ds : list N) (t : Z) (k : jsstring) (m : Meeting) :
  ~ version (initial fs ds t) k m.
Proof. intros [H|H]; cbn in H; rewrite lookup_empty in H; discriminate. Qed.

Lemma run_keeps_capacity_witness :
  exists m,
    version (run [OpJoin (Scenario.guestJoins 10)] Scenario.full) Scenario.room m
    /\ maxParticipants m = MAX_PARTICIPANTS
    /\ (length (participants m) <= 10)%nat.
Proof.
  exists (Scenario.meetingOf Scenario.guests).
  assert (version (run [OpJoin (Scenario.guestJoins 10)] Scenario.full) Scenario.room
                  (Scenario.meetingOf Scenario.guests)) as Hv.
  { left. vm_compute. reflexivity. }
  split; [exact Hv|].
  apply (run_keeps_capacity
           (Scenario.aliceCreates
              :: map (fun i => OpJoin (Scenario.guestJoins i))
                     [0; 1; 2; 3; 4; 5; 6; 7; 8; 9; 10])
           Scenario.start) with (k := Scenario.room).
  - intros k m Hm. destruct (initial_no_version _ _ _ _ _ Hm).
  - left. vm_compute. reflexivity.
Defined.

Lemma run_keeps_users_distinct_witness :
  NoDup (map uid [Scenario.bob; Scenario.carol]).
Proof.
  refine (run_keeps_users_distinct
            [Scenario.aliceCreates; OpJoin Scenario.bobJoins; OpJoin Scenario.carolJoins;
             OpJoin Scenario.bobJoins]
            Scenario.start _ Scenario.room
            (Scenario.meetingOf [Scenario.bob; Scenario.carol]) _).
  - intros k m Hm. destruct (initial_no_version _ _ _ _ _ Hm).
  - left. vm_compute. reflexivity.
Defined.


Lemma run_keeps_documents_witness :
  is_Some (firestore (run [OpJoin Scenario.bobJoins; OpLeave Scenario.room (lit "s1");
                           OpEnd Scenario.room Scenario.alice]
                          Scenario.created)
           !! Scenario.room).
Proof.
  apply (proj1 (run_keeps_documents
                  [OpJoin Scenario.bobJoins; OpLeave Scenario.room (lit "s1");
                   OpEnd Scenario.room Scenario.alice]
                  Scenario.created)).
  vm_compute. eauto.
Defined.

Lemma joinMeeting_admits_new_user_witness :
  fst (joinMeeting Scenario.carolJoins Scenario.bobAlone)
  = Ok (mkJoinResult true (Some (Scenario.meetingOf [Scenario.bob; Scenario.carol])) None).
Proof.
  destruct (joinMeeting_admits_new_user Scenario.carolJoins Scenario.bobAlone
                                        (Scenario.meetingOf [Scenario.bob]))
    as (d & _ & Hr & _).
  - vm_compute. reflexivity.
  - reflexivity.
  - intros q [<-|[]]. vm_compute. discriminate.
  - reflexivity.
  - apply session_healthy.
  - exact Hr.
Defined.

Lemma joinMeeting_failure_keeps_store_witness :
  firestore (snd (joinMeeting (Scenario.guestJoins 10) Scenario.full))
  = firestore Scenario.full.
Proof.
  apply (joinMeeting_failure_keeps_store
           (Scenario.guestJoins 10) Scenario.full
           (joinFailure (lit "Meeting is full (max 10 participants)"))).
  - vm_compute. reflexivity.
  - reflexivity.
Defined.

Lemma joinMeeting_store_failure_leaves_cache_ahead_witness :
  fst (joinMeeting Scenario.bobJoins Episodes.flaky)
  = Ok (joinFailure (lit "Failed to join meeting"))
  /\ firestore (snd (joinMeeting Scenario.bobJoins Episodes.flaky))
     = firestore Episodes.flaky
  /\ activeMeetings (snd (joinMeeting Scenario.bobJoins Episodes.flaky)) !! Scenario.room
     = Some (Scenario.meetingOf [Scenario.bob]).
Proof.
  apply (joinMeeting_store_failure_leaves_cache_ahead
           Scenario.bobJoins Episodes.flaky (Scenario.meetingOf [])).
  - vm_compute. reflexivity.
  - reflexivity.
  - intros q [].
  - reflexivity.
  - vm_compute. reflexivity.
Defined.

Lemma getParticipants_after_join_witness :
  getParticipants Scenario.room (snd (joinMeeting Scenario.bobJoins Scenario.created))
  = (Ok [Scenario.bob], snd (joinMeeting Scenario.bobJoins Scenario.created)).
Proof.
  apply (proj1 (getParticipants_after_join Scenario.bobJoins Scenario.created
                                           (Scenario.meetingOf [Scenario.bob])
                                           ltac:(vm_compute; reflexivity))).
Defined.

Lemma leaveMeeting_outcomes_witness :
  activeMeetings (snd (leaveMeeting Scenario.room (lit "s1") Scenario.bobAlone))
  !! Scenario.room = None
  /\ exists m,
       activeMeetings (snd (leaveMeeting Scenario.room (lit "s1") Episodes.bobAndCarol))
       !! Scenario.room = Some m
       /\ participants m = [Scenario.carol].
Proof.
  split.
  - destruct (proj2 (leaveMeeting_outcomes Scenario.room (lit "s1") Scenario.bobAlone)
                    (Scenario.meetingOf [Scenario.bob]))
      as (d & _ & _ & _ & He).
    + vm_compute. reflexivity.
    + apply session_healthy.
    + apply He. vm_compute. reflexivity.
  - destruct (proj2 (leaveMeeting_outcomes Scenario.room (lit "s1") Episodes.bobAndCarol)
                    (Scenario.meetingOf [Scenario.bob; Scenario.carol]))
      as (d & _ & _ & Hn & _).
    + vm_compute. reflexivity.
    + apply session_healthy.
    + eexists. split; [apply Hn; vm_compute; discriminate|]. vm_compute. reflexivity.
Defined.

Lemma summary_requested_when_meeting_closes_witness :
  summaryJobs (snd (endMeeting Scenario.room Scenario.alice Episodes.chatting))
  = [(Scenario.room, [Scenario.hello])]
  /\ summaryJobs (snd (leaveMeeting Scenario.room (lit "s1") Episodes.chatting))
     = [(Scenario.room, [Scenario.hello])].
Proof.
  destruct (summary_requested_when_meeting_closes
              Scenario.room Scenario.alice Episodes.chatting
              (setMessages [Scenario.hello] (Scenario.meetingOf [Scenario.bob])))
    as [He _].
  { vm_compute. reflexivity. }
  destruct (summary_requested_when_meeting_closes
              Scenario.room (lit "s1") Episodes.chatting
              (setMessages [Scenario.hello] (Scenario.meetingOf [Scenario.bob])))
    as [_ Hl].
  { vm_compute. reflexivity. }
  split.
  - rewrite He. vm_compute. reflexivity.
  - rewrite Hl. vm_compute. reflexivity.
Defined.

Lemma endMeeting_closes_meeting_witness :
  fst (joinMeeting Scenario.carolJoins
         (run [OpLeave Scenario.room (lit "s1");
               OpAddMessage Scenario.room Scenario.hello]
              (snd (endMeeting Scenario.room Scenario.alice Scenario.bobAlone))))
  = Ok (joinFailure (lit "Meeting is no longer active")).
Proof.
  apply (endMeeting_closes_meeting Scenario.room Scenario.alice
                                   (Scenario.meetingOf [Scenario.bob]) Scenario.bobAlone).
  - apply session_healthy.
  - vm_compute. reflexivity.
  - reflexivity.
  - reflexivity.
Defined.

Lemma summaryReady_outcomes_witness :
  summaryJobs (snd (summaryReady (lit "Bob said hello") Episodes.summarising)) = []
  /\ (summary <$> firestore (snd (summaryReady (lit "Bob said hello") Episodes.summarising))
                  !! Scenario.room)
     = Some (Some (lit "Bob said hello")).
Proof.
  assert (exists d, firestore Episodes.summarising !! Scenario.room = Some d) as [d Hd].
  { vm_compute. eauto. }
  destruct (proj2 (summaryReady_outcomes (lit "Bob said hello") Episodes.summarising)
                  Scenario.room [Scenario.hello] [])
    as (Hj & _ & Hs & _).
  { vm_compute. reflexivity. }
  split; [exact Hj|].
  rewrite (Hs d eq_refl Hd), lookup_insert_eq. reflexivity.
Defined.

Lemma createMeeting_makes_new_meeting_witness :
  activeMeetings (snd (createMeeting 0 Episodes.aliceData Episodes.skewed)) !! Scenario.room
  = Some (Scenario.meetingOf [])
  /\ firestore (snd (createMeeting 0 Episodes.aliceData Episodes.skewed)) !! Scenario.room
     = Some (setCreatedAt 1007 (Scenario.meetingOf []))
  /\ forall m, ~ version Episodes.skewed Scenario.room m.
Proof.
  destruct (createMeeting_makes_new_meeting 0 Episodes.aliceData Episodes.skewed
                                            (Scenario.meetingOf []))
    as (_ & _ & Hnew & Hc & Hd & _).
  - reflexivity.
  - vm_compute. reflexivity.
  - split; [exact Hc|]. split; [exact Hd|exact Hnew].
Defined.

Lemma createMeeting_failure_creates_nothing_witness :
  fst (createMeeting 0 Episodes.aliceData Episodes.writeFails)
  = Throw (JsError (lit "Failed to create meeting"))
  /\ firestore (snd (createMeeting 0 Episodes.aliceData Episodes.writeFails))
     = firestore Episodes.writeFails.
Proof.
  destruct (createMeeting_failure_creates_nothing 0 Episodes.aliceData Episodes.writeFails)
    as [He Hn].
  split.
  - vm_compute. reflexivity.
  - apply Hn. intros created H. vm_compute in H. discriminate H.
Defined.

Lemma createMeeting_overwrites_after_failed_read_witness :
  (exists old,
     firestore Episodes.staleRead !! Scenario.room = Some old
     /\ isActive old = false
     /\ participants old = [])
  /\ firestore (snd (createMeeting 0 Episodes.aliceData Episodes.staleRead))
     !! Scenario.room
     = Some (Scenario.meetingOf []).
Proof.
  assert (exists old,
            firestore Episodes.staleRead !! Scenario.room = Some old
            /\ isActive old = false
            /\ participants old = []) as Hold.
  { vm_compute. eauto. }
  split; [exact Hold|].
  destruct Hold as (old & Hold & _).
  destruct (createMeeting_overwrites_after_failed_read
              0 Episodes.aliceData Episodes.staleRead 23456 [] [] old)
    as (_ & Hd & _).
  - vm_compute. reflexivity.
  - vm_compute. reflexivity.
  - exact Hold.
  - vm_compute. reflexivity.
  - reflexivity.
  - exact Hd.
Defined.

Lemma addMessage_keeps_order_witness :
  (messages <$> firestore (snd (addMessage Scenario.room Episodes.bye
                                  (snd (addMessage Scenario.room Scenario.hello
                                          Scenario.bobAlone))))
                !! Scenario.room)
  = Some [Scenario.hello; Episodes.bye].
Proof.
  destruct (addMessage_keeps_order Scenario.room Scenario.hello Episodes.bye
                                   Scenario.bobAlone (Scenario.meetingOf [Scenario.bob]))
    as (_ & Hstored).
  - apply session_healthy.
  - vm_compute. reflexivity.
  - apply Hstored. vm_compute. reflexivity.
Defined.

Lemma addMessage_store_failure_leaves_cache_ahead_witness :
  fst (addMessage Scenario.room Scenario.hello Episodes.flaky) = Throw FirestoreError
  /\ firestore (snd (addMessage Scenario.room Scenario.hello Episodes.flaky))
     = firestore Episodes.flaky
  /\ activeMeetings (snd (addMessage Scenario.room Scenario.hello Episodes.flaky))
     !! Scenario.room
     = Some (setMessages [Scenario.hello] (Scenario.meetingOf [])).
Proof.
  apply (addMessage_store_failure_leaves_cache_ahead
           Scenario.room Scenario.hello Episodes.flaky (Scenario.meetingOf [])).
  - vm_compute. reflexivity.
  - vm_compute. reflexivity.
Defined.

Lemma onSendMessage_broadcasts_stored_message_witness :
  fst (onSendMessageEvent Episodes.bobSocket (Some Episodes.sendHelloEvent)
                          Scenario.bobAlone)
  = [RoomEmit Scenario.room (lit "new-message") (NNewMessage Episodes.sentHello)]
  /\ exists text u n,
       Some Episodes.sendHelloEvent = Some (mkSendMessagePayload (VString Scenario.room)
                                                                (VString text))
       /\ data_uid Episodes.bobSocket = Some u
       /\ data_name Episodes.bobSocket = Some n
       /\ (1 <= length (trim text) <= 1000)%nat
       /\ exists d' before,
            firestore (snd (onSendMessageEvent Episodes.bobSocket
                              (Some Episodes.sendHelloEvent) Scenario.bobAlone))
            !! Scenario.room = Some d'
            /\ messages d'
               = before ++ [mkChatMessage (ofZ (clock Scenario.bobAlone) ++ lit "-" ++ u)
                                          (Some u) (Some n) (trim text)
                                          (clock Scenario.bobAlone)].
Proof.
  assert (fst (onSendMessageEvent Episodes.bobSocket (Some Episodes.sendHelloEvent)
                                  Scenario.bobAlone)
          = [RoomEmit Scenario.room (lit "new-message") (NNewMessage Episodes.sentHello)])
    as Hout.
  { vm_compute. reflexivity. }
  split; [exact Hout|].
  destruct (onSendMessage_broadcasts_stored_message
              Episodes.bobSocket (Some Episodes.sendHelloEvent) Scenario.bobAlone
              (snd (onSendMessageEvent Episodes.bobSocket (Some Episodes.sendHelloEvent)
                                       Scenario.bobAlone))
              (fst (onSendMessageEvent Episodes.bobSocket (Some Episodes.sendHelloEvent)
                                       Scenario.bobAlone))
              Scenario.room (lit "new-message") (NNewMessage Episodes.sentHello))
    as (text & u & n & Hp & Hu & Hn & _ & _ & Hlen & _ & Hd).
  - apply surjective_pairing.
  - rewrite Hout. left. reflexivity.
  - exists text, u, n. auto.
Defined.

Lemma onSendMessage_failure_is_private_witness :
  firestore (snd (onSendMessageEvent Episodes.bobSocket (Some Episodes.sendHelloEvent)
                                     Episodes.flaky))
  = firestore Episodes.flaky
  /\ firestore (snd (onSendMessageEvent Episodes.stranger None Scenario.bobAlone))
     = firestore Scenario.bobAlone
  /\ firestore (snd (onSendMessageEvent Episodes.bobSocket
                                        (Some Episodes.sendToNumberEvent)
                                        Scenario.bobAlone))
     = firestore Scenario.bobAlone.
Proof.
  split; [|split].
  - refine (proj2 (onSendMessage_failure_is_private
                     Episodes.bobSocket (Some Episodes.sendHelloEvent) Episodes.flaky
                     _ _ (surjective_pairing _) _)).
    intros room ev p H. vm_compute in H. destruct H as [H|[]]. discriminate H.
  - refine (proj2 (onSendMessage_failure_is_private
                     Episodes.stranger None Scenario.bobAlone
                     _ _ (surjective_pairing _) _)).
    intros room ev p H. vm_compute in H. destruct H as [H|[]]. discriminate H.
  - refine (proj2 (onSendMessage_failure_is_private
                     Episodes.bobSocket (Some Episodes.sendToNumberEvent) Scenario.bobAlone
                     _ _ (surjective_pairing _) _)).
    intros room ev p H. vm_compute in H. destruct H as [H|[]]. discriminate H.
Defined.

Lemma onSendMessage_without_sender_blocks_chat_witness :
  fst (onSendMessageEvent Episodes.stranger (Some Episodes.sendHelloEvent)
                          Scenario.bobAlone)
  = [SocketEmit (lit "s9") (lit "error") (NMessage (lit "Failed to send message"))]
  /\ activeMeetings
       (snd (onSendMessageEvent Episodes.stranger (Some Episodes.sendHelloEvent)
                                Scenario.bobAlone))
     !! Scenario.room
     = Some (setMessages [Episodes.strangerHello] (Scenario.meetingOf [Scenario.bob]))
  /\ fst (onSendMessages
            [(Episodes.bobSocket, Some Episodes.sendHelloEvent);
             (Episodes.bobSocket, Some Episodes.sendHelloEvent)]
            (snd (onSendMessageEvent Episodes.stranger (Some Episodes.sendHelloEvent)
                                     Scenario.bobAlone)))
     = [[SocketEmit (lit "s1") (lit "error") (NMessage (lit "Failed to send message"))];
        [SocketEmit (lit "s1") (lit "error") (NMessage (lit "Failed to send message"))]].
Proof.
  pose proof (onSendMessage_without_sender_blocks_chat
                Episodes.stranger Scenario.room (lit "  hello ")
                (Scenario.meetingOf [Scenario.bob]) Scenario.bobAlone
                (or_introl eq_refl)
                ltac:(vm_compute; reflexivity) ltac:(vm_compute; reflexivity)) as H.
  cbv zeta in H. destruct H as (Hout & _ & Hc & Hnext).
  unfold Episodes.sendHelloEvent.
  split; [exact Hout|]. split.
  - rewrite Hc. vm_compute. reflexivity.
  - refine (proj1 (Hnext [(Episodes.bobSocket, _); (Episodes.bobSocket, _)] _)).
    repeat constructor; exists (lit "  hello "); split; try reflexivity;
      vm_compute; reflexivity.
Defined.

Lemma onDisconnect_announces_who_is_left_witness :
  fst (onDisconnect Episodes.bobSocket Episodes.bobAndCarol)
  = [OthersEmit Scenario.room (lit "s1") (lit "user-left")
                (NUserLeft (Some (lit "Bob")) 1)].
Proof.
  destruct (onDisconnect_announces_who_is_left
              Episodes.bobSocket Scenario.room
              (Scenario.meetingOf [Scenario.bob; Scenario.carol]) Episodes.bobAndCarol)
    as [He _].
  - apply session_healthy.
  - reflexivity.
  - vm_compute. reflexivity.
  - rewrite He. vm_compute. reflexivity.
Defined.

Lemma postEnd_announces_only_ended_meetings_witness :
  postEnd (Some Scenario.room) (Some Scenario.alice) Scenario.bobAlone
  = (mkResponse 200 BSuccess,
     [RoomEmit Scenario.room (lit "meeting-ended") NNone],
     snd (endMeeting Scenario.room Scenario.alice Scenario.bobAlone))
  /\ activeMeetings (snd (endMeeting Scenario.room Scenario.alice Scenario.bobAlone))
     !! Scenario.room = None
  /\ exists d,
       firestore (snd (endMeeting Scenario.room Scenario.alice Scenario.bobAlone))
       !! Scenario.room = Some d
       /\ isActive d = false.
Proof.
  assert (postEnd (Some Scenario.room) (Some Scenario.alice) Scenario.bobAlone
          = (mkResponse 200 BSuccess,
             [RoomEmit Scenario.room (lit "meeting-ended") NNone],
             snd (endMeeting Scenario.room Scenario.alice Scenario.bobAlone))) as Hp.
  { vm_compute. reflexivity. }
  split; [exact Hp|].
  destruct (proj1 (postEnd_announces_only_ended_meetings _ _ _ _ _ _ Hp)
                  Scenario.room (lit "meeting-ended") NNone)
    as (_ & _ & _ & _ & Hc & Hd & _).
  - left. reflexivity.
  - split; [exact Hc|exact Hd].
Defined.

Lemma getMeetingInfo_outcomes_witness :
  getMeetingInfo (lit "12345x") Scenario.bobAlone
  = (mkResponse 400 (BError (Some (lit "Invalid meeting ID"))), Scenario.bobAlone)
  /\ fst (getMeetingInfo Scenario.room Scenario.bobAlone)
     = mkResponse 200 (BMeetingInfo 1 [Scenario.bob])
  /\ fst (getMeetingInfo (lit "999999") Scenario.bobAlone)
     = mkResponse 200 (BMeetingInfo 0 []).
Proof.
  split; [|split].
  - apply (proj1 (getMeetingInfo_outcomes (lit "12345x") Scenario.bobAlone)).
    vm_compute. reflexivity.
  - apply (proj1 (proj2 (getMeetingInfo_outcomes Scenario.room Scenario.bobAlone)
                        ltac:(vm_compute; reflexivity))
                 (Scenario.meetingOf [Scenario.bob])).
    vm_compute. reflexivity.
  - apply (proj1 (proj2 (proj2 (getMeetingInfo_outcomes (lit "999999") Scenario.bobAlone)
                               ltac:(vm_compute; reflexivity)))).
    vm_compute. reflexivity.
Defined.

Lemma postCreate_outcomes_witness :
  postCreate 0 (Some Scenario.alice) (Some []) Scenario.start
  = Some (mkResponse 400 (BError (Some (lit "Missing required fields"))), Scenario.start)
  /\ exists created,
       mkResponse 201 (BCreated Scenario.room (Scenario.meetingOf []))
       = mkResponse 201 (BCreated (meetingId created) created)
       /\ createdBy created = Scenario.alice
       /\ isValidMeetingId (meetingId created) = true
       /\ (forall m, ~ version Episodes.skewed (meetingId created) m)
       /\ activeMeetings (snd (createMeeting 0 Episodes.aliceData Episodes.skewed))
          !! meetingId created = Some created
       /\ firestore (snd (createMeeting 0 Episodes.aliceData Episodes.skewed))
          !! meetingId created = Some (setCreatedAt 1007 created).
Proof.
  split.
  - apply (proj1 (postCreate_outcomes 0 (Some Scenario.alice) (Some []) Scenario.start)).
    right. right. right. reflexivity.
  - apply (proj2 (postCreate_outcomes 0 (Some Scenario.alice) (Some (lit "Alice"))
                                      Episodes.skewed)
                 Scenario.alice (lit "Alice")).
    + reflexivity.
    + vm_compute. discriminate.
    + reflexivity.
    + vm_compute. discriminate.
    + reflexivity.
    + vm_compute. reflexivity.
Defined.

Lemma join_then_leave_restores_or_closes_witness :
  activeMeetings (snd (leaveMeeting Scenario.room (lit "s2")
                         (snd (joinMeeting Scenario.carolJoins Scenario.bobAlone))))
  !! Scenario.room = Some (Scenario.meetingOf [Scenario.bob])
  /\ activeMeetings (snd (leaveMeeting Scenario.room (lit "s1")
                            (snd (joinMeeting Scenario.bobJoins Scenario.created))))
     !! Scenario.room = None.
Proof.
  split.
  - destruct (join_then_leave_restores_or_closes
                Scenario.carolJoins Scenario.bobAlone (Scenario.meetingOf [Scenario.bob]))
      as (d & _ & Hn & _).
    + apply session_healthy.
    + vm_compute. reflexivity.
    + reflexivity.
    + intros q [<-|[]]. split; vm_compute; discriminate.
    + reflexivity.
    + apply Hn. discriminate.
  - destruct (join_then_leave_restores_or_closes
                Scenario.bobJoins Scenario.created (Scenario.meetingOf []))
      as (d & _ & _ & He).
    + apply session_healthy.
    + vm_compute. reflexivity.
    + reflexivity.
    + intros q [].
    + reflexivity.
    + apply He. reflexivity.
Defined.

Lemma onJoinMeeting_binds_connection_witness :
  (exists k u n,
     Some Episodes.bobJoinsEvent
     = Some (mkJoinMeetingPayload (VString k) (VString u) (VString n))
     /\ snd (fst (onJoinMeetingEvent Scenario.socket1 (Some Episodes.bobJoinsEvent)
                                     Scenario.created))
        = mkSocket (lit "s1") [k] (Some k) (Some u) (Some n))
  /\ snd (fst (onJoinMeetingEvent Scenario.socket1 None Scenario.created))
     = Scenario.socket1
  /\ snd (fst (onJoinMeetingEvent Scenario.socket1 (Some Episodes.emptyJoinEvent)
                                  Scenario.created))
     = Scenario.socket1.
Proof.
  split; [|split];
    [|
     |apply (proj2 (onJoinMeeting_binds_connection
                      Scenario.socket1 (Some Episodes.emptyJoinEvent) Scenario.created));
      intros p H; vm_compute in H; destruct H as [H|[]]; discriminate H].
  - destruct (proj1 (onJoinMeeting_binds_connection
                       Scenario.socket1 (Some Episodes.bobJoinsEvent) Scenario.created)
                    (PJoinedMeeting Scenario.room [Scenario.bob] [] Scenario.alice))
      as (k & u & n & Hp & Hs & _).
    + vm_compute. left. reflexivity.
    + exists k, u, n. split; [exact Hp|exact Hs].
  - apply (proj2 (onJoinMeeting_binds_connection Scenario.socket1 None Scenario.created)).
    intros p H. vm_compute in H. destruct H as [H|[]]. discriminate H.
Defined.

Lemma getMeetingById_caches_what_it_finds_witness :
  getMeetingById Scenario.room (snd (getMeetingById Scenario.room Scenario.deserted))
  = (Ok (Some (setIsActive false (Scenario.meetingOf []))),
     snd (getMeetingById Scenario.room Scenario.deserted))
  /\ dbLog (snd (getMeetingById Scenario.room Scenario.deserted))
     = DbGet Scenario.room :: dbLog Scenario.deserted.
Proof.
  destruct (getMeetingById_caches_what_it_finds
              Scenario.room Scenario.deserted (setIsActive false (Scenario.meetingOf [])))
    as [Hagain [[Hc _]|(_ & _ & Hlog)]].
  - vm_compute. reflexivity.
  - vm_compute in Hc. discriminate Hc.
  - split; [exact Hagain|exact Hlog].
Defined.
